(** * clips-generator: the image and audio generation services

  A shallow embedding of the Python sources of the repository
  (genImages and genAudio) and the properties of its specification
  that concern them.

  Layout: the first part holds the definitions, module by module in
  the order of the Python packages; the second part holds the lemmas
  and theorems. *)

From Stdlib Require Import ZArith QArith Qabs String Ascii List Lia Bool.
From Stdlib Require Import Sorted Permutation.
From stdpp Require Import base option list gmap strings pretty.

Open Scope string_scope.
Open Scope list_scope.
Open Scope Z_scope.

(* ===================================================================== *)
(** * Part I: definitions                                                 *)
(* ===================================================================== *)

(** ** Python values

  A Python [str] is modelled as a [string] whose characters are the code
  points below 256; [len] counts characters.  Decoded JSON payloads are
  values of [json]; a JSON object keeps its keys in document order. *)

Module Py.

(** [str.isspace] on the code points below 256. *)
Definition is_space (c : ascii) : bool :=
  let n := nat_of_ascii c in
  ((9 <=? n)%nat && (n <=? 13)%nat)
  || ((28 <=? n)%nat && (n <=? 32)%nat)
  || (n =? 133)%nat || (n =? 160)%nat.

Fixpoint drop_space (l : list ascii) : list ascii :=
  match l with
  | c :: l' => if is_space c then drop_space l' else l
  | [] => []
  end.

(** [s.strip()] *)
Definition strip (s : string) : string :=
  string_of_list_ascii
    (rev (drop_space (rev (drop_space (list_ascii_of_string s))))).

(** [s[:n]] for [n >= 0] *)
Definition prefix (n : nat) (s : string) : string :=
  string_of_list_ascii (take n (list_ascii_of_string s)).

(** [len(s)] *)
Definition len (s : string) : Z := Z.of_nat (String.length s).

(** [c * n] for a one-character string *)
Definition repeat_char (c : ascii) (n : nat) : string :=
  string_of_list_ascii (repeat c n).

(** [s.rstrip("/")] *)
Fixpoint drop_slash (l : list ascii) : list ascii :=
  match l with
  | c :: l' => if Ascii.eqb c "/" then drop_slash l' else l
  | [] => []
  end.

Definition rstrip_slash (s : string) : string :=
  string_of_list_ascii (rev (drop_slash (rev (list_ascii_of_string s)))).

(** [needle in s] for two strings *)
Fixpoint is_prefix (p s : string) : bool :=
  match p, s with
  | EmptyString, _ => true
  | String a p', String b s' => Ascii.eqb a b && is_prefix p' s'
  | String _ _, EmptyString => false
  end.

Fixpoint contains_substring (needle s : string) : bool :=
  is_prefix needle s
  || match s with
     | EmptyString => false
     | String _ s' => contains_substring needle s'
     end.

#[local] Set Warnings "-register-all".

Inductive json : Type :=
| JNull
| JBool (b : bool)
| JInt (n : Z)
| JFloat (q : Q)
| JStr (s : string)
| JList (l : list json)
| JDict (d : list (string * json)).

(** Truth value of a decoded JSON value, as [x or y] tests it. *)
Definition truthy (j : json) : bool :=
  match j with
  | JNull => false
  | JBool b => b
  | JInt n => negb (n =? 0)
  | JFloat q => negb (Qeq_bool q 0)
  | JStr s => negb (String.eqb s "")
  | JList l => match l with [] => false | _ => true end
  | JDict d => match d with [] => false | _ => true end
  end.

(** Lookup in the key/value pairs of a dict. *)
Fixpoint assoc {A} (k : string) (d : list (string * A)) : option A :=
  match d with
  | [] => None
  | (k', v) :: d' => if String.eqb k k' then Some v else assoc k d'
  end.

(** [d.get(k)] on a dict: [None] of Python is [JNull]. *)
Definition dict_get (k : string) (d : list (string * json)) : json :=
  match assoc k d with Some v => v | None => JNull end.

(** The value under the key [k] of a JSON object. *)
Definition json_field (k : string) (j : json) : json :=
  match j with
  | JDict d => dict_get k d
  | _ => JNull
  end.

(** [x or y] *)
Definition or_ (x y : json) : json := if truthy x then x else y.

(** [type(x).__name__] *)
Definition type_name (x : json) : string :=
  match x with
  | JNull => "NoneType"
  | JBool _ => "bool"
  | JInt _ => "int"
  | JFloat _ => "float"
  | JStr _ => "str"
  | JList _ => "list"
  | JDict _ => "dict"
  end.

Definition backslash : ascii := ascii_of_nat 92.
Definition single_quote : ascii := ascii_of_nat 39.
Definition double_quote : ascii := ascii_of_nat 34.

Definition hex_digit (n : nat) : ascii :=
  nth n (list_ascii_of_string "0123456789abcdef") "0"%char.

(** [str.isprintable] on the code points below 256. *)
Definition is_printable (c : ascii) : bool :=
  let n := nat_of_ascii c in
  ((32 <=? n)%nat && (n <? 127)%nat)
  || ((161 <=? n)%nat && negb (n =? 173)%nat).

Definition repr_char (quote c : ascii) : list ascii :=
  let n := nat_of_ascii c in
  if Ascii.eqb c quote || Ascii.eqb c backslash then [backslash; c]
  else if (n =? 9)%nat then [backslash; "t"%char]
  else if (n =? 10)%nat then [backslash; "n"%char]
  else if (n =? 13)%nat then [backslash; "r"%char]
  else if is_printable c then [c]
  else [backslash; "x"%char; hex_digit (n / 16); hex_digit (n mod 16)].

(** [repr(s)] of a [str]: between single quotes, or between double
    quotes when the string holds a single quote and no double quote. *)
Definition repr_str (s : string) : string :=
  let l := list_ascii_of_string s in
  let quote :=
    if existsb (Ascii.eqb single_quote) l
       && negb (existsb (Ascii.eqb double_quote) l)
    then double_quote else single_quote in
  string_of_list_ascii (quote :: flat_map (repr_char quote) l ++ [quote]).

(** The exceptions that reach a handler in the modelled code.  The ones
    of the image backend client carry their message; the others carry
    the name of their Python class and their text, [str(e)]. *)
Inductive exn : Type :=
| ComfyUIUnavailableError (msg : string)
| ComfyUIGenerationError (msg : string)
| OtherError (type_name : string) (msg : string).

(** [Some] over a result. *)
Definition option_map_ok {A} (r : exn + A) : exn + option A :=
  match r with
  | inr a => inr (Some a)
  | inl e => inl e
  end.

End Py.
Export Py.

(** ** Computations that change a world and either return or raise

    The world survives a raise: what was written stays written. *)

Module Eff.

Definition st (W A : Type) : Type := W -> (exn + A) * W.

Definition ret {W A} (a : A) : st W A := fun w => (inr a, w).

Definition raise {W A} (e : exn) : st W A := fun w => (inl e, w).

Definition bind {W A B} (m : st W A) (k : A -> st W B) : st W B :=
  fun w =>
    match m w with
    | (inr a, w') => k a w'
    | (inl e, w') => (inl e, w')
    end.

(** [try: m except ...]: hand the exception to the handler as a value. *)
Definition try {W A} (m : st W A) : st W (exn + A) :=
  fun w => let '(r, w') := m w in (inr r, w').

(** Pure code that may raise: [exn + A] with its own bind. *)
Definition and_then {A B} (r : exn + A) (k : A -> exn + B) : exn + B :=
  match r with
  | inr a => k a
  | inl e => inl e
  end.

Definition lift {W A} (r : exn + A) : st W A := fun w => (r, w).

End Eff.
Export Eff.

Declare Scope io_scope.
Delimit Scope io_scope with io.
Notation "x <- m ;; k" := (bind m (fun x => k))
  (at level 20, m at level 99, k at level 200) : io_scope.
Notation "m ;;; k" := (bind m (fun _ => k))
  (at level 20, k at level 200) : io_scope.
Notation "x <-? r ;; k" := (and_then r (fun x => k))
  (at level 20, r at level 99, k at level 200) : io_scope.
Open Scope io_scope.

(** ** shared/models.py *)

Module Models.

Inductive AspectRatio : Type :=
| SQUARE | LANDSCAPE | PORTRAIT | PHOTO | WIDE | CUSTOM.

Definition AspectRatio_eqb (a b : AspectRatio) : bool :=
  match a, b with
  | SQUARE, SQUARE | LANDSCAPE, LANDSCAPE | PORTRAIT, PORTRAIT
  | PHOTO, PHOTO | WIDE, WIDE | CUSTOM, CUSTOM => true
  | _, _ => false
  end.

Definition AspectRatio_value (a : AspectRatio) : string :=
  match a with
  | SQUARE => "1:1" | LANDSCAPE => "16:9" | PORTRAIT => "9:16"
  | PHOTO => "4:3" | WIDE => "21:9" | CUSTOM => "custom"
  end.

(** [AspectRatio(s)]: [None] stands for the [ValueError]. *)
Definition AspectRatio_of_value (s : string) : option AspectRatio :=
  find (fun a => String.eqb (AspectRatio_value a) s)
       [SQUARE; LANDSCAPE; PORTRAIT; PHOTO; WIDE; CUSTOM].

Inductive ImageFormat : Type := PNG | JPEG | WEBP.

Definition ImageFormat_value (f : ImageFormat) : string :=
  match f with PNG => "png" | JPEG => "jpeg" | WEBP => "webp" end.

Inductive ResponseFormat : Type := JSON | MARKDOWN.

(** The dict [ASPECT_RATIO_DIMENSIONS]; [CUSTOM] is not a key. *)
Definition ASPECT_RATIO_DIMENSIONS (a : AspectRatio) : option (Z * Z) :=
  match a with
  | SQUARE => Some (2048, 2048)
  | LANDSCAPE => Some (3840, 2160)
  | PORTRAIT => Some (2160, 3840)
  | PHOTO => Some (2560, 1920)
  | WIDE => Some (3840, 1600)
  | CUSTOM => None
  end.

(** [x or d] for an [Optional[int]]: [None] and [0] both give [d]. *)
Definition int_or (x : option Z) (d : Z) : Z :=
  match x with
  | Some v => if v =? 0 then d else v
  | None => d
  end.

Definition resolve_dimensions (aspect_ratio : AspectRatio)
    (width height : option Z) (default_width default_height : Z) : Z * Z :=
  let '(w, h) :=
    if AspectRatio_eqb aspect_ratio CUSTOM
    then (int_or width default_width, int_or height default_height)
    else default (default_width, default_height)
                 (ASPECT_RATIO_DIMENSIONS aspect_ratio) in
  let w := (w / 64) * 64 in
  let h := (h / 64) * 64 in
  (Z.max w 64, Z.max h 64).

(** The fields of [GenerateImageInput], once validated. *)
Record GenerateImageInput : Type := mk_input {
  prompt : string;
  negative_prompt : string;
  aspect_ratio : AspectRatio;
  width : option Z;
  height : option Z;
  steps : Z;
  guidance_scale : Q;
  seed : option Z;
  output_format : ImageFormat;
  batch_size : Z;
  response_format : ResponseFormat
}.

(** The white space that the validation of a [str] field strips when
    [str_strip_whitespace] is set (the Unicode property White_Space, on
    the code points below 256). *)
Definition is_white_space (c : ascii) : bool :=
  let n := nat_of_ascii c in
  ((9 <=? n)%nat && (n <=? 13)%nat)
  || (n =? 32)%nat || (n =? 133)%nat || (n =? 160)%nat.

Fixpoint drop_white_space (l : list ascii) : list ascii :=
  match l with
  | c :: l' => if is_white_space c then drop_white_space l' else l
  | [] => []
  end.

Definition trim (s : string) : string :=
  string_of_list_ascii
    (rev (drop_white_space (rev (drop_white_space (list_ascii_of_string s))))).

Definition validation_error {A} (field : string) : exn + A :=
  inl (OtherError "ValidationError" field).

(** A [str] field with [min_length] and [max_length] under
    [str_strip_whitespace=True]: stripped first, measured after. *)
Definition validate_str (field : string) (min_length max_length : Z)
    (s : string) : exn + string :=
  let s' := trim s in
  if (len s' <? min_length) || (max_length <? len s')
  then validation_error field
  else inr s'.

(** An [int] field with [ge] and [le]. *)
Definition validate_int (field : string) (ge le : Z) (n : Z) : exn + Z :=
  if (n <? ge) || (le <? n) then validation_error field else inr n.

(** A [float] field with [ge] and [le]. *)
Definition validate_float (field : string) (ge le : Q) (x : Q) : exn + Q :=
  if Qle_bool ge x && Qle_bool x le then inr x else validation_error field.

(** An [Optional[int]] field with [ge] and [le], given as a decoded JSON
    value; [lax_int] is the coercion of the validation library for the
    values that are neither [None] nor an [int]. *)
Definition validate_optional_int (lax_int : json -> option Z)
    (field : string) (ge le : Z) (v : json) : exn + option Z :=
  match v with
  | JNull => inr None
  | JInt n => option_map_ok (validate_int field ge le n)
  | _ =>
      match lax_int v with
      | Some n => option_map_ok (validate_int field ge le n)
      | None => validation_error field
      end
  end.

Definition default_negative_prompt : string :=
  "blurry, low quality, distorted, watermark, text".

Module GeneratedImage.
Record t : Type := make {
  image_path : string;
  filename : string;
  width : Z;
  height : Z;
  format : string;
  seed : Z;
  prompt : string;
  steps : Z;
  guidance_scale : Q;
  file_size_bytes : Z;
  generation_time_ms : Z
}.
End GeneratedImage.

Record GenerationResult : Type := mk_result {
  success : bool;
  images : list GeneratedImage.t;
  total_generated : Z;
  error : option string
}.

(** [GenerateImageInput(prompt=, response_format=, aspect_ratio=, width=,
    height=, steps=, guidance_scale=)], the other fields taking their
    defaults.  A failure raises one [ValidationError]; the model names the
    first field that fails, the library lists them all. *)
Definition new_GenerateImageInput (lax_int : json -> option Z)
    (prompt : string) (response_format : ResponseFormat)
    (aspect_ratio : AspectRatio) (width height : json) (steps : Z)
    (guidance_scale : Q) : exn + GenerateImageInput :=
  prompt' <-? validate_str "prompt" 3 2000 prompt ;;
  width' <-? validate_optional_int lax_int "width" 256 4096 width ;;
  height' <-? validate_optional_int lax_int "height" 256 4096 height ;;
  steps' <-? validate_int "steps" 1 50 steps ;;
  guidance' <-? validate_float "guidance_scale" 0 20 guidance_scale ;;
  inr (mk_input prompt' default_negative_prompt aspect_ratio width' height'
                steps' guidance' None PNG 1 response_format).

End Models.
Export Models.

(** ** The process and its surroundings

    The code runs against things it does not own: the HTTP backend, the
    clock, the random and uuid generators, the file system and a few
    library functions.  [env] scripts them; [world] is what the code has
    done to them so far.  The [k]-th HTTP call of a run gets the outcome
    [backend k request], which covers every deterministic backend. *)

Module Sys.

Inductive http_method : Type := GET | POST.

Record request : Type := mk_request {
  rq_method : http_method;
  rq_url : string;
  rq_params : list (string * string);
  rq_json : option json;
  rq_timeout : Z            (* seconds *)
}.

Record response : Type := mk_response {
  status_code : Z;
  content : string;         (* the body; [text] is its decoding *)
  decoded : option json     (* [json()]; [None]: the body is not JSON *)
}.

(** What awaiting an [httpx] call gives. *)
Inductive outcome : Type :=
| ConnectError (msg : string)
| TimeoutException (cls msg : string)   (* a subclass, by name *)
| TransportError (cls msg : string)     (* any other exception *)
| Reply (r : response).

Record env : Type := mk_env {
  backend : nat -> request -> outcome;
  clock_ms : nat -> Z;            (* [int(time.time() * 1000)], k-th reading *)
  uuid4 : nat -> string;          (* [str(uuid.uuid4())], k-th draw *)
  randint : nat -> Z;             (* [random.randint(0, 2**32 - 1)], k-th draw *)
  py_str : json -> string;        (* [str(v)] of a decoded JSON value *)
  py_int : json -> exn + Z;       (* [int(v)] *)
  py_float : json -> exn + Q;     (* [float(v)], a finite float as a rational *)
  lax_int : json -> option Z;     (* the coercion to [int] of the validation *)
  path_join : string -> string -> string;   (* [dir / name] *)
  path_name : string -> string;             (* [path.name] *)
  path_resolve : string -> string;          (* [str(path.resolve())] *)
  (* the [OSError], class and text, with which the file system refuses to
     write a path (the path is a directory, its parent is missing, ...);
     [None] when it takes the write *)
  write_error : string -> option (string * string)
}.

Inductive event : Type :=
| EvSleep (seconds : Z)
| EvHttp (rq : request)
| EvMkdir (dir : string)
| EvWrite (path : string) (data : string).

Record world : Type := mk_world {
  calls : nat;                    (* HTTP calls made *)
  clock_reads : nat;
  uuid_draws : nat;
  rand_draws : nat;
  files : gmap string string;     (* path to content *)
  trace : list event              (* oldest first *)
}.

Definition world0 : world := mk_world 0 0 0 0 ∅ [].

(** The computations of the image service. *)
Definition io : Type -> Type := st world.

Definition log (ev : event) (w : world) : world :=
  mk_world (calls w) (clock_reads w) (uuid_draws w) (rand_draws w)
           (files w) (trace w ++ [ev]).

(** One HTTP call: logged, counted, answered by the backend. *)
Definition send (E : env) (rq : request) : io outcome :=
  fun w =>
    let w1 := log (EvHttp rq) w in
    (inr (backend E (calls w) rq),
     mk_world (S (calls w1)) (clock_reads w1) (uuid_draws w1) (rand_draws w1)
              (files w1) (trace w1)).

(** [await asyncio.sleep(seconds)] *)
Definition sleep (seconds : Z) : io unit :=
  fun w => (inr tt, log (EvSleep seconds) w).

(** [int(time.time() * 1000)] *)
Definition now_ms (E : env) : io Z :=
  fun w =>
    (inr (clock_ms E (clock_reads w)),
     mk_world (calls w) (S (clock_reads w)) (uuid_draws w) (rand_draws w)
              (files w) (trace w)).

Definition draw_uuid (E : env) : io string :=
  fun w =>
    (inr (uuid4 E (uuid_draws w)),
     mk_world (calls w) (clock_reads w) (S (uuid_draws w)) (rand_draws w)
              (files w) (trace w)).

Definition draw_randint (E : env) : io Z :=
  fun w =>
    (inr (randint E (rand_draws w)),
     mk_world (calls w) (clock_reads w) (uuid_draws w) (S (rand_draws w))
              (files w) (trace w)).

(** [dir.mkdir(parents=True, exist_ok=True)] *)
Definition mkdir (dir : string) : io unit :=
  fun w => (inr tt, log (EvMkdir dir) w).

(** [path.write_bytes(data)]: a write that the file system refuses raises
    and leaves no mark. *)
Definition write_bytes (E : env) (path data : string) : io unit :=
  fun w =>
    match write_error E path with
    | Some (cls, msg) => (inl (OtherError cls msg), w)
    | None =>
        let w1 := log (EvWrite path data) w in
        (inr tt,
         mk_world (calls w1) (clock_reads w1) (uuid_draws w1) (rand_draws w1)
                  (<[path := data]> (files w1)) (trace w1))
    end.

(** [path.stat().st_size] *)
Definition st_size (path : string) : io Z :=
  fun w =>
    match files w !! path with
    | Some data => (inr (len data), w)
    | None => (inl (OtherError "FileNotFoundError" path), w)
    end.

(** [response.raise_for_status()] of httpx: every status outside 2xx
    raises [HTTPStatusError]; [true] here means it returns. *)
Definition is_success (r : response) : bool :=
  (200 <=? status_code r) && (status_code r <? 300).

End Sys.
Export Sys.

(** ** Operations of Python on decoded JSON values

    The texts of the exceptions are those of CPython 3.12. *)

Module Dyn.

Definition o_acute : string := String (ascii_of_nat 243) "".
Definition u_acute : string := String (ascii_of_nat 250) "".
Definition dquote : string := String (ascii_of_nat 34) "".

Definition type_error {A} (what : string) : exn + A :=
  inl (OtherError "TypeError" what).

(** The [AttributeError] of [x.attr]. *)
Definition attribute_error {A} (x : json) (attr : string) : exn + A :=
  inl (OtherError "AttributeError"
         ("'" +:+ type_name x +:+ "' object has no attribute '" +:+ attr
          +:+ "'")).

Definition not_iterable {A} (x : json) : exn + A :=
  type_error ("argument of type '" +:+ type_name x +:+ "' is not iterable").

Definition not_subscriptable {A} (x : json) : exn + A :=
  type_error ("'" +:+ type_name x +:+ "' object is not subscriptable").

Definition unhashable {A} (x : json) : exn + A :=
  type_error ("unhashable type: '" +:+ type_name x +:+ "'").

(** [str(x)], as an f-string formats it; the text of a float, a list or a
    dict is left to [py_str]. *)
Definition str_ (E : env) (x : json) : string :=
  match x with
  | JStr s => s
  | JInt n => pretty n
  | JNull => "None"
  | JBool true => "True"
  | JBool false => "False"
  | _ => py_str E x
  end.

(** The number that a value is, for the values that compare as numbers. *)
Definition number (x : json) : option Q :=
  match x with
  | JBool b => Some (if b then 1%Q else 0%Q)
  | JInt n => Some (inject_Z n)
  | JFloat q => Some q
  | _ => None
  end.

(** [x == y] *)
Fixpoint py_eq (x y : json) {struct x} : bool :=
  match x, y with
  | JNull, JNull => true
  | JStr s, JStr t => String.eqb s t
  | JList l, JList l' =>
      (fix eq_items (l l' : list json) {struct l} : bool :=
         match l, l' with
         | [], [] => true
         | a :: r, b :: r' => py_eq a b && eq_items r r'
         | _, _ => false
         end) l l'
  | JDict d, JDict d' =>
      (length d =? length d')%nat
      && (fix eq_fields (d : list (string * json)) {struct d} : bool :=
            match d with
            | [] => true
            | (k, v) :: r =>
                match assoc k d' with
                | Some v' => py_eq v v'
                | None => false
                end && eq_fields r
            end) d
  | _, _ =>
      match number x, number y with
      | Some a, Some b => Qeq_bool a b
      | _, _ => false
      end
  end.

(** [k in container] for a string [k]. *)
Definition contains (k : string) (container : json) : exn + bool :=
  match container with
  | JDict d => inr (bool_decide (is_Some (assoc k d)))
  | JList l =>
      inr (existsb (fun x => match x with JStr s => String.eqb s k | _ => false end) l)
  | JStr s => inr (contains_substring k s)
  | _ => not_iterable container
  end.

(** [v in container] for any value [v]: the keys of a decoded object are
    strings, so another hashable value is a key of none. *)
Definition contains_value (v container : json) : exn + bool :=
  match v with
  | JStr k => contains k container
  | _ =>
      match container with
      | JDict _ =>
          match v with
          | JList _ | JDict _ => unhashable v
          | _ => inr false
          end
      | JList l => inr (existsb (py_eq v) l)
      | JStr _ =>
          type_error ("'in <string>' requires string as left operand, not "
                      +:+ type_name v)
      | _ => not_iterable container
      end
  end.

(** [container[k]] for a string [k]; the text of a [KeyError] is the
    [repr] of the key. *)
Definition subscript (container : json) (k : string) : exn + json :=
  match container with
  | JDict d =>
      match assoc k d with
      | Some v => inr v
      | None => inl (OtherError "KeyError" (repr_str k))
      end
  | JList _ => type_error "list indices must be integers or slices, not str"
  | JStr _ => type_error "string indices must be integers, not 'str'"
  | _ => not_subscriptable container
  end.

(** The position that the index [n] names in a sequence of [size] items. *)
Definition position (n : Z) (size : nat) : option nat :=
  let i := if n <? 0 then n + Z.of_nat size else n in
  if (0 <=? i) && (i <? Z.of_nat size) then Some (Z.to_nat i) else None.

(** The integer that a value is, as an index. *)
Definition as_index (v : json) : option Z :=
  match v with
  | JInt n => Some n
  | JBool b => Some (if b then 1 else 0)
  | _ => None
  end.

(** [container[v]] for any value [v]. *)
Definition subscript_value (E : env) (container v : json) : exn + json :=
  match v with
  | JStr k => subscript container k
  | _ =>
      match container with
      | JDict _ =>
          match v with
          | JList _ | JDict _ => unhashable v
          | _ => inl (OtherError "KeyError" (str_ E v))
          end
      | JList l =>
          match as_index v with
          | Some n =>
              match position n (length l) with
              | Some i =>
                  match l !! i with
                  | Some x => inr x
                  | None => inl (OtherError "IndexError" "list index out of range")
                  end
              | None => inl (OtherError "IndexError" "list index out of range")
              end
          | None =>
              type_error ("list indices must be integers or slices, not "
                          +:+ type_name v)
          end
      | JStr s =>
          match as_index v with
          | Some n =>
              match position n (String.length s) with
              | Some i =>
                  match list_ascii_of_string s !! i with
                  | Some ch => inr (JStr (String ch ""))
                  | None =>
                      inl (OtherError "IndexError" "string index out of range")
                  end
              | None => inl (OtherError "IndexError" "string index out of range")
              end
          | None =>
              type_error ("string indices must be integers, not '"
                          +:+ type_name v +:+ "'")
          end
      | _ => not_subscriptable container
      end
  end.

(** [x.get(k, dflt)] *)
Definition get_or (k : string) (dflt : json) (x : json) : exn + json :=
  match x with
  | JDict d => inr (default dflt (assoc k d))
  | _ => attribute_error x "get"
  end.

(** [x.values()] *)
Definition values (x : json) : exn + list json :=
  match x with
  | JDict d => inr (map snd d)
  | _ => attribute_error x "values"
  end.

(** [for item in x] *)
Definition iterate (x : json) : exn + list json :=
  match x with
  | JList l => inr l
  | JDict d => inr (map (fun kv => JStr (fst kv)) d)
  | JStr s => inr (map (fun c => JStr (String c "")) (list_ascii_of_string s))
  | _ => type_error ("'" +:+ type_name x +:+ "' object is not iterable")
  end.

(** [x == s] for a string [s] *)
Definition eq_str (x : json) (s : string) : bool :=
  match x with
  | JStr t => String.eqb t s
  | _ => false
  end.

(** [float(n)] for an integer: the nearest double, ties to even, as the
    integer it is equal to; [None] stands for the [OverflowError]. *)
Definition float_of_int (n : Z) : option Z :=
  let a := Z.abs n in
  if a <? 2 ^ 53 then Some n
  else
    let e := Z.log2 a - 52 in
    let q := a / 2 ^ e in
    let r := a mod 2 ^ e in
    let half := 2 ^ (e - 1) in
    let q' := if (half <? r) || ((r =? half) && Z.odd q) then q + 1 else q in
    let v := q' * 2 ^ e in
    if 2 ^ 1024 <=? v then None else Some (Z.sgn n * v).

(** [int(n / d)] for an integer [n] and the float [d = 1.0]: the
    division by one is exact and the quotient is integral. *)
Definition int_of_div_by_one (n : Z) : exn + Z :=
  match float_of_int n with
  | Some v => inr (Z.quot v 1)
  | None => inl (OtherError "OverflowError" "int too large to convert to float")
  end.

End Dyn.
Export Dyn.

(** ** genImages/shared/config.py *)

Module Config.

Record Settings : Type := mk_settings {
  comfyui_url : string;
  comfyui_timeout : Z;
  output_dir : string;
  default_width : Z;
  default_height : Z;
  default_steps : Z;
  default_guidance : Q;
  default_model : string
}.

(** The declared defaults. *)
Definition default_settings : Settings :=
  mk_settings "http://127.0.0.1:8188" 120 "./outputs/images"
              3840 2160 8 4 "flux1-schnell-fp8.safetensors".

(** The declared bounds of the fields the model has. *)
Definition settings_ok (s : Settings) : bool :=
  (10 <=? comfyui_timeout s) && (comfyui_timeout s <=? 900)
  && (256 <=? default_width s) && (default_width s <=? 4096)
  && (256 <=? default_height s) && (default_height s <=? 4096)
  && (1 <=? default_steps s) && (default_steps s <=? 50).

End Config.
Export Config.

(** ** genImages/backends/comfyui.py *)

Module ComfyUI.

(** [POLL_INTERVAL_SEC = 1.0] *)
Definition POLL_INTERVAL_SEC : Z := 1.

(** A reference to the output [slot] of the node [node]. *)
Definition link (node : string) (slot : Z) : json :=
  JList [JStr node; JInt slot].

Definition node (class_type : string) (inputs : list (string * json)) : json :=
  JDict [("class_type", JStr class_type); ("inputs", JDict inputs)].

Definition build_flux_workflow (prompt negative_prompt : string)
    (width height steps : Z) (guidance : Q) (seed : Z)
    (checkpoint : string) (output_format : string) : json :=
  JDict [
    ("1", node "CheckpointLoaderSimple" [("ckpt_name", JStr checkpoint)]);
    ("2", node "CLIPTextEncode"
            [("text", JStr prompt); ("clip", link "1" 1)]);
    ("3", node "CLIPTextEncode"
            [("text", JStr negative_prompt); ("clip", link "1" 1)]);
    ("4", node "EmptyLatentImage"
            [("width", JInt width); ("height", JInt height);
             ("batch_size", JInt 1)]);
    ("5", node "FluxGuidance"
            [("conditioning", link "2" 0); ("guidance", JFloat guidance)]);
    ("6", node "KSampler"
            [("model", link "1" 0); ("positive", link "5" 0);
             ("negative", link "3" 0); ("latent_image", link "4" 0);
             ("seed", JInt seed); ("steps", JInt steps);
             ("cfg", JFloat 1); ("sampler_name", JStr "euler");
             ("scheduler", JStr "simple"); ("denoise", JFloat 1)]);
    ("7", node "VAEDecode"
            [("samples", link "6" 0); ("vae", link "1" 2)]);
    ("8", node "SaveImage"
            [("images", link "7" 0); ("filename_prefix", JStr "flux_mcp")])
  ].

Record ComfyUIClient : Type := mk_client {
  _base_url : string;
  _timeout : Z
}.

(** [ComfyUIClient(base_url, timeout)] *)
Definition new_client (base_url : string) (timeout : Z) : ComfyUIClient :=
  mk_client (rstrip_slash base_url) timeout.

(** [get_comfyui_client()] *)
Definition get_comfyui_client (settings : Settings) : ComfyUIClient :=
  new_client (comfyui_url settings) (comfyui_timeout settings).

(** The response of a call, or the exception of the transport, which no
    handler of the client catches outside [is_available]. *)
Definition received (o : outcome) : io response :=
  match o with
  | Reply r => ret r
  | ConnectError msg => raise (OtherError "ConnectError" msg)
  | TimeoutException cls msg => raise (OtherError cls msg)
  | TransportError cls msg => raise (OtherError cls msg)
  end.

(** [response.json()] *)
Definition json_of (r : response) : io json :=
  match decoded r with
  | Some j => ret j
  | None => raise (OtherError "JSONDecodeError" "Expecting value")
  end.

Definition get (c : ComfyUIClient) (path : string)
    (params : list (string * string)) (timeout : Z) : request :=
  mk_request GET (_base_url c +:+ path) params None timeout.

Definition is_available (E : env) (c : ComfyUIClient) : io bool :=
  o <- send E (get c "/system_stats" [] 5) ;;
  match o with
  | Reply r => ret (status_code r =? 200)
  | ConnectError _ | TimeoutException _ _ => ret false
  | TransportError cls msg => raise (OtherError cls msg)
  end.

Definition unavailable_message (c : ComfyUIClient) : string :=
  "ComfyUI no responde en " +:+ _base_url c +:+ ". "
  +:+ "Aseg" +:+ u_acute +:+ "rate de iniciar ComfyUI con GPU: ejecuta "
  +:+ "scripts/run_comfyui_gpu.ps1 (ver COMFYUI_SETUP.md).".

Definition assert_available (E : env) (c : ComfyUIClient) : io unit :=
  ok <- is_available E c ;;
  if ok then ret tt
  else raise (ComfyUIUnavailableError (unavailable_message c)).

Fixpoint image_filenames (images : list json) (filenames : list json)
    : exn + list json :=
  match images with
  | [] => inr filenames
  | img :: rest =>
      ty <-? get_or "type" JNull img ;;
      if eq_str ty "output"
      then name <-? subscript img "filename" ;;
           image_filenames rest (filenames ++ [name])
      else image_filenames rest filenames
  end.

Fixpoint node_filenames (node_outputs : list json) (filenames : list json)
    : exn + list json :=
  match node_outputs with
  | [] => inr filenames
  | node_output :: rest =>
      images <-? get_or "images" (JList []) node_output ;;
      imgs <-? iterate images ;;
      filenames' <-? image_filenames imgs filenames ;;
      node_filenames rest filenames'
  end.

Definition _extract_output_filenames (job_data : json) : exn + list json :=
  outputs <-? get_or "outputs" (JDict []) job_data ;;
  node_outputs <-? values outputs ;;
  node_filenames node_outputs [].

Definition history_error_message (status : Z) : string :=
  "Error consultando historial de ComfyUI: HTTP " +:+ pretty status.

Definition job_error_message (E : env) (error_detail : json) : string :=
  "ComfyUI report" +:+ o_acute +:+ " error: " +:+ str_ E error_detail.

Definition timeout_message (E : env) (c : ComfyUIClient) (prompt_id : json)
    : string :=
  "Timeout: el job " +:+ str_ E prompt_id +:+ " no complet" +:+ o_acute
  +:+ " en "
  +:+ pretty (_timeout c) +:+ "s. "
  +:+ "Considera aumentar IMAGE_MCP_COMFYUI_TIMEOUT en tu .env".

(** The body of [for attempt in range(max_attempts)], [n] attempts being
    left: [Some filenames] is the [return] inside the loop, [None] is the
    loop running out.  [prompt_id] is what the backend gave under that key,
    a string or not. *)
Fixpoint poll_attempts (E : env) (c : ComfyUIClient) (prompt_id : json)
    (n : nat) : io (option (list json)) :=
  match n with
  | O => ret None
  | S n' =>
      sleep POLL_INTERVAL_SEC ;;;
      o <- send E (get c ("/history/" +:+ str_ E prompt_id) []
                       (_timeout c)) ;;
      history_resp <- received o ;;
      if negb (is_success history_resp)
      then raise (ComfyUIGenerationError
                    (history_error_message (status_code history_resp)))
      else
        history <- json_of history_resp ;;
        present <- lift (contains_value prompt_id history) ;;
        if negb present then poll_attempts E c prompt_id n'
        else
          job_data <- lift (subscript_value E history prompt_id) ;;
          status <- lift (get_or "status" (JDict []) job_data) ;;
          has_error <- lift (contains "error" status) ;;
          if has_error
          then
            status' <- lift (subscript job_data "status") ;;
            error_detail <-
              lift (get_or "error" (JStr "Error desconocido") status') ;;
            raise (ComfyUIGenerationError (job_error_message E error_detail))
          else
            filenames <- lift (_extract_output_filenames job_data) ;;
            match filenames with
            | [] => poll_attempts E c prompt_id n'
            | _ => ret (Some filenames)
            end
  end.

(** [max(1, int(self._timeout / POLL_INTERVAL_SEC))] *)
Definition max_attempts (c : ComfyUIClient) : exn + Z :=
  n <-? int_of_div_by_one (_timeout c) ;;
  inr (Z.max 1 n).

Definition _poll_until_done (E : env) (c : ComfyUIClient)
    (prompt_id : json) : io (list json) :=
  attempts <- lift (max_attempts c) ;;
  found <- poll_attempts E c prompt_id (Z.to_nat attempts) ;;
  match found with
  | Some filenames => ret filenames
  | None => raise (ComfyUIGenerationError (timeout_message E c prompt_id))
  end.

Definition enqueue_error_message (r : response) : string :=
  "Error al encolar workflow en ComfyUI (HTTP " +:+ pretty (status_code r)
  +:+ "): " +:+ prefix 200 (content r).

Definition generate (E : env) (c : ComfyUIClient) (workflow : json)
    (client_id : option string) : io (list json) :=
  assert_available E c ;;;
  cid <- match client_id with
         | Some s => if String.eqb s "" then draw_uuid E else ret s
         | None => draw_uuid E
         end ;;
  let payload := JDict [("prompt", workflow); ("client_id", JStr cid)] in
  o <- send E (mk_request POST (_base_url c +:+ "/prompt") []
                          (Some payload) (_timeout c)) ;;
  enqueue_resp <- received o ;;
  if negb (is_success enqueue_resp)
  then raise (ComfyUIGenerationError (enqueue_error_message enqueue_resp))
  else
    body <- json_of enqueue_resp ;;
    prompt_id <- lift (subscript body "prompt_id") ;;
    _poll_until_done E c prompt_id.

Definition download_error_message (filename : string) (status : Z) : string :=
  "No se pudo descargar la imagen '" +:+ filename +:+ "': HTTP "
  +:+ pretty status.

(** [output_format] is accepted and not used.  The path class in the text
    of the [TypeError] is the one of a POSIX system. *)
Definition download_image (E : env) (c : ComfyUIClient) (filename : json)
    (dest_dir : string) (output_format : string) : io string :=
  mkdir dest_dir ;;;
  name <- lift (match filename with
                | JStr s => inr s
                | _ => type_error
                         ("unsupported operand type(s) for /: 'PosixPath' and '"
                          +:+ type_name filename +:+ "'")
                end) ;;
  let dest_path := path_join E dest_dir name in
  o <- send E (get c "/view"
                   [("filename", name); ("subfolder", ""); ("type", "output")]
                   (_timeout c)) ;;
  response <- received o ;;
  if negb (is_success response)
  then raise (ComfyUIGenerationError
                (download_error_message name (status_code response)))
  else
    write_bytes E dest_path (content response) ;;;
    ret dest_path.

End ComfyUI.

(** ** genImages/tools/generate.py *)

Module Generate.
Import ComfyUI.

(** The inner loop [for filename in filenames] of [run_generation]. *)
Fixpoint download_all (E : env) (settings : Settings) (c : ComfyUIClient)
    (params : GenerateImageInput) (width height batch_seed start_ms : Z)
    (filenames : list json) (generated_images : list GeneratedImage.t)
    : io (list GeneratedImage.t) :=
  match filenames with
  | [] => ret generated_images
  | filename :: rest =>
      local_path <- download_image E c filename (output_dir settings) "png" ;;
      size <- st_size local_path ;;
      now <- now_ms E ;;
      let image :=
        GeneratedImage.make
          (path_resolve E local_path) (path_name E local_path)
          width height (ImageFormat_value (output_format params)) batch_seed
          (prompt params) (steps params) (guidance_scale params)
          size (now - start_ms) in
      download_all E settings c params width height batch_seed start_ms
                   rest (generated_images ++ [image])
  end.

(** The loop [for i in range(batch_size)], [n] items being left and [i]
    being the next index. *)
Fixpoint batch_items (E : env) (settings : Settings) (c : ComfyUIClient)
    (params : GenerateImageInput) (width height seed start_ms : Z)
    (n : nat) (i : Z) (generated_images : list GeneratedImage.t)
    : io (list GeneratedImage.t) :=
  match n with
  | O => ret generated_images
  | S n' =>
      let batch_seed := seed + i in
      let workflow :=
        build_flux_workflow (prompt params) (negative_prompt params)
          width height (steps params) (guidance_scale params) batch_seed
          (default_model settings)
          (ImageFormat_value (output_format params)) in
      filenames <- generate E c workflow None ;;
      generated_images' <-
        download_all E settings c params width height batch_seed start_ms
                     filenames generated_images ;;
      batch_items E settings c params width height seed start_ms
                  n' (i + 1) generated_images'
  end.

(** [params.seed if params.seed is not None else random.randint(...)] *)
Definition resolve_seed (E : env) (params : GenerateImageInput) : io Z :=
  match Models.seed params with
  | Some s => ret s
  | None => draw_randint E
  end.

(** The [return] statements of [run_generation]: the one that ends the
    [try] block and the ones of its two handlers. *)
Definition result_of (r : exn + list GeneratedImage.t) : GenerationResult :=
  match r with
  | inr generated_images =>
      mk_result true generated_images
                (Z.of_nat (length generated_images)) None
  | inl (ComfyUIUnavailableError msg) | inl (ComfyUIGenerationError msg) =>
      mk_result false [] 0 (Some msg)
  | inl (OtherError type_name msg) =>
      mk_result false [] 0 (Some (type_name +:+ ": " +:+ msg))
  end.

Definition run_generation (E : env) (settings : Settings)
    (params : GenerateImageInput) : io GenerationResult :=
  start_ms <- now_ms E ;;
  let '(width, height) :=
    resolve_dimensions (aspect_ratio params) (Models.width params)
      (Models.height params) (default_width settings)
      (default_height settings) in
  seed <- resolve_seed E params ;;
  r <- try (let client := get_comfyui_client settings in
            batch_items E settings client params width height seed start_ms
                        (Z.to_nat (batch_size params)) 0 []) ;;
  ret (result_of r).

End Generate.

(** ** genImages/rest_api.py *)

Module ImagesRest.
Import Generate.

(** A [JSONResponse].  An exception that leaves a handler is answered by
    the framework with status 500; the model keeps it as the raise of the
    handler. *)
Record JSONResponse : Type := mk_json_response {
  resp_body : json;
  resp_status : Z
}.

Definition opt_str (o : option string) : json :=
  match o with
  | Some s => JStr s
  | None => JNull
  end.

Definition dump_image (img : GeneratedImage.t) : json :=
  JDict [
    ("image_path", JStr (GeneratedImage.image_path img));
    ("filename", JStr (GeneratedImage.filename img));
    ("width", JInt (GeneratedImage.width img));
    ("height", JInt (GeneratedImage.height img));
    ("format", JStr (GeneratedImage.format img));
    ("seed", JInt (GeneratedImage.seed img));
    ("prompt", JStr (GeneratedImage.prompt img));
    ("steps", JInt (GeneratedImage.steps img));
    ("guidance_scale", JFloat (GeneratedImage.guidance_scale img));
    ("file_size_bytes", JInt (GeneratedImage.file_size_bytes img));
    ("generation_time_ms", JInt (GeneratedImage.generation_time_ms img))
  ].

(** [result.model_dump()] *)
Definition model_dump (r : GenerationResult) : json :=
  JDict [
    ("success", JBool (success r));
    ("images", JList (map dump_image (images r)));
    ("total_generated", JInt (total_generated r));
    ("error", opt_str (error r))
  ].

(** [v.strip()] for the value of an [or] chain that ends in a string. *)
Definition stripped (v : json) : exn + string :=
  match v with
  | JStr s => inr (strip s)
  | _ => attribute_error v "strip"
  end.

Definition invalid_json_response : JSONResponse :=
  mk_json_response
    (JDict [("success", JBool false); ("error", JStr "Body JSON invalido")])
    400.

Definition short_prompt_message : string :=
  "Body debe incluir la descripcion de la imagen (min 3 caracteres). Ej: {"
  +:+ dquote +:+ "description" +:+ dquote +:+ ": " +:+ dquote
  +:+ "una manzana roja sobre mesa blanca" +:+ dquote +:+ "}".

Definition short_prompt_response : JSONResponse :=
  mk_json_response
    (JDict [("success", JBool false); ("error", JStr short_prompt_message)])
    400.

(** The arguments of [GenerateImageInput(...)] in [generate], in the
    order Python evaluates them. *)
Definition request_params (E : env) (body : json) (prompt : string)
    (aspect_ratio : AspectRatio) : exn + GenerateImageInput :=
  width <-? get_or "width" JNull body ;;
  height <-? get_or "height" JNull body ;;
  steps_field <-? get_or "steps" JNull body ;;
  steps <-? match steps_field with
            | JNull => inr 8
            | JInt n => inr n
            | v => py_int E v
            end ;;
  guidance_field <-? get_or "guidance_scale" JNull body ;;
  guidance_scale <-? match guidance_field with
                     | JNull => inr (4 : Q)
                     | JFloat q => inr q
                     | v => py_float E v
                     end ;;
  new_GenerateImageInput (lax_int E) (prefix 2000 prompt) JSON aspect_ratio
                         width height steps guidance_scale.

(** The part of [generate] before the call of [run_generation], which
    touches nothing outside the request: an early response, or the
    validated parameters.  [request_json] is [await request.json()],
    [None] when it raises. *)
Definition parse_request (E : env) (request_json : option json)
    : exn + (JSONResponse + GenerateImageInput) :=
  match request_json with
  | None => inr (inl invalid_json_response)
  | Some parsed =>
      let body := or_ parsed (JDict []) in
      description <-? get_or "description" JNull body ;;
      text <-? (if truthy description then inr description
                else p <-? get_or "prompt" JNull body ;;
                     inr (or_ p (JStr ""))) ;;
      prompt <-? stripped text ;;
      if len prompt <? 3 then inr (inl short_prompt_response)
      else
        ar <-? get_or "aspect_ratio" JNull body ;;
        aspect_ratio_str <-? stripped (or_ ar (JStr "16:9")) ;;
        let aspect_ratio :=
          default LANDSCAPE (AspectRatio_of_value aspect_ratio_str) in
        params <-? request_params E body prompt aspect_ratio ;;
        inr (inr params)
  end.

(** [generate(request)] *)
Definition generate (E : env) (settings : Settings)
    (request_json : option json) : io JSONResponse :=
  parsed <- lift (parse_request E request_json) ;;
  match parsed with
  | inl early => ret early
  | inr params =>
      result <- run_generation E settings params ;;
      ret (mk_json_response (model_dump result) 200)
  end.

End ImagesRest.

(** ** genAudio/shared/config.py *)

Module AudioConfig.

Record Settings : Type := mk_settings {
  output_dir : string;
  device : string;
  default_audio_prompt_path : option string
}.

End AudioConfig.

(** ** genAudio/backends/chatterbox.py

    The speech model, its loader and the signal processing are libraries:
    [aenv] scripts them.  A loaded model is told from another by the
    number of the load that made it. *)

Module Chatterbox.

Record TTSModel : Type := mk_model {
  load_id : nat;
  sr : Z
}.

(** A waveform: its samples. *)
Definition tensor : Type := list Q.

Record voice : Type := mk_voice {
  exaggeration : Q;
  cfg_weight : Q;
  temperature : Q;
  repetition_penalty : Q;
  min_p : Q;
  top_p : Q
}.

Record aenv : Type := mk_aenv {
  (* [from chatterbox.mtl_tts import ...]: the languages, or [None] for
     the [ImportError] *)
  chatterbox_import : option (list (string * string));
  (* [torch.cuda.is_available()] and the same for mps, or [None] when
     probing raises *)
  torch_probe : option (bool * bool);
  (* [ChatterboxMultilingualTTS.from_pretrained(device=)], k-th call *)
  from_pretrained : nat -> string -> exn + TTSModel;
  (* [model.generate(text, language_id=, audio_prompt_path=, ...)] *)
  model_generate :
    TTSModel -> string -> string -> option string -> voice -> exn + tensor;
  (* [librosa.effects.time_stretch(wav, rate=)] *)
  time_stretch : tensor -> Q -> exn + tensor;
  (* the loudness block, which catches what it raises *)
  normalize_loudness : tensor -> Z -> tensor;
  (* the bytes [torchaudio.save] writes *)
  encode_wav : tensor -> Z -> exn + string;
  audio_clock_ms : nat -> Z;
  audio_clock_s : nat -> Z;
  audio_py_float : json -> exn + Q;
  b64encode : string -> string;
  is_file : string -> bool;
  is_absolute : string -> bool;
  module_dir : string;                       (* [Path(__file__).resolve().parent] *)
  audio_path_join : string -> string -> string;
  audio_path_name : string -> string;
  audio_path_parent : string -> string;
  audio_path_resolve : string -> string;
  (* [import name] inside a function, for a module that nothing imported
     before: the exception it raises, or [None] when the module loads *)
  import_error : string -> option exn
}.

Record aworld : Type := mk_aworld {
  _model : option TTSModel;                              (* the global *)
  SUPPORTED_LANGUAGES : option (list (string * string)); (* the global *)
  torch_load_wrappers : nat;   (* cpu wrappers around [torch.load] *)
  load_calls : nat;            (* calls of [from_pretrained] *)
  audio_clock_reads : nat;
  audio_files : gmap string string
}.

Definition aworld0 : aworld := mk_aworld None None 0 0 0 ∅.

Definition aio : Type -> Type := st aworld.

Definition set_model (m : option TTSModel) (w : aworld) : aworld :=
  mk_aworld m (SUPPORTED_LANGUAGES w) (torch_load_wrappers w) (load_calls w)
            (audio_clock_reads w) (audio_files w).

Definition set_languages (l : option (list (string * string))) (w : aworld)
    : aworld :=
  mk_aworld (_model w) l (torch_load_wrappers w) (load_calls w)
            (audio_clock_reads w) (audio_files w).

Definition set_torch_load (n : nat) (w : aworld) : aworld :=
  mk_aworld (_model w) (SUPPORTED_LANGUAGES w) n (load_calls w)
            (audio_clock_reads w) (audio_files w).

Definition count_load (w : aworld) : aworld :=
  mk_aworld (_model w) (SUPPORTED_LANGUAGES w) (torch_load_wrappers w)
            (S (load_calls w)) (audio_clock_reads w) (audio_files w).

Definition _get_device (A : aenv) : string :=
  match torch_probe A with
  | Some (cuda, mps) => if cuda then "cuda" else if mps then "mps" else "cpu"
  | None => "cpu"
  end.

Definition known_device (d : string) : bool :=
  String.eqb d "cuda" || String.eqb d "cpu" || String.eqb d "mps".

(** The device the model is loaded on. *)
Definition pick_device (A : aenv) (settings : AudioConfig.Settings) : string :=
  let device := _get_device A in
  let wanted := AudioConfig.device settings in
  if known_device wanted && negb (String.eqb wanted device)
  then if String.eqb wanted "cuda" && String.eqb device "cpu"
       then device
       else wanted
  else device.

Definition import_error_message : string :=
  "Instala chatterbox-tts: pip install chatterbox-tts. "
  +:+ "Revisa dependencias (torch, torchaudio).".

(** [get_model()]; the value returned is the one the global holds. *)
Definition get_model (A : aenv) (settings : AudioConfig.Settings)
    : aio (option TTSModel) :=
  fun w =>
    match _model w with
    | Some m => (inr (Some m), w)
    | None =>
        match chatterbox_import A with
        | None => (inl (OtherError "RuntimeError" import_error_message), w)
        | Some langs =>
            let w1 := set_languages (Some langs) w in
            let device := pick_device A settings in
            let _orig_torch_load := torch_load_wrappers w1 in
            let w2 := if String.eqb device "cpu"
                      then set_torch_load (S _orig_torch_load) w1
                      else w1 in
            let loaded := from_pretrained A (load_calls w2) device in
            let w3 := count_load w2 in
            let w4 := match loaded with
                      | inr m => set_model (Some m) w3
                      | inl _ => w3
                      end in
            let w5 := if String.eqb device "cpu"
                      then set_torch_load _orig_torch_load w4
                      else w4 in
            match loaded with
            | inl e => (inl e, w5)
            | inr _ => (inr (_model w5), w5)
            end
        end
    end.

(** *** [get_model] under threads

    The endpoints call [get_model] from the threads of the default
    executor.  Between two accesses to a global another thread may run, so
    one call is a sequence of atomic steps, one per access: [pc] is where
    a thread stands inside [get_model]. *)

Inductive pc : Type :=
| AtCheck                               (* [if _model is not None] *)
| AtImport                              (* the import, [SUPPORTED_LANGUAGES =] *)
| AtPatch                               (* [_orig_torch_load = torch.load] *)
| AtLoad (device : string) (orig : nat) (* [from_pretrained(device=)] *)
| AtStore (device : string) (orig : nat) (loaded : exn + TTSModel)
                                        (* [_model =] *)
| AtRestore (device : string) (orig : nat) (failure : option exn)
                                        (* [finally] *)
| AtReturn                              (* [return _model] *)
| Finished (r : exn + option TTSModel).

Definition step (A : aenv) (settings : AudioConfig.Settings) (p : pc)
    (w : aworld) : pc * aworld :=
  match p with
  | AtCheck =>
      match _model w with
      | Some m => (Finished (inr (Some m)), w)
      | None => (AtImport, w)
      end
  | AtImport =>
      match chatterbox_import A with
      | None => (Finished (inl (OtherError "RuntimeError" import_error_message)), w)
      | Some langs => (AtPatch, set_languages (Some langs) w)
      end
  | AtPatch =>
      let device := pick_device A settings in
      let orig := torch_load_wrappers w in
      (AtLoad device orig,
       if String.eqb device "cpu" then set_torch_load (S orig) w else w)
  | AtLoad device orig =>
      (AtStore device orig (from_pretrained A (load_calls w) device),
       count_load w)
  | AtStore device orig loaded =>
      match loaded with
      | inr m => (AtRestore device orig None, set_model (Some m) w)
      | inl e => (AtRestore device orig (Some e), w)
      end
  | AtRestore device orig failure =>
      let w' := if String.eqb device "cpu" then set_torch_load orig w else w in
      match failure with
      | Some e => (Finished (inl e), w')
      | None => (AtReturn, w')
      end
  | AtReturn => (Finished (inr (_model w)), w)
  | Finished r => (Finished r, w)
  end.

(** One thread running alone for [n] steps. *)
Fixpoint run_alone (A : aenv) (settings : AudioConfig.Settings) (n : nat)
    (p : pc) (w : aworld) : pc * aworld :=
  match n with
  | O => (p, w)
  | S n' => let '(p', w') := step A settings p w in
            run_alone A settings n' p' w'
  end.

(** Two threads under a schedule: [true] lets the first one take a step,
    [false] the second. *)
Fixpoint run_threads (A : aenv) (settings : AudioConfig.Settings)
    (schedule : list bool) (t1 t2 : pc) (w : aworld) : pc * pc * aworld :=
  match schedule with
  | [] => (t1, t2, w)
  | true :: rest =>
      let '(t1', w') := step A settings t1 w in
      run_threads A settings rest t1' t2 w'
  | false :: rest =>
      let '(t2', w') := step A settings t2 w in
      run_threads A settings rest t1 t2' w'
  end.

(** [s.lower()] on the code points below 256. *)
Definition lower_char (c : ascii) : ascii :=
  let n := nat_of_ascii c in
  if ((65 <=? n)%nat && (n <=? 90)%nat)
     || ((192 <=? n)%nat && (n <=? 222)%nat && negb (n =? 215)%nat)
  then ascii_of_nat (n + 32)
  else c.

Definition lower (s : string) : string :=
  string_of_list_ascii (map lower_char (list_ascii_of_string s)).

(** [(language_id or "en").strip().lower() or "en"] *)
Definition language_of (language_id : json) : exn + string :=
  match or_ language_id (JStr "en") with
  | JStr s => let l := lower (strip s) in
              inr (if String.eqb l "" then "en" else l)
  | v => attribute_error v "strip"
  end.

Definition read_clock_s (A : aenv) : aio Z :=
  fun w =>
    (inr (audio_clock_s A (audio_clock_reads w)),
     mk_aworld (_model w) (SUPPORTED_LANGUAGES w) (torch_load_wrappers w)
               (load_calls w) (S (audio_clock_reads w)) (audio_files w)).

Definition read_clock_ms (A : aenv) : aio Z :=
  fun w =>
    (inr (audio_clock_ms A (audio_clock_reads w)),
     mk_aworld (_model w) (SUPPORTED_LANGUAGES w) (torch_load_wrappers w)
               (load_calls w) (S (audio_clock_reads w)) (audio_files w)).

Definition write_file (path data : string) : aio unit :=
  fun w =>
    (inr tt,
     mk_aworld (_model w) (SUPPORTED_LANGUAGES w) (torch_load_wrappers w)
               (load_calls w) (audio_clock_reads w)
               (<[path := data]> (audio_files w))).

Definition read_file (path : string) : aio string :=
  fun w =>
    match audio_files w !! path with
    | Some data => (inr data, w)
    | None => (inl (OtherError "RuntimeError"
                      ("No se pudo escribir el archivo de audio: " +:+ path)), w)
    end.

(** [import name] *)
Definition import_module (A : aenv) (name : string) : aio unit :=
  match import_error A name with
  | Some e => raise e
  | None => ret tt
  end.

Definition empty_text_message : string :=
  "El texto no puede estar vac" +:+ String (ascii_of_nat 237) "" +:+ "o.".

(** [abs(speed - 1.0) > 1e-6] *)
Definition speed_changes (speed : Q) : bool :=
  negb (Qle_bool (Qabs (speed - 1)) (1 # 1000000)).

(** [generate_audio(text, output_path=, ...)].  The function imports
    [torchaudio] before anything else, [librosa] when the speed changes
    and [numpy] before the loudness block; [torch] is loaded by the time
    [get_model] has returned, so importing it again cannot fail.
    Directories are not part of [aworld]: the [mkdir] of the parent leaves
    no mark, and the file is there once written, so the check [is_file]
    fails only in [read_file] on a path that was never written. *)
Definition generate_audio (A : aenv) (settings : AudioConfig.Settings)
    (text : string) (output_path : option string)
    (audio_prompt_path : option string) (language_id : json)
    (v : voice) (speed : Q) : aio (string * Z * string) :=
  import_module A "torchaudio" ;;;
  loaded <- get_model A settings ;;
  if String.eqb text "" || String.eqb (strip text) ""
  then raise (OtherError "ValueError" empty_text_message)
  else
    lang <- lift (language_of language_id) ;;
    model <- match loaded with
             | Some m => ret m
             | None => raise (OtherError "AttributeError"
                                "'NoneType' object has no attribute 'generate'")
             end ;;
    let reference := match audio_prompt_path with
                     | Some p => if String.eqb p "" then None else Some p
                     | None => None
                     end in
    wav <- lift (model_generate A model (strip text) lang reference v) ;;
    wav <- (if speed_changes speed
            then import_module A "librosa" ;;;
                 lift (time_stretch A wav speed)
            else ret wav) ;;
    import_module A "numpy" ;;;
    let wav := normalize_loudness A wav (sr model) in
    output_path <- match output_path with
                   | Some p => ret p
                   | None =>
                       t <- read_clock_s A ;;
                       ret (audio_path_join A (AudioConfig.output_dir settings)
                              ("chatterbox_" +:+ pretty t +:+ ".wav"))
                   end ;;
    data <- lift (encode_wav A wav (sr model)) ;;
    write_file output_path data ;;;
    wav_bytes <- read_file output_path ;;
    ret (wav_bytes, sr model, audio_path_resolve A output_path).

End Chatterbox.

(** ** genAudio/rest_api.py *)

Module AudioRest.
Import Chatterbox.

Record JSONResponse : Type := mk_json_response {
  resp_body : json;
  resp_status : Z
}.

Definition Qmin_ (a b : Q) : Q := if Qle_bool a b then a else b.
Definition Qmax_ (a b : Q) : Q := if Qle_bool a b then b else a.

Definition _float_param (A : aenv) (body : json) (key : string)
    (dflt min_val max_val : Q) : exn + Q :=
  v <-? get_or key JNull body ;;
  match v with
  | JNull => inr dflt
  | JFloat f => inr (Qmax_ min_val (Qmin_ max_val f))
  | _ =>
      match audio_py_float A v with
      | inr f => inr (Qmax_ min_val (Qmin_ max_val f))
      | inl (OtherError cls msg) =>
          if String.eqb cls "TypeError" || String.eqb cls "ValueError"
          then inr dflt
          else inl (OtherError cls msg)
      | inl e => inl e
      end
  end.

Definition stripped (v : json) : exn + string :=
  match v with
  | JStr s => inr (strip s)
  | _ => attribute_error v "strip"
  end.

(** A reference clip, relative to the module when it is not absolute;
    kept only when it is a file. *)
Definition reference_clip (A : aenv) (ref : string) : option string :=
  let ref_path := if is_absolute A ref then ref
                  else audio_path_resolve A
                         (audio_path_join A (module_dir A) ref) in
  if is_file A ref_path then Some ref_path else None.

Definition audio_prompt_of (A : aenv) (settings : AudioConfig.Settings)
    (body : json) : exn + option string :=
  a <-? get_or "audio_prompt_path" JNull body ;;
  b <-? get_or "audio_prompt" JNull body ;;
  let raw_ref := or_ a b in
  if truthy raw_ref
  then match raw_ref with
       | JStr ref => inr (reference_clip A ref)
       | _ => type_error
                ("expected str, bytes or os.PathLike object, not "
                 +:+ type_name raw_ref)
       end
  else match AudioConfig.default_audio_prompt_path settings with
       | Some ref => inr (reference_clip A ref)
       | None => inr None
       end.

Definition invalid_json_response : JSONResponse :=
  mk_json_response
    (JDict [("success", JBool false); ("error", JStr "Body JSON invalido")])
    400.

Definition empty_text_response : JSONResponse :=
  mk_json_response
    (JDict [("success", JBool false);
            ("error", JStr "Body debe incluir 'text' o 'prompt' (min 1 caracter).")])
    400.

(** The answer to a failed generation. *)
Definition failure_response (message : string) : JSONResponse :=
  mk_json_response
    (JDict [("success", JBool false); ("filename", JNull);
            ("audio_path", JNull); ("error", JStr message)])
    200.

Definition success_response (A : aenv) (text : string) (language_id : json)
    (wav_bytes : string) (rate : Z) (path : string) : JSONResponse :=
  mk_json_response
    (JDict [("success", JBool true);
            ("filename", JStr (audio_path_name A path));
            ("audio_path", JStr (audio_path_resolve A path));
            ("sample_rate", JInt rate);
            ("text_length", JInt (len text));
            ("language_id", language_id);
            ("base64_audio", JStr (b64encode A wav_bytes));
            ("error", JNull)])
    200.

(** [str(e)] *)
Definition message_of (e : exn) : string :=
  match e with
  | ComfyUIUnavailableError msg
  | ComfyUIGenerationError msg
  | OtherError _ msg => msg
  end.

(** What [generate] hands to [generate_audio]. *)
Record job : Type := mk_job {
  job_text : string;
  job_output_path : string;
  job_audio_prompt_path : option string;
  job_language_id : json;
  job_voice : voice;
  job_speed : Q
}.

(** The part of [generate] between the length checks and the call: the
    output path, the reference clip and the clamped parameters. *)
Definition prepare (A : aenv) (settings : AudioConfig.Settings)
    (body : json) (text : string) : aio job :=
  start_ms <- read_clock_ms A ;;
  let out_path :=
    audio_path_join A (AudioConfig.output_dir settings)
      ("chatterbox_" +:+ pretty start_ms +:+ ".wav") in
  audio_prompt_path <- lift (audio_prompt_of A settings body) ;;
  l1 <- lift (get_or "language" JNull body) ;;
  l2 <- lift (get_or "language_id" JNull body) ;;
  let language_id := or_ (or_ l1 l2) (JStr "en") in
  exaggeration <- lift (_float_param A body "exaggeration" (4 # 10) 0 2) ;;
  cfg_weight <- lift (_float_param A body "cfg_weight" (5 # 10) 0 1) ;;
  temperature <- lift (_float_param A body "temperature" (6 # 10) (5 # 100) 2) ;;
  repetition_penalty <-
    lift (_float_param A body "repetition_penalty" 2 1 3) ;;
  min_p <- lift (_float_param A body "min_p" (5 # 100) 0 1) ;;
  top_p <- lift (_float_param A body "top_p" 1 0 1) ;;
  speed <- lift (_float_param A body "speed" 1 (5 # 10) (15 # 10)) ;;
  ret (mk_job text out_path audio_prompt_path language_id
              (mk_voice exaggeration cfg_weight temperature
                        repetition_penalty min_p top_p)
              speed).

(** The text of the request: an early response, or the text, cut to
    5000 characters. *)
Definition parse_text (request_json : option json)
    : exn + (JSONResponse + (json * string)) :=
  match request_json with
  | None => inr (inl invalid_json_response)
  | Some parsed =>
      let body := or_ parsed (JDict []) in
      t <-? get_or "text" JNull body ;;
      v <-? (if truthy t then inr t
             else p <-? get_or "prompt" JNull body ;;
                  inr (or_ p (JStr ""))) ;;
      text <-? stripped v ;;
      if len text <? 1 then inr (inl empty_text_response)
      else inr (inr (body,
                     if 5000 <? len text then prefix 5000 text else text))
  end.

(** [generate(request)]; [request_json] is [await request.json()], [None]
    when it raises.  A raise of the result is an exception that leaves the
    handler, which the framework answers with status 500. *)
Definition generate (A : aenv) (settings : AudioConfig.Settings)
    (request_json : option json) : aio JSONResponse :=
  parsed <- lift (parse_text request_json) ;;
  match parsed with
  | inl early => ret early
  | inr (body, text) =>
      j <- prepare A settings body text ;;
      r <- try (generate_audio A settings (job_text j)
                  (Some (job_output_path j)) (job_audio_prompt_path j)
                  (job_language_id j) (job_voice j) (job_speed j)) ;;
      match r with
      | inl e => ret (failure_response (message_of e))
      | inr (wav_bytes, rate, path) =>
          ret (success_response A text (job_language_id j)
                                wav_bytes rate path)
      end
  end.

End AudioRest.

(** ** The job outcome of the specification

    The specification classifies what one poll of the history endpoint
    shows: the handle is absent, the job failed, the job succeeded with
    its output artifacts, or the job is there with nothing to report yet.
    [observe] is that classification, written from the specification; the
    properties below compare the polling loop of the client with it. *)

Module Outcome.
Import ComfyUI.

(** An artifact reference: the filename and the type tag. *)
Record artifact : Type := mk_artifact {
  art_filename : string;
  art_type : string
}.

Definition artifact_of (img : json) : option artifact :=
  match img with
  | JDict d =>
      match assoc "filename" d, assoc "type" d with
      | Some (JStr f), Some (JStr t) => Some (mk_artifact f t)
      | _, _ => None
      end
  | _ => None
  end.

Fixpoint artifacts_of (imgs : list json) : option (list artifact) :=
  match imgs with
  | [] => Some []
  | img :: rest =>
      match artifact_of img, artifacts_of rest with
      | Some a, Some l => Some (a :: l)
      | _, _ => None
      end
  end.

Definition node_artifacts (node_output : json) : option (list artifact) :=
  match node_output with
  | JDict d =>
      match assoc "images" d with
      | None => Some []
      | Some (JList imgs) => artifacts_of imgs
      | Some _ => None
      end
  | _ => None
  end.

Fixpoint nodes_artifacts (node_outputs : list json) : option (list artifact) :=
  match node_outputs with
  | [] => Some []
  | n :: rest =>
      match node_artifacts n, nodes_artifacts rest with
      | Some l, Some l' => Some (l ++ l')
      | _, _ => None
      end
  end.

(** The artifacts of the entry of a job, node by node, in order. *)
Definition job_artifacts (fields : list (string * json))
    : option (list artifact) :=
  match assoc "outputs" fields with
  | None => Some []
  | Some (JDict nodes) => nodes_artifacts (map snd nodes)
  | Some _ => None
  end.

Definition tagged_output (a : artifact) : bool :=
  String.eqb (art_type a) "output".

(** Only the references tagged "output" are retained. *)
Definition retained (arts : list artifact) : list artifact :=
  List.filter tagged_output arts.

Definition filenames_of (arts : list artifact) : list json :=
  map (fun a => JStr (art_filename a)) arts.

(** The error field of the entry of a job, which sits in its status. *)
Definition error_field (fields : list (string * json))
    : option (option json) :=
  match assoc "status" fields with
  | None => Some None
  | Some (JDict st) => Some (assoc "error" st)
  | Some _ => None
  end.

Inductive observation : Type :=
| Absent                                 (* handle not in the response *)
| Errored (detail : json)                (* handle present, error field *)
| Completed (refs : list artifact)       (* present, output artifacts *)
| Waiting.                               (* present, nothing yet *)

(** The history of a reply: the decoded object of a 2xx response. *)
Definition history_of (o : outcome) : option (list (string * json)) :=
  match o with
  | Reply r =>
      if is_success r
      then match decoded r with
           | Some (JDict h) => Some h
           | _ => None
           end
      else None
  | _ => None
  end.

(** What a poll for [prompt_id] shows; [None] for a reply that is not a
    well-formed history. *)
Definition observe (prompt_id : string) (o : outcome) : option observation :=
  match history_of o with
  | None => None
  | Some h =>
      match assoc prompt_id h with
      | None => Some Absent
      | Some (JDict fields) =>
          match error_field fields with
          | None => None
          | Some (Some detail) => Some (Errored detail)
          | Some None =>
              match job_artifacts fields with
              | None => None
              | Some arts =>
                  match retained arts with
                  | [] => Some Waiting
                  | refs => Some (Completed refs)
                  end
              end
          end
      | Some _ => None
      end
  end.

(** Not a terminal state. *)
Definition pending (obs : option observation) : Prop :=
  obs = Some Absent \/ obs = Some Waiting.

(** The request of one poll and the world after it. *)
Definition history_request (c : ComfyUIClient) (prompt_id : string) : request :=
  get c ("/history/" +:+ prompt_id) [] (_timeout c).

Definition poll_events (c : ComfyUIClient) (prompt_id : string) : list event :=
  [EvSleep POLL_INTERVAL_SEC; EvHttp (history_request c prompt_id)].

Fixpoint polls (c : ComfyUIClient) (prompt_id : string) (n : nat)
    : list event :=
  match n with
  | O => []
  | S n' => poll_events c prompt_id ++ polls c prompt_id n'
  end.

Definition after_polls (c : ComfyUIClient) (prompt_id : string) (n : nat)
    (w : world) : world :=
  mk_world (calls w + n)%nat (clock_reads w) (uuid_draws w) (rand_draws w)
           (files w) (trace w ++ polls c prompt_id n).

(** The outcome of the poll number [k], counted from zero, of a wait that
    starts in the world [w]. *)
Definition poll_reply (E : env) (c : ComfyUIClient) (prompt_id : string)
    (w : world) (k : nat) : outcome :=
  backend E (calls w + k)%nat (history_request c prompt_id).

End Outcome.

(** ** What a run leaves behind

    Notions to speak about the effects of a computation: the job graphs it
    submitted, the files it wrote, and relations between the world before
    and the world after that every step of a computation maintains. *)

Module Effects.
Import ComfyUI Generate.

(** The job graph of an enqueue call. *)
Definition posted_workflow (ev : event) : option json :=
  match ev with
  | EvHttp rq =>
      match rq_method rq, rq_json rq with
      | POST, Some (JDict payload) => assoc "prompt" payload
      | _, _ => None
      end
  | _ => None
  end.

(** The job graphs a trace submitted, oldest first. *)
Definition submitted (t : list event) : list json := omap posted_workflow t.

(** [m] never leaves the relation [R] between the world it starts in and
    the world it ends in, whether it returns or raises. *)
Definition preserves {A} (R : world -> world -> Prop) (m : io A) : Prop :=
  forall w r w', m w = (r, w') -> R w w'.

(** Nothing new was submitted. *)
Definition same_submitted (w w' : world) : Prop :=
  submitted (trace w') = submitted (trace w).

(** Every file that was there is still there. *)
Definition keeps_files (w w' : world) : Prop :=
  forall path, is_Some (files w !! path) -> is_Some (files w' !! path).

(** The request with another output format, the record with another
    format label. *)
Definition with_format (p : GenerateImageInput) (f : ImageFormat)
    : GenerateImageInput :=
  mk_input (prompt p) (negative_prompt p) (aspect_ratio p) (Models.width p)
           (Models.height p) (steps p) (guidance_scale p) (Models.seed p)
           f (batch_size p) (response_format p).

Definition relabel (fmt : string) (img : GeneratedImage.t) : GeneratedImage.t :=
  GeneratedImage.make
    (GeneratedImage.image_path img) (GeneratedImage.filename img)
    (GeneratedImage.width img) (GeneratedImage.height img) fmt
    (GeneratedImage.seed img) (GeneratedImage.prompt img)
    (GeneratedImage.steps img) (GeneratedImage.guidance_scale img)
    (GeneratedImage.file_size_bytes img)
    (GeneratedImage.generation_time_ms img).

Definition relabel_result (fmt : string) (r : GenerationResult)
    : GenerationResult :=
  mk_result (success r) (map (relabel fmt) (images r)) (total_generated r)
            (error r).

(** The outcome of a computation of records, with the records relabelled. *)
Definition relabelled (fmt : string)
    (x : (exn + list GeneratedImage.t) * world)
    : (exn + list GeneratedImage.t) * world :=
  match x with
  | (inr imgs, w') => (inr (map (relabel fmt) imgs), w')
  | (inl e, w') => (inl e, w')
  end.

(** The seeds of the records of a batch whose items, from the seed [s]
    on, returned [counts] artifacts each. *)
Fixpoint item_seeds (s : Z) (counts : list nat) : list Z :=
  match counts with
  | [] => []
  | n :: rest => repeat s n ++ item_seeds (s + 1) rest
  end.

(** [n] consecutive seeds from [s] on. *)
Fixpoint seeds_from (s : Z) (n : nat) : list Z :=
  match n with
  | O => []
  | S n' => s :: seeds_from (s + 1) n'
  end.

(** The job graph of the item with the seed [batch_seed]. *)
Definition item_workflow (settings : Settings) (params : GenerateImageInput)
    (width height batch_seed : Z) : json :=
  build_flux_workflow (prompt params) (negative_prompt params)
    width height (steps params) (guidance_scale params) batch_seed
    (default_model settings) (ImageFormat_value (output_format params)).

(** What the calls of [client.generate] returned to the batch loop of [n]
    items that starts in the world [w] at the item [i]: the list of
    filenames of each item that ran, in order.  An item runs when the
    items before it were generated and downloaded. *)
Fixpoint returned_by_jobs (E : env) (settings : Settings) (c : ComfyUIClient)
    (params : GenerateImageInput) (width height seed start_ms : Z)
    (n : nat) (i : Z) (w : world) : list (list json) :=
  match n with
  | O => []
  | S n' =>
      match generate E c (item_workflow settings params width height (seed + i))
                     None w with
      | (inr filenames, w1) =>
          filenames ::
          match download_all E settings c params width height (seed + i)
                             start_ms filenames [] w1 with
          | (inr _, w2) =>
              returned_by_jobs E settings c params width height seed start_ms
                               n' (i + 1) w2
          | (inl _, _) => []
          end
      | (inl _, _) => []
      end
  end.

(** The record [img] is the one of the file that was downloaded under the
    name [filename] into the output directory. *)
Definition record_of (E : env) (settings : Settings) (img : GeneratedImage.t)
    (filename : json) : Prop :=
  exists name,
    filename = JStr name
    /\ GeneratedImage.filename img
       = path_name E (path_join E (output_dir settings) name)
    /\ GeneratedImage.image_path img
       = path_resolve E (path_join E (output_dir settings) name).

End Effects.

(** ** The text of a request

    Both REST handlers read their text from one of two keys of the body:
    the value of the first key when it is truthy, else the value of the
    second, else the empty string. *)

Module Adapter.

Definition request_text (first second : string) (d : list (string * json))
    : json :=
  or_ (or_ (dict_get first d) (dict_get second d)) (JStr "").

End Adapter.

(** ** Simulated backends

    Concrete surroundings, used to run the code on examples. *)

Module Samples.
Import ComfyUI Outcome.

Definition ok_json (j : json) : outcome :=
  Reply (mk_response 200 "" (Some j)).

Definition ok_bytes (data : string) : outcome :=
  Reply (mk_response 200 data None).

(** An environment around the backend [b]: a clock that stands still, one
    uuid, one random number, and library functions that fail on what the
    examples do not use. *)
Definition env_of (b : nat -> request -> outcome) : env :=
  mk_env b (fun _ => 1000) (fun _ => "client-1") (fun _ => 42)
         (fun _ => "<value>")
         (fun _ => inl (OtherError "ValueError" "invalid literal"))
         (fun _ => inl (OtherError "ValueError" "could not convert"))
         (fun _ => None)
         (fun dir name => dir +:+ "/" +:+ name)
         (fun path => path)
         (fun path => path)
         (fun _ => None).

Definition client : ComfyUIClient := new_client "http://127.0.0.1:8188/" 10.

Definition image (name tag : string) : json :=
  JDict [("filename", JStr name); ("subfolder", JStr ""); ("type", JStr tag)].

(** The entry of a finished job with the given images on its save node. *)
Definition finished (imgs : list json) : json :=
  JDict [("outputs", JDict [("8", JDict [("images", JList imgs)])]);
         ("status", JDict [("status_str", JStr "success");
                           ("completed", JBool true)])].

(** The entry of a job that is there and has produced nothing yet. *)
Definition running : json := JDict [("outputs", JDict [])].

(** The entry of a job with an error field. *)
Definition failed (detail : string) : json :=
  JDict [("status", JDict [("error", JStr detail)]); ("outputs", JDict [])].

Definition history (prompt_id : string) (entry : json) : outcome :=
  ok_json (JDict [(prompt_id, entry)]).

Definition empty_history : outcome := ok_json (JDict []).

(** Absent at polls 1 and 2, finished at poll 3. *)
Definition absent_twice_then_done (k : nat) (_ : request) : outcome :=
  match k with
  | 0%nat | 1%nat => empty_history
  | _ => history "job-1" (finished [image "flux_mcp_00001_.png" "output";
                                    image "preview.png" "temp"])
  end.

(** Running at poll 1, failed at poll 2. *)
Definition running_then_failed (k : nat) (_ : request) : outcome :=
  match k with
  | 0%nat => history "job-1" running
  | _ => history "job-1" (failed "out of memory")
  end.

(** Never there. *)
Definition never_done (_ : nat) (_ : request) : outcome := empty_history.

(** A backend that answers every item alike: alive, job accepted as
    "job-1", finished at the first poll with the given images, every
    download served. *)
Definition serving (imgs : list json) (k : nat) (_ : request) : outcome :=
  match (k mod (3 + length imgs))%nat with
  | 0%nat => ok_json (JDict [])
  | 1%nat => ok_json (JDict [("prompt_id", JStr "job-1")])
  | 2%nat => history "job-1" (finished imgs)
  | _ => ok_bytes "PNG-DATA"
  end.

Definition one_image : list json := [image "flux_mcp_00001_.png" "output"].

Definition two_images : list json :=
  [image "flux_mcp_00001_.png" "output"; image "flux_mcp_00002_.png" "output"].

(** The first item is served with one image; then the backend is gone. *)
Definition gone_after_first_item (k : nat) (rq : request) : outcome :=
  if (k <? 4)%nat then serving one_image k rq
  else ConnectError "All connection attempts failed".

(** A validated request: a square image, [b] items, the seed [s]. *)
Definition request_for (b : Z) (s : option Z) : GenerateImageInput :=
  mk_input "A red apple on a white table" default_negative_prompt SQUARE
           None None 8 4 s PNG b JSON.

Definition run (b : nat -> request -> outcome) (p : GenerateImageInput)
    : (exn + GenerationResult) * world :=
  Generate.run_generation (env_of b) default_settings p world0.

(** The result of a run, [None] when it raised. *)
Definition result_of_run (x : (exn + GenerationResult) * world)
    : option GenerationResult :=
  match fst x with
  | inr r => Some r
  | inl _ => None
  end.

(** A backend that is not there. *)
Definition unreachable (_ : nat) (_ : request) : outcome :=
  ConnectError "All connection attempts failed".

(** A prompt of 2001 characters: two letters, 1998 spaces, one letter. *)
Definition padded_prompt : string :=
  "ab" +:+ repeat_char " " 1998 +:+ "c".

Definition padded_body : json := JDict [("description", JStr padded_prompt)].

Definition apple_body : json :=
  JDict [("prompt", JStr "A red apple on a white table");
         ("aspect_ratio", JStr "1:1"); ("steps", JInt 8)].

(** The surroundings of the audio service: a machine without GPU, a
    loader [loads], a model whose synthesis gives [synth]. *)
Definition audio_env (loads : nat -> string -> exn + Chatterbox.TTSModel)
    (synth : exn + Chatterbox.tensor) : Chatterbox.aenv :=
  Chatterbox.mk_aenv
    (Some [("en", "English"); ("es", "Spanish")])
    (Some (false, false))
    loads
    (fun _ _ _ _ _ => synth)
    (fun wav _ => inr wav)
    (fun wav _ => wav)
    (fun _ _ => inr "RIFF-DATA")
    (fun _ => 1000) (fun _ => 1)
    (fun _ => inl (OtherError "ValueError" "could not convert"))
    (fun data => data)
    (fun _ => false) (fun _ => true) "/srv/genAudio"
    (fun dir name => dir +:+ "/" +:+ name)
    (fun path => path) (fun path => path) (fun path => path)
    (fun _ => None).

Definition audio_settings : AudioConfig.Settings :=
  AudioConfig.mk_settings "./outputs/audio" "cuda" None.

(** Every load succeeds and makes a new model. *)
Definition loads_fine (k : nat) (_ : string) : exn + Chatterbox.TTSModel :=
  inr (Chatterbox.mk_model k 24000).

Definition hola_body : json := JDict [("text", JStr "Hola mundo")].

End Samples.

(** ** More of genImages: the inventory of the backend, the health
    endpoint, the listing of the generated images *)

Module Inventory.
Import ComfyUI.

(** [x[0]] *)
Definition first_item (x : json) : exn + json :=
  match x with
  | JList (v :: _) => inr v
  | JList [] => inl (OtherError "IndexError" "list index out of range")
  | JStr (String ch _) => inr (JStr (String ch ""))
  | JStr EmptyString => inl (OtherError "IndexError" "string index out of range")
  | JDict _ => inl (OtherError "KeyError" "0")
  | _ => not_subscriptable x
  end.

(** The chain of [get] calls on the reply of [/object_info]. *)
Definition checkpoint_names (data : json) : exn + json :=
  a <-? get_or "CheckpointLoaderSimple" (JDict []) data ;;
  b <-? get_or "input" (JDict []) a ;;
  r <-? get_or "required" (JDict []) b ;;
  names <-? get_or "ckpt_name" (JList [JList []]) r ;;
  first_item names.

(** [get_available_checkpoints()]: whatever is raised inside is caught
    and answered with the empty list. *)
Definition get_available_checkpoints (E : env) (c : ComfyUIClient) : io json :=
  r <- try (o <- send E (get c "/object_info/CheckpointLoaderSimple" []
                             (_timeout c)) ;;
            response <- received o ;;
            if negb (is_success response)
            then raise (OtherError "HTTPStatusError"
                          (pretty (status_code response)))
            else
              data <- json_of response ;;
              lift (checkpoint_names data)) ;;
  match r with
  | inr names => ret names
  | inl _ => ret (JList [])
  end.

(** [x[:5]] *)
Definition first_five (x : json) : exn + json :=
  match x with
  | JList l => inr (JList (take 5 l))
  | JStr s => inr (JStr (prefix 5 s))
  | JDict _ => type_error "unhashable type: 'slice'"
  | _ => not_subscriptable x
  end.

Definition unavailable_hint : string :=
  "ComfyUI no responde. Inicia ComfyUI con GPU: "
  +:+ "scripts/run_comfyui_gpu.ps1 (ver COMFYUI_SETUP.md).".

Definition ready_message : string :=
  "ComfyUI listo. Arranca con GPU si usaste scripts/run_comfyui_gpu.ps1.".

Definition not_ready (settings : Settings) : ImagesRest.JSONResponse :=
  ImagesRest.mk_json_response
    (JDict [("ok", JBool false); ("comfyui", JStr (comfyui_url settings));
            ("error", JStr unavailable_hint)])
    503.

Definition ready (settings : Settings) (sample : json)
    : ImagesRest.JSONResponse :=
  ImagesRest.mk_json_response
    (JDict [("ok", JBool true); ("comfyui", JStr (comfyui_url settings));
            ("message", JStr ready_message); ("checkpoints_sample", sample)])
    200.

(** [health(_request)] of genImages/rest_api.py.  The client is made with
    the defaults of its constructor, the url and the timeout of the
    settings. *)
Definition health (E : env) (settings : Settings)
    : io ImagesRest.JSONResponse :=
  r <- try (let client := new_client (comfyui_url settings)
                                     (comfyui_timeout settings) in
            ok <- is_available E client ;;
            if ok
            then checkpoints <- get_available_checkpoints E client ;;
                 sample <- lift (if truthy checkpoints
                                 then first_five checkpoints
                                 else inr (JList [])) ;;
                 ret (Some (ready settings sample))
            else ret None) ;;
  match r with
  | inr (Some response) => ret response
  | _ => ret (not_ready settings)
  end.

End Inventory.

(** ** genImages/tools/info.py: the listing *)

Module Info.

(** What the listing reads of a file of the output directory. *)
Record file_entry : Type := mk_entry {
  fe_name : string;
  fe_mtime : Q;
  fe_size : Z
}.

(** The position of the last [ch] of [l], counted from [i]. *)
Fixpoint rfind_from (ch : ascii) (l : list ascii) (i : nat) (found : option nat)
    : option nat :=
  match l with
  | [] => found
  | x :: l' =>
      rfind_from ch l' (S i) (if Ascii.eqb x ch then Some i else found)
  end.

(** [Path(name).suffix]: from the last dot on, when that dot is neither
    the first nor the last character. *)
Definition suffix (name : string) : string :=
  let l := list_ascii_of_string name in
  match rfind_from "." l 0 None with
  | Some i =>
      if (0 <? i)%nat && (i <? length l - 1)%nat
      then string_of_list_ascii (drop i l)
      else ""
  | None => ""
  end.

Definition SUPPORTED_EXTENSIONS : list string :=
  [".png"; ".jpg"; ".jpeg"; ".webp"].

(** [f.suffix.lower() in SUPPORTED_EXTENSIONS] *)
Definition is_image (f : file_entry) : bool :=
  existsb (String.eqb (Chatterbox.lower (suffix (fe_name f))))
          SUPPORTED_EXTENSIONS.

(** [sorted(..., key=mtime, reverse=True)]: the stable sort, newest
    first; entries of equal time keep their order. *)
Fixpoint insert_newest_first (f : file_entry) (l : list file_entry)
    : list file_entry :=
  match l with
  | [] => [f]
  | g :: l' =>
      if Qle_bool (fe_mtime g) (fe_mtime f) then f :: l
      else g :: insert_newest_first f l'
  end.

Fixpoint sort_newest_first (l : list file_entry) : list file_entry :=
  match l with
  | [] => []
  | f :: l' => insert_newest_first f (sort_newest_first l')
  end.

(** [l[start:stop]] for any two integers. *)
Definition slice {A} (start stop : Z) (l : list A) : list A :=
  let n := Z.of_nat (length l) in
  let norm := fun i => if i <? 0 then Z.max 0 (i + n) else Z.min i n in
  let a := norm start in
  let b := norm stop in
  take (Z.to_nat (b - a)) (drop (Z.to_nat a) l).

Record page_of_images : Type := mk_page {
  pg_total : Z;
  pg_offset : Z;
  pg_items : list file_entry;
  pg_has_more : bool;
  pg_next_offset : option Z
}.

(** The files of the page [offset, limit] of [image_gen_list], and what it
    says of the rest, from the entries of the output directory. *)
Definition list_page (entries : list file_entry) (offset limit : Z)
    : page_of_images :=
  let image_files := sort_newest_first (List.filter is_image entries) in
  let total := Z.of_nat (length image_files) in
  let page := slice offset (offset + limit) image_files in
  let has_more := offset + Z.of_nat (length page) <? total in
  mk_page total offset page has_more
          (if has_more then Some (offset + Z.of_nat (length page)) else None).

(** The pages that a caller gets who starts at [offset] and follows
    [next_offset] while there is one, at most [fuel] times. *)
Fixpoint follow_pages (entries : list file_entry) (limit : Z) (fuel : nat)
    (offset : Z) : list (list file_entry) :=
  match fuel with
  | O => []
  | S fuel' =>
      let p := list_page entries offset limit in
      pg_items p ::
      match pg_next_offset p with
      | Some next => follow_pages entries limit fuel' next
      | None => []
      end
  end.

End Info.

(** ** More of genAudio: the languages and the health endpoint *)

Module AudioMore.
Import Chatterbox.

(** [get_supported_languages()] *)
Definition get_supported_languages (A : aenv) (w : aworld)
    : list (string * string) :=
  match SUPPORTED_LANGUAGES w with
  | Some langs => langs
  | None =>
      match chatterbox_import A with
      | Some langs => langs
      | None => [("en", "English")]
      end
  end.

Definition languages_dict (langs : list (string * string)) : json :=
  JDict (map (fun kv => (fst kv, JStr (snd kv))) langs).

(** [languages(_request)] *)
Definition languages (A : aenv) : aio AudioRest.JSONResponse :=
  fun w =>
    let langs := get_supported_languages A w in
    (inr (AudioRest.mk_json_response
            (JDict [("languages", languages_dict langs);
                    ("count", JInt (Z.of_nat (length langs)))])
            200), w).

Definition install_hint : string :=
  "Instala en un env con Python 3.10 o 3.11: "
  +:+ "pip install chatterbox-tts torch torchaudio".

(** [health(_request)] of genAudio/rest_api.py *)
Definition health (A : aenv) (settings : AudioConfig.Settings)
    : aio AudioRest.JSONResponse :=
  r <- try (get_model A settings) ;;
  match r with
  | inr _ =>
      ret (AudioRest.mk_json_response
             (JDict [("ok", JBool true);
                     ("message", JStr "Chatterbox TTS listo.");
                     ("model_loaded", JBool true)])
             200)
  | inl e =>
      ret (AudioRest.mk_json_response
             (JDict [("ok", JBool false); ("model_loaded", JBool false);
                     ("error", JStr (AudioRest.message_of e));
                     ("hint", JStr install_hint)])
             503)
  end.

End AudioMore.

(** ** Shapes of computations, for the properties of the second part *)

Module Shapes.

(** [m] changes nothing: it returns or raises in the world it starts in. *)
Definition pure {W A} (m : st W A) : Prop :=
  forall w r w', m w = (r, w') -> w' = w.

(** [m] either ends in the world it starts in or goes on as [next]. *)
Definition ends_or {W A} (next : st W A) (m : st W A) : Prop :=
  forall w r w', m w = (r, w') -> w' = w \/ next w = (r, w').

(** [m] returns: it does not raise, whatever the world. *)
Definition returns {W A} (m : st W A) : Prop :=
  forall w, exists a w', m w = (inr a, w').

End Shapes.

(** ** More simulated surroundings *)

Module MoreSamples.
Import ComfyUI Outcome Samples Info.

(** Absent at the first poll, a server error at the second. *)
Definition absent_then_500 (k : nat) (_ : request) : outcome :=
  match k with
  | 0%nat => empty_history
  | _ => Reply (mk_response 500 "Internal Server Error" None)
  end.

(** Alive, and the enqueue call is refused. *)
Definition rejecting (k : nat) (_ : request) : outcome :=
  match k with
  | 0%nat => ok_json (JDict [])
  | _ => Reply (mk_response 400 "invalid prompt: node 6 has no input" None)
  end.

Definition always_bytes (_ : nat) (_ : request) : outcome :=
  ok_bytes "PNG-DATA".

Definition always_404 (_ : nat) (_ : request) : outcome :=
  Reply (mk_response 404 "not found" None).

(** The surroundings [E] on a file system where the output directory has
    no subdirectory: a write under [out/sub/] finds no such directory. *)
Definition without_subdirectory (E : env) : env :=
  mk_env (backend E) (clock_ms E) (uuid4 E) (randint E) (py_str E) (py_int E)
         (py_float E) (lax_int E) (path_join E) (path_name E) (path_resolve E)
         (fun path =>
            if is_prefix "out/sub/" path
            then Some ("FileNotFoundError",
                       "[Errno 2] No such file or directory: '" +:+ path +:+ "'")
            else write_error E path).

(** The fields of an entry with one output image and one preview. *)
Definition mixed_fields : list (string * json) :=
  [("outputs",
    JDict [("8", JDict [("images",
                         JList [image "flux_mcp_00001_.png" "output";
                                image "preview.png" "temp"])])])].

Definition apple_request : GenerateImageInput :=
  mk_input "A red apple on a white table" default_negative_prompt SQUARE
           None None 8 4 None PNG 1 JSON.


(** No load succeeds. *)
Definition loads_fail (_ : nat) (_ : string) : exn + Chatterbox.TTSModel :=
  inl (OtherError "RuntimeError" "weights not found").

Definition directory : list file_entry :=
  [mk_entry "flux_mcp_00001_.png" 10 100;
   mk_entry "notes.txt" 20 5;
   mk_entry "flux_mcp_00002_.JPG" 30 200;
   mk_entry ".png" 40 1;
   mk_entry "flux_mcp_00003_.webp" 20 300].

End MoreSamples.

(* ===================================================================== *)
(** * Part II: properties                                                 *)
(* ===================================================================== *)

(** ** Dimensions *)

Section Dimensions.

Lemma floor64_divide (n : Z) : (64 | n / 64 * 64).
Proof. exists (n / 64). reflexivity. Qed.

Lemma max64_divide (n : Z) : (64 | n) -> (64 | Z.max n 64).
Proof.
  intros Hn. destruct (Z.max_spec n 64) as [[_ ->] | [_ ->]]; [| exact Hn].
  exists 1. reflexivity.
Qed.

Lemma floor64_fixed (n : Z) : (64 | n) -> n / 64 * 64 = n.
Proof. intros [k ->]. rewrite Z.div_mul by lia. reflexivity. Qed.

Lemma table_entries_large (a : AspectRatio) (tw th : Z) :
  ASPECT_RATIO_DIMENSIONS a = Some (tw, th) ->
  64 <= tw / 64 * 64 /\ 64 <= th / 64 * 64.
Proof. destruct a; intros [= <- <-]; vm_compute; split; discriminate. Qed.

Lemma int_or_explicit (v d : Z) : v <> 0 -> int_or (Some v) d = v.
Proof. intros Hv. unfold int_or. destruct (Z.eqb_spec v 0); congruence. Qed.

(** What [resolve_dimensions] does on every input: the resolved width and
    height are multiples of 64 and at least 64; for a ratio other than
    custom they are the values of the table entry, each rounded down to a
    multiple of 64, whatever the explicit width and height; for the custom
    ratio with an explicit non-zero width and height each value is
    [max(64, (input // 64) * 64)]. *)
Lemma resolve_dimensions_rounds_down (aspect_ratio : AspectRatio)
    (width height : option Z) (default_width default_height w h : Z) :
  resolve_dimensions aspect_ratio width height default_width default_height
    = (w, h) ->
  ((64 | w) /\ (64 | h) /\ 64 <= w /\ 64 <= h)
  /\ (aspect_ratio <> CUSTOM ->
      exists tw th,
        ASPECT_RATIO_DIMENSIONS aspect_ratio = Some (tw, th)
        /\ w = tw / 64 * 64 /\ h = th / 64 * 64
        /\ ((64 | tw) -> (64 | th) -> (w, h) = (tw, th)))
  /\ (aspect_ratio = CUSTOM ->
      forall w0 h0, width = Some w0 -> height = Some h0 ->
        w0 <> 0 -> h0 <> 0 ->
        w = Z.max 64 (w0 / 64 * 64) /\ h = Z.max 64 (h0 / 64 * 64)).
Proof.
  unfold resolve_dimensions. intros Hres. split; [| split].
  - destruct (if AspectRatio_eqb aspect_ratio CUSTOM then _ else _)
      as [w1 h1]. injection Hres as <- <-.
    repeat split; try (apply max64_divide, floor64_divide); lia.
  - intros Hne.
    destruct (ASPECT_RATIO_DIMENSIONS aspect_ratio) as [[tw th] |] eqn:Htab;
      [| destruct aspect_ratio; try discriminate; congruence].
    exists tw, th. split; [reflexivity |].
    assert (Hb : AspectRatio_eqb aspect_ratio CUSTOM = false)
      by (destruct aspect_ratio; try reflexivity; congruence).
    rewrite Hb in Hres. cbn in Hres. injection Hres as <- <-.
    destruct (table_entries_large _ _ _ Htab) as [Hw Hh].
    rewrite !Z.max_l by lia. repeat split.
    intros Dw Dh. rewrite !floor64_fixed by assumption. reflexivity.
  - intros -> w0 h0 -> -> Hw Hh. cbv [AspectRatio_eqb] in Hres.
    rewrite !int_or_explicit in Hres by assumption.
    injection Hres as <- <-. split; apply Z.max_comm.
Qed.

(** C5 at the inputs where the code departs from it.  The table gives
    3840x2160 for the ratio 16:9 and 2160x3840 for 9:16, and 2160 is not a
    multiple of 64.  Whatever the explicit width and height and the
    defaults, [resolve_dimensions] gives 3840x2112 for 16:9 and 2112x3840
    for 9:16: multiples of 64, and not the entries of the table.  The
    three other ratios of the table resolve to their entries. *)
Theorem resolve_dimensions_misses_table_entry (width height : option Z)
    (default_width default_height : Z) :
  ASPECT_RATIO_DIMENSIONS LANDSCAPE = Some (3840, 2160)
  /\ ASPECT_RATIO_DIMENSIONS PORTRAIT = Some (2160, 3840)
  /\ ~ (64 | 2160)
  /\ resolve_dimensions LANDSCAPE width height default_width default_height
     = (3840, 2112)
  /\ resolve_dimensions PORTRAIT width height default_width default_height
     = (2112, 3840)
  /\ (forall a, a = SQUARE \/ a = PHOTO \/ a = WIDE ->
        ASPECT_RATIO_DIMENSIONS a
        = Some (resolve_dimensions a width height default_width
                                   default_height)).
Proof.
  split; [reflexivity |]. split; [reflexivity |]. split.
  - intros [k Hk]. lia.
  - split; [reflexivity |]. split; [reflexivity |].
    intros a [-> | [-> | ->]]; reflexivity.
Qed.

End Dimensions.

(** ** The polling loop of the client *)

Section Polling.
Import ComfyUI Outcome.

Variable E : env.
Variable c : ComfyUIClient.
Variable prompt_id : string.

Lemma image_filenames_retained (imgs : list json) :
  forall arts acc,
    artifacts_of imgs = Some arts ->
    image_filenames imgs acc = inr (acc ++ filenames_of (retained arts)).
Proof.
  induction imgs as [| img rest IH]; intros arts acc Harts; cbn in Harts.
  - injection Harts as <-. cbn. rewrite app_nil_r. reflexivity.
  - destruct (artifact_of img) as [a |] eqn:Ha; [| discriminate].
    destruct (artifacts_of rest) as [l |] eqn:Hl; [| discriminate].
    injection Harts as <-.
    destruct img as [| | | | | | d]; try discriminate. cbn in Ha.
    destruct (assoc "filename" d) as [[| | | | f | |] |] eqn:Hf;
      try discriminate.
    destruct (assoc "type" d) as [[| | | | t | |] |] eqn:Ht;
      try discriminate.
    injection Ha as <-.
    cbn [image_filenames and_then get_or subscript]. rewrite Ht, Hf. cbn.
    unfold retained. cbn [List.filter]. unfold tagged_output at 1. cbn.
    destruct (String.eqb t "output").
    + rewrite (IH l) by reflexivity. cbn. rewrite <- app_assoc. reflexivity.
    + apply IH. reflexivity.
Qed.

Lemma retained_app (l l' : list artifact) :
  retained (l ++ l') = retained l ++ retained l'.
Proof. apply List.filter_app. Qed.

Lemma filenames_of_app (l l' : list artifact) :
  filenames_of (l ++ l') = filenames_of l ++ filenames_of l'.
Proof. apply map_app. Qed.

Lemma node_filenames_retained (nodes : list json) :
  forall arts acc,
    nodes_artifacts nodes = Some arts ->
    node_filenames nodes acc = inr (acc ++ filenames_of (retained arts)).
Proof.
  induction nodes as [| n rest IH]; intros arts acc Harts; cbn in Harts.
  - injection Harts as <-. cbn. rewrite app_nil_r. reflexivity.
  - destruct (node_artifacts n) as [l |] eqn:Hn; [| discriminate].
    destruct (nodes_artifacts rest) as [l' |] eqn:Hl; [| discriminate].
    injection Harts as <-.
    rewrite retained_app, filenames_of_app, app_assoc.
    destruct n as [| | | | | | d]; try discriminate. cbn in Hn.
    cbn [node_filenames and_then get_or].
    destruct (assoc "images" d) as [[| | | | | imgs |] |]; try discriminate.
    + cbn [default from_option id iterate and_then].
      rewrite (image_filenames_retained imgs l acc Hn). cbn.
      apply IH. reflexivity.
    + injection Hn as <-. cbn. rewrite app_nil_r. apply IH. reflexivity.
Qed.

(** The extraction of the client returns the retained artifacts of the
    specification, in order. *)
Lemma extract_output_filenames_retained (fields : list (string * json))
    (arts : list artifact) :
  job_artifacts fields = Some arts ->
  _extract_output_filenames (JDict fields)
    = inr (filenames_of (retained arts)).
Proof.
  unfold job_artifacts, _extract_output_filenames. intros Harts.
  cbn [get_or and_then].
  destruct (assoc "outputs" fields) as [[| | | | | | nodes] |];
    try discriminate.
  - cbn [default from_option id values and_then].
    apply (node_filenames_retained _ arts [] Harts).
  - injection Harts as <-. reflexivity.
Qed.

Lemma after_polls_one (w : world) :
  mk_world (S (calls w)) (clock_reads w) (uuid_draws w) (rand_draws w)
           (files w)
           ((trace w ++ [EvSleep POLL_INTERVAL_SEC])
              ++ [EvHttp (history_request c prompt_id)])
  = after_polls c prompt_id 1 w.
Proof.
  unfold after_polls. cbn [polls poll_events].
  rewrite Nat.add_1_r, <- app_assoc. reflexivity.
Qed.

Lemma after_polls_succ (n : nat) (w : world) :
  after_polls c prompt_id n (after_polls c prompt_id 1 w)
  = after_polls c prompt_id (S n) w.
Proof.
  unfold after_polls. cbn [calls clock_reads uuid_draws rand_draws files trace polls].
  rewrite <- !app_assoc. cbn. f_equal. lia.
Qed.

Lemma polls_app (m n : nat) :
  polls c prompt_id (m + n)
  = polls c prompt_id m ++ polls c prompt_id n.
Proof.
  induction m as [| m IH]; [reflexivity |].
  cbn [Nat.add polls]. rewrite IH, app_assoc. reflexivity.
Qed.

Lemma after_polls_add (m n : nat) (w : world) :
  after_polls c prompt_id n (after_polls c prompt_id m w)
  = after_polls c prompt_id (m + n) w.
Proof.
  unfold after_polls.
  cbn [calls clock_reads uuid_draws rand_draws files trace].
  rewrite polls_app, <- app_assoc, Nat.add_assoc. reflexivity.
Qed.

Lemma poll_reply_shift (k : nat) (w : world) :
  poll_reply E c prompt_id (after_polls c prompt_id 1 w) k
  = poll_reply E c prompt_id w (S k).
Proof. unfold poll_reply, after_polls. cbn. f_equal. lia. Qed.

(** One turn of the loop does what the specification says of the
    observation it makes. *)
Lemma poll_attempts_step (n : nat) (w : world) (obs : observation) :
  observe prompt_id (poll_reply E c prompt_id w 0) = Some obs ->
  poll_attempts E c (JStr prompt_id) (S n) w =
  match obs with
  | Absent | Waiting =>
      poll_attempts E c (JStr prompt_id) n (after_polls c prompt_id 1 w)
  | Errored detail =>
      (inl (ComfyUIGenerationError (job_error_message E detail)),
       after_polls c prompt_id 1 w)
  | Completed refs =>
      (inr (Some (filenames_of refs)), after_polls c prompt_id 1 w)
  end.
Proof.
  unfold observe, poll_reply. rewrite Nat.add_0_r. intros Hobs.
  cbn [poll_attempts]. unfold bind at 1. unfold sleep at 1.
  unfold bind at 1. unfold send at 1. cbn [log calls clock_reads uuid_draws rand_draws files trace].
  cbn [str_]. fold (history_request c prompt_id). rewrite after_polls_one.
  set (w1 := after_polls c prompt_id 1 w).
  destruct (backend E (calls w) (history_request c prompt_id))
    as [m | cls m | cls m | r]; try discriminate.
  cbn [history_of] in Hobs. unfold bind at 1. cbn [received ret].
  destruct (is_success r); [| discriminate]. cbn [negb].
  unfold json_of.
  destruct (decoded r) as [[| | | | | | h] |]; try discriminate.
  unfold bind at 1. cbn [ret]. unfold bind at 1.
  cbn [lift contains_value contains].
  destruct (assoc prompt_id h) as [job |] eqn:Hjob.
  - assert (Hdec : bool_decide (is_Some (Some job)) = true)
      by (apply bool_decide_eq_true; eauto).
    rewrite Hdec. cbn [negb].
    destruct job as [| | | | | | fields]; try discriminate.
    unfold bind at 1. cbn [lift subscript_value subscript]. rewrite Hjob.
    unfold bind at 1. cbn [lift get_or].
    unfold error_field in Hobs.
    destruct (assoc "status" fields) as [[| | | | | | st] |] eqn:Hst;
      try discriminate.
    + cbn [default from_option id]. unfold bind at 1. cbn [lift contains].
      destruct (assoc "error" st) as [detail |] eqn:Herr.
      * assert (Hd : bool_decide (is_Some (Some detail)) = true)
          by (apply bool_decide_eq_true; eauto).
        rewrite Hd. injection Hobs as <-.
        unfold bind at 1. cbn [lift subscript]. rewrite Hst.
        unfold bind at 1. cbn [lift get_or]. rewrite Herr. reflexivity.
      * assert (Hd : bool_decide (is_Some (@None json)) = false)
          by (apply bool_decide_eq_false; intros [x Hx]; discriminate).
        rewrite Hd.
        destruct (job_artifacts fields) as [arts |] eqn:Harts;
          [| discriminate].
        unfold bind at 1. cbn [lift].
        rewrite (extract_output_filenames_retained fields arts Harts).
        destruct (retained arts) as [| a refs] eqn:Hret;
          injection Hobs as <-; reflexivity.
    + cbn [default from_option id]. unfold bind at 1. cbn [lift contains assoc].
      assert (Hd : bool_decide (is_Some (@None json)) = false)
        by (apply bool_decide_eq_false; intros [x Hx]; discriminate).
      rewrite Hd.
      destruct (job_artifacts fields) as [arts |] eqn:Harts;
        [| discriminate].
      unfold bind at 1. cbn [lift].
      rewrite (extract_output_filenames_retained fields arts Harts).
      destruct (retained arts) as [| a refs] eqn:Hret;
        injection Hobs as <-; reflexivity.
  - assert (Hdec : bool_decide (is_Some (@None json)) = false)
      by (apply bool_decide_eq_false; intros [x Hx]; discriminate).
    rewrite Hdec. cbn [negb]. injection Hobs as <-. reflexivity.
Qed.

Lemma after_polls_zero (w : world) : after_polls c prompt_id 0 w = w.
Proof.
  destruct w. unfold after_polls. cbn. rewrite Nat.add_0_r, app_nil_r.
  reflexivity.
Qed.

(** While the polls show no terminal state the loop goes on. *)
Lemma poll_attempts_pending (n m : nat) :
  forall w,
    (forall k, (k < n)%nat ->
       pending (observe prompt_id (poll_reply E c prompt_id w k))) ->
    poll_attempts E c (JStr prompt_id) (n + m) w
    = poll_attempts E c (JStr prompt_id) m (after_polls c prompt_id n w).
Proof.
  induction n as [| n IH]; intros w Hpend.
  - rewrite after_polls_zero. reflexivity.
  - cbn [Nat.add].
    assert (H0 : pending (observe prompt_id (poll_reply E c prompt_id w 0)))
      by (apply Hpend; lia).
    assert (Hstep : poll_attempts E c (JStr prompt_id) (S (n + m)) w
                    = poll_attempts E c (JStr prompt_id) (n + m)
                        (after_polls c prompt_id 1 w))
      by (destruct H0 as [H0 | H0];
          rewrite (poll_attempts_step (n + m) w _ H0); reflexivity).
    rewrite Hstep, IH, after_polls_succ; [reflexivity |].
    intros k Hk. rewrite poll_reply_shift. apply Hpend. lia.
Qed.

Lemma observe_completed (o : outcome) (refs : list artifact) :
  observe prompt_id o = Some (Completed refs) ->
  refs <> [] /\ Forall (fun a => art_type a = "output") refs.
Proof.
  unfold observe. intros Hobs.
  destruct (history_of o) as [h |]; [| discriminate].
  destruct (assoc prompt_id h) as [[| | | | | | fields] |]; try discriminate.
  destruct (error_field fields) as [[detail |] |]; try discriminate.
  destruct (job_artifacts fields) as [arts |]; [| discriminate].
  destruct (retained arts) as [| a l] eqn:Hret; [discriminate |].
  injection Hobs as <-. split; [discriminate |].
  rewrite <- Hret. unfold retained. apply List.Forall_forall. intros x Hx.
  apply List.filter_In in Hx. destruct Hx as [_ Hx].
  apply String.eqb_eq. exact Hx.
Qed.

Lemma float_of_int_exact (n : Z) :
  Z.abs n < 2 ^ 53 -> float_of_int n = Some n.
Proof.
  intros Hn. unfold float_of_int.
  destruct (Z.ltb_spec (Z.abs n) (2 ^ 53)); [reflexivity | lia].
Qed.

Lemma max_attempts_exact :
  Z.abs (_timeout c) < 2 ^ 53 ->
  max_attempts c = inr (Z.max 1 (_timeout c / 1)).
Proof.
  intros Hn. unfold max_attempts, int_of_div_by_one.
  rewrite (float_of_int_exact _ Hn). cbn [and_then].
  rewrite Z.quot_1_r, Z.div_1_r. reflexivity.
Qed.

(** C1: when the history omits the handle for the first [N] polls and the
    next poll shows the handle with no error and at least one artifact
    tagged "output", the wait returns those artifacts right after poll
    [N + 1], the attempts allowing it: exactly [N + 1] polls were made,
    each after one sleep of the interval, and nothing else was done. *)
Theorem poll_returns_after_absent_polls (N : nat) (w : world)
    (refs : list artifact) (attempts : Z) :
  (forall k, (k < N)%nat ->
     observe prompt_id (poll_reply E c prompt_id w k) = Some Absent) ->
  observe prompt_id (poll_reply E c prompt_id w N) = Some (Completed refs) ->
  max_attempts c = inr attempts ->
  Z.of_nat N + 1 <= attempts ->
  _poll_until_done E c (JStr prompt_id) w
    = (inr (filenames_of refs), after_polls c prompt_id (N + 1) w)
  /\ refs <> []
  /\ Forall (fun a => art_type a = "output") refs.
Proof.
  intros Habsent Hdone Hmax Hle. split; [| exact (observe_completed _ _ Hdone)].
  unfold _poll_until_done. unfold bind at 1. rewrite Hmax. cbn [lift].
  replace (Z.to_nat attempts) with (N + S (Z.to_nat attempts - N - 1))%nat
    by lia.
  unfold bind at 1. rewrite poll_attempts_pending
    by (intros k Hk; left; apply Habsent; exact Hk).
  rewrite <- (Nat.add_0_r N) in Hdone at 1.
  assert (Hdone' : observe prompt_id
            (poll_reply E c prompt_id (after_polls c prompt_id N w) 0)
          = Some (Completed refs)).
  { rewrite <- Hdone. unfold poll_reply, after_polls. cbn. f_equal. f_equal. lia. }
  rewrite (poll_attempts_step _ _ _ Hdone'), after_polls_add. reflexivity.
Qed.

(** C2: when a poll shows the handle with an error field, the polls
    before it having shown no terminal state, the wait raises the
    generation error right after that poll and polls no more: [N + 1]
    polls when it is poll [N + 1], one poll when the error is there at the
    first poll.  The message of the error is "ComfyUI reportó error: "
    followed by the reported reason: the reason itself when it is a
    string, its decimal writing when it is an integer, [str] of it
    otherwise. *)
Theorem poll_raises_on_error_field (N : nat) (w : world) (detail : json)
    (attempts : Z) :
  (forall k, (k < N)%nat ->
     pending (observe prompt_id (poll_reply E c prompt_id w k))) ->
  observe prompt_id (poll_reply E c prompt_id w N) = Some (Errored detail) ->
  max_attempts c = inr attempts ->
  Z.of_nat N + 1 <= attempts ->
  let reason := match detail with
                | JStr text => text
                | JInt n => pretty n
                | JNull => "None"
                | JBool true => "True"
                | JBool false => "False"
                | other => py_str E other
                end in
  _poll_until_done E c (JStr prompt_id) w
    = (inl (ComfyUIGenerationError
              ("ComfyUI report" +:+ String (ascii_of_nat 243) ""
               +:+ " error: " +:+ reason)),
       after_polls c prompt_id (N + 1) w).
Proof.
  intros Hpend Herr Hmax Hle reason.
  change (ComfyUIGenerationError
            ("ComfyUI report" +:+ String (ascii_of_nat 243) ""
             +:+ " error: " +:+ reason))
    with (ComfyUIGenerationError (job_error_message E detail)).
  unfold _poll_until_done. unfold bind at 1. rewrite Hmax. cbn [lift].
  replace (Z.to_nat attempts) with (N + S (Z.to_nat attempts - N - 1))%nat
    by lia.
  unfold bind at 1. rewrite poll_attempts_pending by exact Hpend.
  assert (Herr' : observe prompt_id
            (poll_reply E c prompt_id (after_polls c prompt_id N w) 0)
          = Some (Errored detail)).
  { rewrite <- Herr. unfold poll_reply, after_polls. cbn. f_equal. f_equal. lia. }
  rewrite (poll_attempts_step _ _ _ Herr'), after_polls_add. reflexivity.
Qed.

(** C3: against a backend that never shows a terminal state the wait
    sleeps the interval of one second before each poll and raises the
    timeout after exactly [max(1, floor(T / 1))] polls, [T] being the
    timeout of the client, an integer that a float holds exactly.  The
    timeout is the generation error whose message starts with "Timeout:"
    and names the job and [T]; it is the message of no failed job, which
    starts with "ComfyUI reportó error:". *)
Theorem poll_times_out_after_max_attempts (w : world) :
  (forall k, pending (observe prompt_id (poll_reply E c prompt_id w k))) ->
  Z.abs (_timeout c) < 2 ^ 53 ->
  POLL_INTERVAL_SEC = 1
  /\ _poll_until_done E c (JStr prompt_id) w
      = (inl (ComfyUIGenerationError
                ("Timeout: el job " +:+ prompt_id +:+ " no complet"
                 +:+ String (ascii_of_nat 243) "" +:+ " en "
                 +:+ pretty (_timeout c) +:+ "s. "
                 +:+ "Considera aumentar IMAGE_MCP_COMFYUI_TIMEOUT en tu .env")),
         after_polls c prompt_id (Z.to_nat (Z.max 1 (_timeout c / 1))) w)
  /\ (forall reason,
        "Timeout: el job " +:+ prompt_id +:+ " no complet"
        +:+ String (ascii_of_nat 243) "" +:+ " en "
        +:+ pretty (_timeout c) +:+ "s. "
        +:+ "Considera aumentar IMAGE_MCP_COMFYUI_TIMEOUT en tu .env"
        <> "ComfyUI report" +:+ String (ascii_of_nat 243) ""
           +:+ " error: " +:+ reason).
Proof.
  intros Hpend Hexact. split; [reflexivity |]. split; [| discriminate].
  change (ComfyUIGenerationError _)
    with (ComfyUIGenerationError (timeout_message E c (JStr prompt_id))).
  unfold _poll_until_done. unfold bind at 1.
  rewrite (max_attempts_exact Hexact). cbn [lift].
  set (n := Z.to_nat (Z.max 1 (_timeout c / 1))).
  unfold bind at 1. rewrite <- (Nat.add_0_r n) at 1.
  rewrite poll_attempts_pending by (intros k _; apply Hpend).
  reflexivity.
Qed.

End Polling.

(** ** The polling loop on simulated backends *)

Section PollingExamples.
Import ComfyUI Outcome Samples.

Lemma poll_returns_after_absent_polls_witness :
  _poll_until_done (env_of absent_twice_then_done) client (JStr "job-1") world0
    = (inr [JStr "flux_mcp_00001_.png"],
       after_polls client "job-1" 3 world0)
  /\ [mk_artifact "flux_mcp_00001_.png" "output"] <> []
  /\ Forall (fun a => art_type a = "output")
            [mk_artifact "flux_mcp_00001_.png" "output"].
Proof.
  apply (poll_returns_after_absent_polls (env_of absent_twice_then_done)
           client "job-1" 2 world0
           [mk_artifact "flux_mcp_00001_.png" "output"] 10).
  - intros [| [| k]] Hk; [reflexivity | reflexivity | lia].
  - reflexivity.
  - reflexivity.
  - lia.
Defined.

Lemma poll_raises_on_error_field_witness :
  _poll_until_done (env_of running_then_failed) client (JStr "job-1") world0
    = (inl (ComfyUIGenerationError
              ("ComfyUI report" +:+ String (ascii_of_nat 243) ""
               +:+ " error: " +:+ "out of memory")),
       after_polls client "job-1" 2 world0).
Proof.
  apply (poll_raises_on_error_field (env_of running_then_failed)
           client "job-1" 1 world0 (JStr "out of memory") 10).
  - intros [| k] Hk; [right; reflexivity | lia].
  - reflexivity.
  - reflexivity.
  - lia.
Defined.

Lemma poll_times_out_after_max_attempts_witness :
  POLL_INTERVAL_SEC = 1
  /\ _poll_until_done (env_of never_done) client (JStr "job-1") world0
     = (inl (ComfyUIGenerationError
               ("Timeout: el job job-1 no complet"
                +:+ String (ascii_of_nat 243) ""
                +:+ " en 10s. "
                +:+ "Considera aumentar IMAGE_MCP_COMFYUI_TIMEOUT en tu .env")),
        after_polls client "job-1" 10 world0)
  /\ (forall reason,
        "Timeout: el job " +:+ "job-1" +:+ " no complet"
        +:+ String (ascii_of_nat 243) "" +:+ " en "
        +:+ pretty (_timeout client) +:+ "s. "
        +:+ "Considera aumentar IMAGE_MCP_COMFYUI_TIMEOUT en tu .env"
        <> "ComfyUI report" +:+ String (ascii_of_nat 243) ""
           +:+ " error: " +:+ reason).
Proof.
  apply (poll_times_out_after_max_attempts (env_of never_done)
           client "job-1" world0).
  - intros k. left. reflexivity.
  - cbn. lia.
Defined.

End PollingExamples.

(** ** Relations that computations maintain *)

Section Preserved.
Import ComfyUI Generate Effects.

Variable R : world -> world -> Prop.
Hypothesis R_refl : forall w, R w w.
Hypothesis R_trans : forall w1 w2 w3, R w1 w2 -> R w2 w3 -> R w1 w3.

Lemma preserves_ret {A} (a : A) : preserves R (ret a).
Proof. intros w r w' [= _ <-]. apply R_refl. Qed.

Lemma preserves_raise {A} (e : exn) : preserves R (@raise world A e).
Proof. intros w r w' [= _ <-]. apply R_refl. Qed.

Lemma preserves_lift {A} (x : exn + A) : preserves R (lift x).
Proof. intros w r w' [= _ <-]. apply R_refl. Qed.

Lemma preserves_bind {A B} (m : io A) (k : A -> io B) :
  preserves R m -> (forall a, preserves R (k a)) -> preserves R (bind m k).
Proof.
  intros Hm Hk w r w'. unfold bind.
  destruct (m w) as [[e | a] w1] eqn:Hmw.
  - intros [= _ <-]. exact (Hm _ _ _ Hmw).
  - intros Hkw. exact (R_trans _ _ _ (Hm _ _ _ Hmw) (Hk _ _ _ _ Hkw)).
Qed.

Lemma preserves_try {A} (m : io A) : preserves R m -> preserves R (try m).
Proof.
  intros Hm w r w'. unfold try. destruct (m w) as [x w1] eqn:Hmw.
  intros [= _ <-]. exact (Hm _ _ _ Hmw).
Qed.

End Preserved.

Section KeepsSubmitted.
Import ComfyUI Generate Effects.

Lemma same_submitted_refl (w : world) : same_submitted w w.
Proof. reflexivity. Qed.

Lemma same_submitted_trans (w1 w2 w3 : world) :
  same_submitted w1 w2 -> same_submitted w2 w3 -> same_submitted w1 w3.
Proof. unfold same_submitted. congruence. Qed.

Lemma submitted_app (t t' : list event) :
  submitted (t ++ t') = submitted t ++ submitted t'.
Proof. apply omap_app. Qed.

Lemma same_submitted_log (ev : event) (w : world) :
  posted_workflow ev = None -> same_submitted w (log ev w).
Proof.
  intros Hev. unfold same_submitted, log. cbn [trace].
  rewrite submitted_app. cbn. rewrite Hev. apply app_nil_r.
Qed.

Lemma sleep_same_submitted (seconds : Z) :
  preserves same_submitted (sleep seconds).
Proof. intros w r w' [= _ <-]. apply same_submitted_log. reflexivity. Qed.

Lemma send_get_same_submitted (E : env) (rq : request) :
  rq_method rq = GET -> preserves same_submitted (send E rq).
Proof.
  intros Hget w r w' [= _ <-]. unfold same_submitted, log. cbn [trace].
  rewrite submitted_app. cbn. rewrite Hget. apply app_nil_r.
Qed.

Lemma now_ms_same_submitted (E : env) : preserves same_submitted (now_ms E).
Proof. intros w r w' [= _ <-]. reflexivity. Qed.

Lemma mkdir_same_submitted (dir : string) :
  preserves same_submitted (mkdir dir).
Proof. intros w r w' [= _ <-]. apply same_submitted_log. reflexivity. Qed.

Lemma write_bytes_same_submitted (E : env) (path data : string) :
  preserves same_submitted (write_bytes E path data).
Proof.
  intros w r w'. unfold write_bytes.
  destruct (write_error E path) as [[cls msg] |]; intros [= _ <-];
    [reflexivity |].
  unfold same_submitted, log. cbn [trace].
  rewrite submitted_app. cbn. apply app_nil_r.
Qed.

Lemma st_size_same_submitted (path : string) :
  preserves same_submitted (st_size path).
Proof.
  intros w r w'. unfold st_size.
  destruct (files w !! path); intros [= _ <-]; reflexivity.
Qed.

End KeepsSubmitted.

Create HintDb same_sub discriminated.

#[export] Hint Resolve sleep_same_submitted send_get_same_submitted
  now_ms_same_submitted mkdir_same_submitted write_bytes_same_submitted
  st_size_same_submitted : same_sub.

(** Walks through a computation, turn by turn, for [same_submitted]. *)
Ltac same_submitted_steps :=
  repeat first
    [ apply (preserves_ret _ same_submitted_refl)
    | apply (preserves_raise _ same_submitted_refl)
    | apply (preserves_lift _ same_submitted_refl)
    | apply preserves_try
    | apply (preserves_bind _ same_submitted_trans); [| intros ?]
    | solve [eauto with same_sub]
    | match goal with
      | |- Effects.preserves _ (match ?x with _ => _ end) => destruct x
      | |- Effects.preserves _ (if ?b then _ else _) => destruct b
      end ].

Section ClientKeepsSubmitted.
Import ComfyUI Generate Effects.

Variable E : env.
Variable c : ComfyUIClient.

Lemma received_same_submitted (o : outcome) :
  preserves same_submitted (received o).
Proof. unfold received. same_submitted_steps. Qed.

Lemma json_of_same_submitted (r : response) :
  preserves same_submitted (json_of r).
Proof. unfold json_of. same_submitted_steps. Qed.

Hint Resolve received_same_submitted json_of_same_submitted : same_sub.

Lemma is_available_same_submitted : preserves same_submitted (is_available E c).
Proof. unfold is_available. same_submitted_steps. Qed.

Lemma assert_available_same_submitted :
  preserves same_submitted (assert_available E c).
Proof.
  unfold assert_available.
  apply (preserves_bind _ same_submitted_trans);
    [apply is_available_same_submitted | intros ?].
  same_submitted_steps.
Qed.

Lemma poll_attempts_same_submitted (prompt_id : json) (n : nat) :
  preserves same_submitted (poll_attempts E c prompt_id n).
Proof.
  induction n as [| n IH]; cbn [poll_attempts]; same_submitted_steps.
Qed.

Lemma poll_until_done_same_submitted (prompt_id : json) :
  preserves same_submitted (_poll_until_done E c prompt_id).
Proof.
  unfold _poll_until_done.
  apply (preserves_bind _ same_submitted_trans); [same_submitted_steps |].
  intros attempts.
  apply (preserves_bind _ same_submitted_trans);
    [apply poll_attempts_same_submitted | intros ?].
  same_submitted_steps.
Qed.

Lemma download_image_same_submitted (filename : json) (dest_dir fmt : string) :
  preserves same_submitted (download_image E c filename dest_dir fmt).
Proof. unfold download_image. same_submitted_steps. Qed.

End ClientKeepsSubmitted.

Section KeepsFiles.
Import ComfyUI Generate Effects.

Lemma keeps_files_refl (w : world) : keeps_files w w.
Proof. intros path H. exact H. Qed.

Lemma keeps_files_trans (w1 w2 w3 : world) :
  keeps_files w1 w2 -> keeps_files w2 w3 -> keeps_files w1 w3.
Proof. intros H12 H23 path H. apply H23, H12, H. Qed.

Lemma sleep_keeps_files (seconds : Z) : preserves keeps_files (sleep seconds).
Proof. intros w r w' [= _ <-] path H. exact H. Qed.

Lemma send_keeps_files (E : env) (rq : request) :
  preserves keeps_files (send E rq).
Proof. intros w r w' [= _ <-] path H. exact H. Qed.

Lemma now_ms_keeps_files (E : env) : preserves keeps_files (now_ms E).
Proof. intros w r w' [= _ <-] path H. exact H. Qed.

Lemma draw_uuid_keeps_files (E : env) : preserves keeps_files (draw_uuid E).
Proof. intros w r w' [= _ <-] path H. exact H. Qed.

Lemma mkdir_keeps_files (dir : string) : preserves keeps_files (mkdir dir).
Proof. intros w r w' [= _ <-] path H. exact H. Qed.

Lemma write_bytes_keeps_files (E : env) (path data : string) :
  preserves keeps_files (write_bytes E path data).
Proof.
  intros w r w'. unfold write_bytes.
  destruct (write_error E path) as [[cls msg] |]; intros [= _ <-] p H;
    [exact H |].
  cbn [files log].
  destruct (decide (path = p)) as [-> | Hne].
  - rewrite lookup_insert_eq. eauto.
  - rewrite lookup_insert_ne by exact Hne. exact H.
Qed.

Lemma st_size_keeps_files (path : string) : preserves keeps_files (st_size path).
Proof.
  intros w r w'. unfold st_size.
  destruct (files w !! path); intros [= _ <-] p H; exact H.
Qed.

End KeepsFiles.

Create HintDb keeps discriminated.

#[export] Hint Resolve sleep_keeps_files send_keeps_files now_ms_keeps_files
  draw_uuid_keeps_files mkdir_keeps_files write_bytes_keeps_files
  st_size_keeps_files : keeps.

(** Walks through a computation, turn by turn, for [keeps_files]. *)
Ltac keeps_files_steps :=
  repeat first
    [ apply (preserves_ret _ keeps_files_refl)
    | apply (preserves_raise _ keeps_files_refl)
    | apply (preserves_lift _ keeps_files_refl)
    | apply preserves_try
    | apply (preserves_bind _ keeps_files_trans); [| intros ?]
    | solve [eauto with keeps]
    | match goal with
      | |- Effects.preserves _ (match ?x with _ => _ end) => destruct x
      | |- Effects.preserves _ (if ?b then _ else _) => destruct b
      end ].

Section ClientKeepsFiles.
Import ComfyUI Generate Effects.

Variable E : env.
Variable settings : Settings.
Variable c : ComfyUIClient.

Lemma received_keeps_files (o : outcome) : preserves keeps_files (received o).
Proof. unfold received. keeps_files_steps. Qed.

Lemma json_of_keeps_files (r : response) : preserves keeps_files (json_of r).
Proof. unfold json_of. keeps_files_steps. Qed.

Hint Resolve received_keeps_files json_of_keeps_files : keeps.

Lemma assert_available_keeps_files :
  preserves keeps_files (assert_available E c).
Proof. unfold assert_available, is_available. keeps_files_steps. Qed.

Lemma poll_attempts_keeps_files (prompt_id : json) (n : nat) :
  preserves keeps_files (poll_attempts E c prompt_id n).
Proof. induction n as [| n IH]; cbn [poll_attempts]; keeps_files_steps. Qed.

Hint Resolve assert_available_keeps_files poll_attempts_keeps_files : keeps.

Lemma poll_until_done_keeps_files (prompt_id : json) :
  preserves keeps_files (_poll_until_done E c prompt_id).
Proof. unfold _poll_until_done. keeps_files_steps. Qed.

Hint Resolve poll_until_done_keeps_files : keeps.

Lemma generate_keeps_files (workflow : json) (client_id : option string) :
  preserves keeps_files (generate E c workflow client_id).
Proof. unfold generate. keeps_files_steps. Qed.

Lemma download_image_keeps_files (filename : json) (dest_dir fmt : string) :
  preserves keeps_files (download_image E c filename dest_dir fmt).
Proof. unfold download_image. keeps_files_steps. Qed.

Hint Resolve generate_keeps_files download_image_keeps_files : keeps.

Lemma download_all_keeps_files (params : GenerateImageInput)
    (width height batch_seed start_ms : Z) (filenames : list json) :
  forall generated_images,
    preserves keeps_files
      (download_all E settings c params width height batch_seed start_ms
                    filenames generated_images).
Proof.
  induction filenames as [| filename rest IH]; intros generated_images;
    cbn [download_all]; keeps_files_steps.
Qed.

Hint Resolve download_all_keeps_files : keeps.

Lemma batch_items_keeps_files (params : GenerateImageInput)
    (width height seed start_ms : Z) (n : nat) :
  forall i generated_images,
    preserves keeps_files
      (batch_items E settings c params width height seed start_ms
                   n i generated_images).
Proof.
  induction n as [| n IH]; intros i generated_images;
    cbn [batch_items]; keeps_files_steps.
Qed.

End ClientKeepsFiles.

(** ** The batch loop of [run_generation] *)

Section Batch.
Import ComfyUI Generate Effects.

Variable E : env.
Variable settings : Settings.
Variable c : ComfyUIClient.
Variable params : GenerateImageInput.
Variables width height seed start_ms : Z.

Lemma bind_returns {A B} (m : io A) (k : A -> io B) (w w' : world) (b : B) :
  bind m k w = (inr b, w') ->
  exists a w1, m w = (inr a, w1) /\ k a w1 = (inr b, w').
Proof.
  unfold bind. destruct (m w) as [[e | a] w1]; [discriminate |].
  intros H. exists a, w1. split; [reflexivity | exact H].
Qed.

Lemma download_all_same_submitted (batch_seed : Z) (filenames : list json) :
  forall generated_images,
    preserves same_submitted
      (download_all E settings c params width height batch_seed start_ms
                    filenames generated_images).
Proof.
  induction filenames as [| filename rest IH]; intros generated_images;
    cbn [download_all].
  - same_submitted_steps.
  - apply (preserves_bind _ same_submitted_trans);
      [apply download_image_same_submitted | intros ?].
    same_submitted_steps.
Qed.

(** A download loop that returns has added one record per filename, each
    with the seed of the item. *)
Lemma download_all_returns (batch_seed : Z) (filenames : list json) :
  forall generated_images w imgs w',
    download_all E settings c params width height batch_seed start_ms
                 filenames generated_images w = (inr imgs, w') ->
    exists new,
      imgs = generated_images ++ new
      /\ map GeneratedImage.seed new = repeat batch_seed (length filenames).
Proof.
  induction filenames as [| filename rest IH];
    intros generated_images w imgs w' Hrun; cbn [download_all] in Hrun.
  - injection Hrun as <- <-. exists []. rewrite app_nil_r. split; reflexivity.
  - apply bind_returns in Hrun. destruct Hrun as (local_path & w1 & _ & Hrun).
    apply bind_returns in Hrun. destruct Hrun as (size & w2 & _ & Hrun).
    apply bind_returns in Hrun. destruct Hrun as (now & w3 & _ & Hrun).
    apply IH in Hrun. destruct Hrun as (new & -> & Hseeds).
    eexists (_ :: new). rewrite <- app_assoc. split; [reflexivity |].
    cbn. rewrite Hseeds. reflexivity.
Qed.

(** A call of [generate] that returns has submitted its job graph, once,
    and nothing else. *)
Lemma generate_returns (workflow : json) (w w' : world)
    (filenames : list json) :
  generate E c workflow None w = (inr filenames, w') ->
  submitted (trace w') = submitted (trace w) ++ [workflow].
Proof.
  unfold generate. intros Hrun.
  apply bind_returns in Hrun. destruct Hrun as ([] & w1 & Havail & Hrun).
  apply assert_available_same_submitted in Havail.
  apply bind_returns in Hrun. destruct Hrun as (cid & w2 & Hcid & Hrun).
  injection Hcid as _ <-.
  apply bind_returns in Hrun. destruct Hrun as (o & w3 & Hsend & Hrun).
  injection Hsend as _ <-.
  assert (Hrest : same_submitted
            (mk_world (S (calls w1)) (clock_reads w1) (S (uuid_draws w1))
               (rand_draws w1) (files w1)
               (trace w1 ++ [EvHttp (mk_request POST (_base_url c +:+ "/prompt") []
                   (Some (JDict [("prompt", workflow); ("client_id", JStr cid)]))
                   (_timeout c))])) w').
  { revert Hrun. cbn [log calls clock_reads uuid_draws rand_draws files trace].
    match goal with |- ?m ?w0 = _ -> _ =>
      assert (Hp : preserves same_submitted m); [| intros Hm; exact (Hp _ _ _ Hm)]
    end.
    apply (preserves_bind _ same_submitted_trans);
      [apply received_same_submitted | intros r].
    destruct (negb (is_success r)); [same_submitted_steps |].
    apply (preserves_bind _ same_submitted_trans);
      [apply json_of_same_submitted | intros body].
    apply (preserves_bind _ same_submitted_trans);
      [same_submitted_steps | intros pid].
    apply poll_until_done_same_submitted. }
  unfold same_submitted in Hrest, Havail. rewrite Hrest. cbn [trace].
  rewrite submitted_app, Havail. reflexivity.
Qed.

Lemma item_seeds_app (s : Z) (counts counts' : list nat) :
  item_seeds s (counts ++ counts')
  = item_seeds s counts ++ item_seeds (s + Z.of_nat (length counts)) counts'.
Proof.
  revert s. induction counts as [| n rest IH]; intros s; cbn.
  - rewrite Z.add_0_r. reflexivity.
  - rewrite IH, <- app_assoc. do 3 f_equal. lia.
Qed.

(** A batch loop that returns has submitted one job graph per item, with
    consecutive seeds, and holds the records of the items in order. *)
Lemma batch_items_returns (n : nat) :
  forall i generated_images w imgs w',
    batch_items E settings c params width height seed start_ms
                n i generated_images w = (inr imgs, w') ->
    exists counts,
      length counts = n
      /\ map GeneratedImage.seed imgs
         = map GeneratedImage.seed generated_images
           ++ item_seeds (seed + i) counts
      /\ submitted (trace w')
         = submitted (trace w)
           ++ map (item_workflow settings params width height)
                  (seeds_from (seed + i) n).
Proof.
  induction n as [| n IH]; intros i acc w imgs w' Hrun;
    cbn [batch_items] in Hrun.
  - injection Hrun as <- <-. exists []. cbn. rewrite !app_nil_r.
    repeat split.
  - apply bind_returns in Hrun. destruct Hrun as (fns & w1 & Hgen & Hrun).
    apply bind_returns in Hrun. destruct Hrun as (acc' & w2 & Hdl & Hrun).
    apply generate_returns in Hgen.
    pose proof (download_all_same_submitted _ _ _ _ _ _ Hdl) as Hsame.
    apply download_all_returns in Hdl. destruct Hdl as (new & -> & Hnew).
    apply IH in Hrun. destruct Hrun as (counts & Hlen & Hseeds & Hsub).
    replace (seed + (i + 1)) with (seed + i + 1) in Hseeds, Hsub by lia.
    exists (length fns :: counts). split; [cbn; lia |]. split.
    + rewrite Hseeds, map_app, Hnew. cbn [item_seeds].
      rewrite <- !app_assoc. reflexivity.
    + rewrite Hsub. unfold same_submitted in Hsame. rewrite Hsame, Hgen.
      cbn [seeds_from map]. rewrite <- app_assoc. reflexivity.
Qed.

(** A batch loop of [k + n] items is the loop of the first [k] items and,
    when that returns, the loop of the other [n] on what it left. *)
Lemma batch_items_app (k n : nat) :
  forall i generated_images w,
    batch_items E settings c params width height seed start_ms
                (k + n) i generated_images w
    = match batch_items E settings c params width height seed start_ms
                        k i generated_images w with
      | (inr imgs, w1) =>
          batch_items E settings c params width height seed start_ms
                      n (i + Z.of_nat k) imgs w1
      | (inl e, w1) => (inl e, w1)
      end.
Proof.
  induction k as [| k IH]; intros i acc w.
  - cbn. rewrite Z.add_0_r. reflexivity.
  - cbn [Nat.add batch_items]. unfold bind at 1 3.
    destruct (generate E c _ None w) as [[e | fns] w1]; [reflexivity |].
    unfold bind at 1 2.
    destruct (download_all E settings c params width height (seed + i)
                start_ms fns acc w1) as [[e | acc'] w2]; [reflexivity |].
    rewrite IH. replace (i + 1 + Z.of_nat k) with (i + Z.of_nat (S k)) by lia.
    reflexivity.
Qed.

Lemma item_seeds_ones (counts : list nat) :
  forall s, Forall (eq 1%nat) counts ->
    item_seeds s counts = seeds_from s (length counts).
Proof.
  induction counts as [| n rest IH]; intros s Hall; [reflexivity |].
  apply Forall_cons in Hall. destruct Hall as [<- Hall].
  cbn. rewrite IH by exact Hall. reflexivity.
Qed.

Lemma seeds_from_length (s : Z) (n : nat) : length (seeds_from s n) = n.
Proof. revert s. induction n as [| n IH]; intros s; cbn; congruence. Qed.

(** A download that returns was asked for a string and returns the path
    of that name in the directory. *)
Lemma download_image_returns (filename : json) (dest_dir fmt : string)
    (w w' : world) (local_path : string) :
  download_image E c filename dest_dir fmt w = (inr local_path, w') ->
  exists name,
    filename = JStr name /\ local_path = path_join E dest_dir name.
Proof.
  unfold download_image. intros Hrun.
  apply bind_returns in Hrun. destruct Hrun as ([] & w1 & _ & Hrun).
  apply bind_returns in Hrun. destruct Hrun as (name & w2 & Hname & Hrun).
  destruct filename as [| | | | s | |]; try discriminate.
  injection Hname as <- <-.
  apply bind_returns in Hrun. destruct Hrun as (o & w3 & _ & Hrun).
  apply bind_returns in Hrun. destruct Hrun as (r & w4 & _ & Hrun).
  destruct (negb (is_success r)); [discriminate |].
  apply bind_returns in Hrun. destruct Hrun as ([] & w5 & _ & Hrun).
  injection Hrun as <- _. exists s. split; reflexivity.
Qed.

(** The download loop does the same whatever the records it starts
    with: it adds its records to them. *)
Lemma download_all_from (batch_seed : Z) (filenames : list json) :
  forall generated_images w,
    download_all E settings c params width height batch_seed start_ms
                 filenames generated_images w
    = match download_all E settings c params width height batch_seed
                         start_ms filenames [] w with
      | (inr new, w') => (inr (generated_images ++ new), w')
      | (inl e, w') => (inl e, w')
      end.
Proof.
  induction filenames as [| filename rest IH]; intros acc w;
    cbn [download_all].
  - cbn. rewrite app_nil_r. reflexivity.
  - unfold bind at 1 4.
    destruct (download_image E c filename (output_dir settings) "png" w)
      as [[e | local_path] w1]; [reflexivity |].
    unfold bind at 1 3.
    destruct (st_size local_path w1) as [[e | size] w2]; [reflexivity |].
    unfold bind at 1 2.
    destruct (now_ms E w2) as [[e | now] w3]; [reflexivity |].
    rewrite IH. rewrite (IH ([] ++ _)).
    destruct (download_all E settings c params width height batch_seed
                start_ms rest [] w3) as [[e | new] w4]; [reflexivity |].
    cbn [app]. rewrite <- app_assoc. reflexivity.
Qed.

(** A download loop that returns holds one record per filename, in
    order: the record of the file downloaded under that name. *)
Lemma download_all_records (batch_seed : Z) (filenames : list json) :
  forall w new w',
    download_all E settings c params width height batch_seed start_ms
                 filenames [] w = (inr new, w') ->
    Forall2 (record_of E settings) new filenames.
Proof.
  induction filenames as [| filename rest IH]; intros w new w' Hrun;
    cbn [download_all] in Hrun.
  - injection Hrun as <- _. constructor.
  - apply bind_returns in Hrun. destruct Hrun as (local_path & w1 & Hdl & Hrun).
    apply bind_returns in Hrun. destruct Hrun as (size & w2 & _ & Hrun).
    apply bind_returns in Hrun. destruct Hrun as (now & w3 & _ & Hrun).
    rewrite download_all_from in Hrun.
    destruct (download_all E settings c params width height batch_seed
                start_ms rest [] w3) as [[e | new'] w4] eqn:Hrest;
      [discriminate |].
    injection Hrun as <- _. cbn [app].
    apply download_image_returns in Hdl. destruct Hdl as (name & -> & ->).
    constructor; [| exact (IH _ _ _ Hrest)].
    exists name. repeat split.
Qed.

(** A batch loop that returns has run every item: it holds the records
    of the files that the jobs returned, item by item, in order. *)
Lemma batch_items_jobs (n : nat) :
  forall i generated_images w imgs w',
    batch_items E settings c params width height seed start_ms
                n i generated_images w = (inr imgs, w') ->
    exists new,
      imgs = generated_images ++ new
      /\ length (returned_by_jobs E settings c params width height seed
                                  start_ms n i w) = n
      /\ Forall2 (record_of E settings) new
           (concat (returned_by_jobs E settings c params width height seed
                                     start_ms n i w))
      /\ map GeneratedImage.seed new
         = item_seeds (seed + i)
             (map length (returned_by_jobs E settings c params width height
                                           seed start_ms n i w)).
Proof.
  induction n as [| n IH]; intros i acc w imgs w' Hrun;
    cbn [batch_items returned_by_jobs] in *.
  - injection Hrun as <- _. exists []. rewrite app_nil_r.
    repeat split. constructor.
  - apply bind_returns in Hrun. destruct Hrun as (fns & w1 & Hgen & Hrun).
    apply bind_returns in Hrun. destruct Hrun as (acc' & w2 & Hdl & Hrun).
    unfold item_workflow. rewrite Hgen.
    rewrite download_all_from in Hdl.
    destruct (download_all E settings c params width height (seed + i)
                start_ms fns [] w1) as [[e | new1] w2'] eqn:Hfirst;
      [discriminate |].
    injection Hdl as <- <-.
    pose proof (download_all_records _ _ _ _ _ Hfirst) as Hrecs.
    pose proof (download_all_returns _ _ _ _ _ _ Hfirst) as (new1' & Heq & Hseeds).
    cbn [app] in Heq. subst new1'.
    apply IH in Hrun. destruct Hrun as (new2 & -> & Hlen & Hrecs2 & Hseeds2).
    exists (new1 ++ new2). rewrite app_assoc.
    split; [reflexivity |]. split; [cbn [length]; rewrite Hlen; reflexivity |].
    split.
    + cbn [concat]. apply Forall2_app; assumption.
    + cbn [map item_seeds]. rewrite map_app, Hseeds, Hseeds2.
      replace (seed + (i + 1)) with (seed + i + 1) by lia.
      rewrite (Forall2_length _ _ _ Hrecs) || idtac. reflexivity.
Qed.

End Batch.

(** ** [run_generation] *)

Section RunGeneration.
Import ComfyUI Generate Effects.

Variable E : env.
Variable settings : Settings.
Variable params : GenerateImageInput.

Lemma try_returns {A} (m : io A) (w w' : world) (x : exn + A) :
  try m w = (inr x, w') -> m w = (x, w').
Proof. unfold try. destruct (m w) as [y w1]. intros [= <- <-]. reflexivity. Qed.

Lemma resolve_seed_returns (w w' : world) (s : Z) :
  resolve_seed E params w = (inr s, w') ->
  trace w' = trace w /\ files w' = files w
  /\ forall s0, Models.seed params = Some s0 -> s = s0.
Proof.
  unfold resolve_seed. destruct (Models.seed params) as [s1 |].
  - intros [= <- <-]. repeat split. intros s0 [= <-]. reflexivity.
  - intros [= <- <-]. repeat split. discriminate.
Qed.

(** C6, as amended: a run that succeeds has processed the items of the
    batch in order, the job graph of item [i] built with the seed
    [s + i] and the parameters of the request.  [jobs] being the lists of
    filenames that the calls of [client.generate] returned, one list per
    item, the result holds one record per returned filename, in order:
    the record of the file downloaded under that name, with the seed
    [s + i] for the filenames of item [i].  When every job returned
    exactly one filename there are exactly as many records as items, with
    the seeds [s, s + 1, ..., s + b - 1]. *)
Theorem run_generation_records_follow_items (w wa w0 w' : world)
    (r : GenerationResult) (width height start_ms s : Z) :
  resolve_dimensions (aspect_ratio params) (Models.width params)
    (Models.height params) (default_width settings)
    (default_height settings) = (width, height) ->
  now_ms E w = (inr start_ms, wa) ->
  resolve_seed E params wa = (inr s, w0) ->
  run_generation E settings params w = (inr r, w') ->
  success r = true ->
  let jobs :=
    returned_by_jobs E settings (get_comfyui_client settings) params
      width height s start_ms (Z.to_nat (batch_size params)) 0 w0 in
  (forall s0, Models.seed params = Some s0 -> s = s0)
  /\ length jobs = Z.to_nat (batch_size params)
  /\ Forall2 (record_of E settings) (images r) (concat jobs)
  /\ map GeneratedImage.seed (images r) = item_seeds s (map length jobs)
  /\ total_generated r = Z.of_nat (length (concat jobs))
  /\ submitted (trace w')
     = submitted (trace w)
       ++ map (item_workflow settings params width height)
              (seeds_from s (Z.to_nat (batch_size params)))
  /\ (Forall (fun filenames => length filenames = 1%nat) jobs ->
      length (images r) = Z.to_nat (batch_size params)
      /\ map GeneratedImage.seed (images r)
         = seeds_from s (Z.to_nat (batch_size params))).
Proof.
  intros Hdims Hnow Hseed Hrun Hok jobs. unfold run_generation in Hrun.
  unfold bind at 1 in Hrun. rewrite Hnow, Hdims in Hrun.
  unfold bind at 1 in Hrun. rewrite Hseed in Hrun.
  injection Hnow as _ <-.
  apply resolve_seed_returns in Hseed. destruct Hseed as (Htrace & _ & Hs).
  apply bind_returns in Hrun. destruct Hrun as (x & w3 & Htry & Hrun).
  injection Hrun as <- <-. apply try_returns in Htry.
  destruct x as [e | imgs]; [destruct e; discriminate |].
  pose proof (batch_items_returns _ _ _ _ _ _ _ _ _ _ _ _ _ _ Htry)
    as (counts & _ & _ & Hsub).
  apply batch_items_jobs in Htry. fold jobs in Htry.
  destruct Htry as (new & Himgs & Hlen & Hrecs & Hseeds).
  cbn [app] in Himgs. subst new.
  rewrite Z.add_0_r in Hseeds, Hsub.
  cbn [images total_generated result_of].
  split; [exact Hs |]. split; [exact Hlen |]. split; [exact Hrecs |].
  split; [exact Hseeds |].
  split; [rewrite (Forall2_length _ _ _ Hrecs); reflexivity |].
  split; [rewrite Hsub, Htrace; reflexivity |].
  intros Hones.
  assert (Hseq : map GeneratedImage.seed imgs
                 = seeds_from s (Z.to_nat (batch_size params))).
  { rewrite Hseeds, item_seeds_ones, length_map, Hlen; [reflexivity |].
    apply List.Forall_forall. intros n Hn. apply in_map_iff in Hn.
    destruct Hn as (l & <- & Hl).
    rewrite List.Forall_forall in Hones. symmetry. apply Hones. exact Hl. }
  split; [| exact Hseq].
  rewrite <- (length_map GeneratedImage.seed), Hseq. apply seeds_from_length.
Qed.

(** The message that a result carries for an exception. *)
Lemma result_of_failure (e : exn) :
  success (result_of (inl e)) = false
  /\ images (result_of (inl e)) = []
  /\ total_generated (result_of (inl e)) = 0
  /\ (exists msg, error (result_of (inl e)) = Some msg)
  /\ (forall msg,
        e = ComfyUIUnavailableError msg \/ e = ComfyUIGenerationError msg ->
        error (result_of (inl e)) = Some msg).
Proof.
  destruct e as [m | m | cls m]; cbn; repeat split; eauto;
    intros msg [[=] | [=]]; subst; reflexivity.
Qed.

(** C4, as amended: when an item of a batch raises after [k] earlier
    items completed and downloaded their artifacts, the run stops there,
    with [m] items never started: it returns in the world of the raise a
    result with [success = false], the message of the error, no record
    and a count of zero.  The files that the earlier items downloaded
    stay on disk; the result does not list them. *)
Theorem run_generation_aborts_on_failure (k m : nat) (w wa w0 w1 w2 : world)
    (start_ms seed width height : Z) (done : list GeneratedImage.t)
    (e : exn) :
  batch_size params = Z.of_nat (k + (1 + m)) ->
  resolve_dimensions (aspect_ratio params) (Models.width params)
    (Models.height params) (default_width settings)
    (default_height settings) = (width, height) ->
  now_ms E w = (inr start_ms, wa) ->
  resolve_seed E params wa = (inr seed, w0) ->
  batch_items E settings (get_comfyui_client settings) params width height
              seed start_ms k 0 [] w0 = (inr done, w1) ->
  batch_items E settings (get_comfyui_client settings) params width height
              seed start_ms 1 (Z.of_nat k) done w1 = (inl e, w2) ->
  run_generation E settings params w = (inr (result_of (inl e)), w2)
  /\ success (result_of (inl e)) = false
  /\ images (result_of (inl e)) = []
  /\ total_generated (result_of (inl e)) = 0
  /\ (exists msg, error (result_of (inl e)) = Some msg)
  /\ (forall msg,
        e = ComfyUIUnavailableError msg \/ e = ComfyUIGenerationError msg ->
        error (result_of (inl e)) = Some msg)
  /\ keeps_files w1 w2.
Proof.
  intros Hsize Hdims Hnow Hseed Hdone Hfail.
  split; [| split; [| split; [| split; [| split; [| split]]]]];
    try apply result_of_failure.
  - unfold run_generation. unfold bind at 1. rewrite Hnow, Hdims.
    unfold bind at 1. rewrite Hseed. unfold bind at 1. unfold try.
    rewrite Hsize, Nat2Z.id, batch_items_app, Hdone, Z.add_0_l.
    rewrite (batch_items_app _ _ _ _ _ _ _ _ 1 m), Hfail. reflexivity.
  - exact (batch_items_keeps_files _ _ _ _ _ _ _ _ _ _ _ _ _ _ Hfail).
Qed.

End RunGeneration.

(** ** [run_generation] on simulated backends *)

Section RunGenerationExamples.
Import ComfyUI Generate Effects Samples.

Lemma run_generation_records_follow_items_witness :
  let E := env_of (serving one_image) in
  let p := request_for 2 (Some 5) in
  let r := default (result_of (inr [])) (result_of_run (run (serving one_image) p)) in
  let jobs := [[JStr "flux_mcp_00001_.png"]; [JStr "flux_mcp_00001_.png"]] in
  (forall s0, Some 5 = Some s0 -> 5 = s0)
  /\ length jobs = 2%nat
  /\ Forall2 (record_of E default_settings) (images r) (concat jobs)
  /\ map GeneratedImage.seed (images r) = item_seeds 5 (map length jobs)
  /\ total_generated r = Z.of_nat (length (concat jobs))
  /\ submitted (trace (snd (run (serving one_image) p)))
     = [] ++ map (item_workflow default_settings p 2048 2048) (seeds_from 5 2)
  /\ (Forall (fun filenames => length filenames = 1%nat) jobs ->
      length (images r) = 2%nat
      /\ map GeneratedImage.seed (images r) = seeds_from 5 2).
Proof.
  intros E p r jobs.
  apply (run_generation_records_follow_items
           E default_settings p world0
           (snd (now_ms E world0)) (snd (now_ms E world0))
           (snd (run (serving one_image) p)) r 2048 2048 1000 5).
  - reflexivity.
  - reflexivity.
  - reflexivity.
  - vm_compute. reflexivity.
  - vm_compute. reflexivity.
Defined.

(** C6, as stated, fails: a job may return more than one artifact, and
    each gives a record.  A batch of one item whose job returns two
    output images succeeds with two records, both with the seed of the
    item. *)
Lemma batch_of_one_two_records :
  batch_size (request_for 1 (Some 5)) = 1
  /\ (success <$> result_of_run (run (serving two_images)
                                     (request_for 1 (Some 5)))) = Some true
  /\ (map GeneratedImage.seed
        <$> (images <$> result_of_run (run (serving two_images)
                                           (request_for 1 (Some 5)))))
     = Some [5; 5].
Proof. vm_compute. repeat split. Qed.

Lemma run_generation_aborts_on_failure_witness :
  let p := request_for 3 (Some 5) in
  let e := ComfyUIUnavailableError (unavailable_message
                                      (get_comfyui_client default_settings)) in
  let w1 := snd (batch_items (env_of gone_after_first_item) default_settings
                   (get_comfyui_client default_settings) p 2048 2048 5 1000
                   1 0 [] (snd (now_ms (env_of gone_after_first_item) world0))) in
  let w2 := snd (run gone_after_first_item p) in
  run_generation (env_of gone_after_first_item) default_settings p world0
    = (inr (result_of (inl e)), w2)
  /\ success (result_of (inl e)) = false
  /\ images (result_of (inl e)) = []
  /\ total_generated (result_of (inl e)) = 0
  /\ (exists msg, error (result_of (inl e)) = Some msg)
  /\ (forall msg,
        e = ComfyUIUnavailableError msg \/ e = ComfyUIGenerationError msg ->
        error (result_of (inl e)) = Some msg)
  /\ keeps_files w1 w2.
Proof.
  intros p e w1 w2.
  apply (run_generation_aborts_on_failure
           (env_of gone_after_first_item) default_settings p 1 1 world0
           (snd (now_ms (env_of gone_after_first_item) world0))
           (snd (now_ms (env_of gone_after_first_item) world0))
           w1 w2 1000 5 2048 2048
           (default [] (match fst (batch_items (env_of gone_after_first_item)
                                     default_settings
                                     (get_comfyui_client default_settings)
                                     p 2048 2048 5 1000 1 0 []
                                     (snd (now_ms (env_of gone_after_first_item)
                                                  world0))) with
                        | inr l => Some l
                        | inl _ => None
                        end))
           e).
  - reflexivity.
  - reflexivity.
  - reflexivity.
  - reflexivity.
  - vm_compute. reflexivity.
  - vm_compute. reflexivity.
Defined.

(** C4, as stated, fails: the artifact that the first item downloaded is
    on disk after the second item failed, and the result reports no
    artifact at all. *)
Lemma failed_batch_reports_no_artifact :
  let x := run gone_after_first_item (request_for 2 (Some 5)) in
  (images <$> result_of_run x) = Some []
  /\ (total_generated <$> result_of_run x) = Some 0
  /\ (success <$> result_of_run x) = Some false
  /\ files (snd x) !! "./outputs/images/flux_mcp_00001_.png"
     = Some "PNG-DATA".
Proof. vm_compute. repeat split. Qed.

End RunGenerationExamples.

(** ** The output format *)

Section OutputFormat.
Import ComfyUI Generate Effects.

Variable E : env.
Variable settings : Settings.

Lemma download_all_with_format (c : ComfyUIClient) (p : GenerateImageInput)
    (f : ImageFormat) (width height batch_seed start_ms : Z)
    (filenames : list json) :
  forall generated_images w,
    download_all E settings c (with_format p f) width height batch_seed
                 start_ms filenames
                 (map (relabel (ImageFormat_value f)) generated_images) w
    = relabelled (ImageFormat_value f)
        (download_all E settings c p width height batch_seed start_ms
                      filenames generated_images w).
Proof.
  induction filenames as [| filename rest IH]; intros acc w;
    cbn [download_all]; [reflexivity |].
  unfold bind at 1 4.
  destruct (download_image E c filename (output_dir settings) "png" w)
    as [[e | local_path] w1]; [reflexivity |].
  unfold bind at 1 3.
  destruct (st_size local_path w1) as [[e | size] w2]; [reflexivity |].
  unfold bind at 1 2.
  destruct (now_ms E w2) as [[e | now] w3]; [reflexivity |].
  rewrite <- IH. rewrite map_app. reflexivity.
Qed.

Lemma batch_items_with_format (c : ComfyUIClient) (p : GenerateImageInput)
    (f : ImageFormat) (width height seed start_ms : Z) (n : nat) :
  forall i generated_images w,
    batch_items E settings c (with_format p f) width height seed start_ms
                n i (map (relabel (ImageFormat_value f)) generated_images) w
    = relabelled (ImageFormat_value f)
        (batch_items E settings c p width height seed start_ms
                     n i generated_images w).
Proof.
  induction n as [| n IH]; intros i acc w; cbn [batch_items];
    [reflexivity |].
  unfold bind at 1 3.
  change (build_flux_workflow (prompt (with_format p f))
            (negative_prompt (with_format p f)) width height
            (steps (with_format p f)) (guidance_scale (with_format p f))
            (seed + i) (default_model settings)
            (ImageFormat_value (output_format (with_format p f))))
    with (build_flux_workflow (prompt p) (negative_prompt p) width height
            (steps p) (guidance_scale p) (seed + i) (default_model settings)
            (ImageFormat_value (output_format p))).
  destruct (generate E c _ None w) as [[e | fns] w1]; [reflexivity |].
  unfold bind at 1 2. rewrite download_all_with_format.
  destruct (download_all E settings c p width height (seed + i) start_ms
              fns acc w1) as [[e | acc'] w2]; [reflexivity |].
  cbn [relabelled]. apply IH.
Qed.

Lemma with_format_same (p : GenerateImageInput) :
  with_format p (output_format p) = p.
Proof. destruct p. reflexivity. Qed.

Lemma relabel_fixed (fmt : string) (imgs : list GeneratedImage.t) :
  map (relabel fmt) imgs = imgs ->
  Forall (fun img => GeneratedImage.format img = fmt) imgs.
Proof.
  induction imgs as [| img rest IH]; intros Hmap; [constructor |].
  cbn in Hmap. injection Hmap as Himg Hrest.
  constructor; [| exact (IH Hrest)].
  rewrite <- Himg. reflexivity.
Qed.

(** [run_generation] catches what its batch raises: it always returns. *)
Lemma run_generation_returns (p : GenerateImageInput) (w : world) :
  exists r w', run_generation E settings p w = (inr r, w').
Proof.
  unfold run_generation. unfold bind at 1. cbn [now_ms].
  destruct (resolve_dimensions _ _ _ _ _) as [width height].
  unfold bind at 1.
  assert (Hseed : exists s w2,
            resolve_seed E p
              (mk_world (calls w) (S (clock_reads w)) (uuid_draws w)
                        (rand_draws w) (files w) (trace w)) = (inr s, w2)).
  { unfold resolve_seed. destruct (Models.seed p); cbn; eauto. }
  destruct Hseed as (s & w2 & ->).
  unfold bind at 1. unfold try.
  destruct (batch_items _ _ _ _ _ _ _ _ _ _ _ w2) as [x w3].
  cbn [ret]. eauto.
Qed.

Lemma run_generation_with_format (p : GenerateImageInput) (f : ImageFormat)
    (w : world) :
  run_generation E settings (with_format p f) w
  = match run_generation E settings p w with
    | (inr r, w') => (inr (relabel_result (ImageFormat_value f) r), w')
    | (inl e, w') => (inl e, w')
    end.
Proof.
  unfold run_generation. unfold bind at 1 4.
  destruct (now_ms E w) as [[e | start_ms] w1]; [reflexivity |].
  change (resolve_dimensions (aspect_ratio (with_format p f))
            (Models.width (with_format p f)) (Models.height (with_format p f))
            (default_width settings) (default_height settings))
    with (resolve_dimensions (aspect_ratio p) (Models.width p)
            (Models.height p) (default_width settings)
            (default_height settings)).
  destruct (resolve_dimensions _ _ _ _ _) as [width height].
  change (resolve_seed E (with_format p f)) with (resolve_seed E p).
  unfold bind at 1 3.
  destruct (resolve_seed E p w1) as [[e | seed] w2]; [reflexivity |].
  unfold bind, try.
  pose proof (batch_items_with_format (get_comfyui_client settings) p f
                width height seed start_ms (Z.to_nat (batch_size p)) 0 [] w2)
    as Hfmt.
  cbn [map] in Hfmt.
  change (batch_size (with_format p f)) with (batch_size p).
  rewrite Hfmt.
  destruct (batch_items E settings (get_comfyui_client settings) p width
              height seed start_ms (Z.to_nat (batch_size p)) 0 [] w2)
    as [[e | imgs] w3]; cbn [relabelled ret].
  - destruct e; reflexivity.
  - unfold relabel_result. cbn. rewrite length_map. reflexivity.
Qed.

(** C10: the node graph that [build_flux_workflow] returns is the same
    for every value of [output_format].  A run with another output format
    does the same to the world, submitted job graphs included, and returns
    the same result but for the format label of its records, which is the
    value of the format of the request. *)
Theorem output_format_only_labels_records :
  (forall (prompt negative_prompt : string) (width height steps : Z)
          (guidance : Q) (seed : Z) (checkpoint : string)
          (fmt1 fmt2 : string),
      build_flux_workflow prompt negative_prompt width height steps guidance
                          seed checkpoint fmt1
      = build_flux_workflow prompt negative_prompt width height steps
                            guidance seed checkpoint fmt2)
  /\ (forall (p : GenerateImageInput) (f : ImageFormat) (w : world),
        run_generation E settings (with_format p f) w
        = match run_generation E settings p w with
          | (inr r, w') => (inr (relabel_result (ImageFormat_value f) r), w')
          | (inl e, w') => (inl e, w')
          end)
  /\ (forall (p : GenerateImageInput) (w : world),
        match run_generation E settings p w with
        | (inr r, _) =>
            Forall (fun img => GeneratedImage.format img
                               = ImageFormat_value (output_format p))
                   (images r)
        | (inl _, _) => False
        end).
Proof.
  split; [reflexivity |]. split; [apply run_generation_with_format |].
  intros p w.
  pose proof (run_generation_with_format p (output_format p) w) as Hfmt.
  rewrite with_format_same in Hfmt.
  destruct (run_generation E settings p w) as [[e | r] w'] eqn:Hrun.
  - destruct (run_generation_returns p w) as (r & w1 & Hr). congruence.
  - injection Hfmt as Hr. apply relabel_fixed.
    rewrite Hr at 2. reflexivity.
Qed.

End OutputFormat.

(** ** The REST handlers: the text of a request *)

Section RequestText.
Import Adapter Samples.

Lemma drop_white_space_length (l : list ascii) :
  (length (drop_white_space l) <= length l)%nat.
Proof.
  induction l as [| ch l IH]; cbn; [lia |].
  destruct (is_white_space ch); cbn; lia.
Qed.

Lemma string_of_list_length (l : list ascii) :
  String.length (string_of_list_ascii l) = length l.
Proof. induction l as [| ch l IH]; cbn; congruence. Qed.

Lemma list_of_string_length (s : string) :
  length (list_ascii_of_string s) = String.length s.
Proof. induction s as [| ch s IH]; cbn; congruence. Qed.

Lemma trim_length (s : string) : len (trim s) <= len s.
Proof.
  unfold len, trim. rewrite string_of_list_length, length_rev.
  pose proof (drop_white_space_length
                (rev (drop_white_space (list_ascii_of_string s)))) as H1.
  pose proof (drop_white_space_length (list_ascii_of_string s)) as H2.
  rewrite length_rev in H1. rewrite list_of_string_length in H2. lia.
Qed.

Lemma prefix_length (n : nat) (s : string) :
  len (prefix n s) = Z.of_nat (Nat.min n (String.length s)).
Proof.
  unfold len, prefix.
  rewrite string_of_list_length, length_take, list_of_string_length.
  reflexivity.
Qed.

(** What the validation of the prompt makes of a text cut to 2000
    characters: the text is accepted exactly when at least three
    characters are left once the white space around the cut is gone. *)
Lemma truncated_prompt_validation (s : string) :
  validate_str "prompt" 3 2000 (prefix 2000 s)
  = if len (trim (prefix 2000 s)) <? 3
    then validation_error "prompt"
    else inr (trim (prefix 2000 s)).
Proof.
  unfold validate_str.
  pose proof (trim_length (prefix 2000 s)) as Htrim.
  rewrite prefix_length in Htrim.
  destruct (Z.ltb_spec (len (trim (prefix 2000 s))) 3); [reflexivity |].
  destruct (Z.ltb_spec 2000 (len (trim (prefix 2000 s)))); [lia |].
  reflexivity.
Qed.

(** The image handler answers 400 and does nothing else when the text of
    the request has fewer than three characters once stripped. *)
Lemma images_short_text_rejected (E : env) (settings : Settings)
    (d : list (string * json)) (s : string) (w : world) :
  request_text "description" "prompt" d = JStr s ->
  len (strip s) < 3 ->
  ImagesRest.generate E settings (Some (JDict d)) w
  = (inr ImagesRest.short_prompt_response, w)
  /\ ImagesRest.resp_status ImagesRest.short_prompt_response = 400.
Proof.
  intros Htext Hshort. split; [| reflexivity].
  unfold ImagesRest.generate, ImagesRest.parse_request.
  assert (Hbody : or_ (JDict d) (JDict []) = JDict d)
    by (destruct d; reflexivity).
  rewrite Hbody. cbn [get_or and_then]. revert Htext.
  unfold request_text, or_, dict_get, default, from_option, id.
  destruct (truthy (match assoc "description" d with
                    | Some v => v | None => JNull end)) eqn:Hd.
  - cbn [and_then]. intros Htext.
    assert (Hv : match assoc "description" d with
                 | Some v => v | None => JNull end = JStr s).
    { destruct (truthy (match assoc "description" d with
                 | Some v => v | None => JNull end)); [exact Htext | discriminate]. }
    rewrite Hv. cbn [ImagesRest.stripped and_then].
    destruct (Z.ltb_spec (len (strip s)) 3); [reflexivity | lia].
  - cbn [and_then]. intros Htext. rewrite Htext.
    cbn [ImagesRest.stripped and_then].
    destruct (Z.ltb_spec (len (strip s)) 3); [reflexivity | lia].
Qed.

(** The audio handler answers 400 when the stripped text is empty, and
    accepts a text of more than 5000 characters, cut to its first 5000. *)
Lemma audio_text_checked (d : list (string * json)) (s : string) :
  request_text "text" "prompt" d = JStr s ->
  AudioRest.parse_text (Some (JDict d))
  = if len (strip s) <? 1 then inr (inl AudioRest.empty_text_response)
    else inr (inr (JDict d,
                   if 5000 <? len (strip s) then prefix 5000 (strip s)
                   else strip s)).
Proof.
  intros Htext. unfold AudioRest.parse_text.
  assert (Hbody : or_ (JDict d) (JDict []) = JDict d)
    by (destruct d; reflexivity).
  rewrite Hbody. cbn [get_or and_then]. revert Htext.
  unfold request_text, or_, dict_get, default, from_option, id.
  destruct (truthy (match assoc "text" d with
                    | Some v => v | None => JNull end)) eqn:Hd.
  - cbn [and_then]. intros Htext.
    assert (Hv : match assoc "text" d with
                 | Some v => v | None => JNull end = JStr s).
    { destruct (truthy (match assoc "text" d with
                 | Some v => v | None => JNull end)); [exact Htext | discriminate]. }
    rewrite Hv. reflexivity.
  - cbn [and_then]. intros Htext. rewrite Htext. reflexivity.
Qed.

(** C7 at the input where the code departs from it: a description of
    2001 characters (two letters, 1998 spaces, one letter) passes the
    length check of the image handler and is cut to 2000 characters; the
    validation of the request strips the cut text to two letters and
    raises, so the handler raises: the request is rejected, not accepted
    with the truncated text. *)
Theorem over_length_prompt_rejected (E : env) (settings : Settings)
    (w : world) :
  len padded_prompt = 2001
  /\ len (strip padded_prompt) = 2001
  /\ trim (prefix 2000 (strip padded_prompt)) = "ab"
  /\ ImagesRest.parse_request E (Some padded_body)
     = inl (OtherError "ValidationError" "prompt")
  /\ ImagesRest.generate E settings (Some padded_body) w
     = (inl (OtherError "ValidationError" "prompt"), w).
Proof. vm_compute. repeat split. Qed.

End RequestText.

(** ** The REST handlers: failures of the generation *)

Section GenerationFailures.
Import Generate Chatterbox.

(** The result of [run_generation] is the one of the [return] statement
    that the outcome of its [try] block selects. *)
Lemma run_generation_result (E : env) (settings : Settings)
    (params : GenerateImageInput) (w : world) :
  exists x w', run_generation E settings params w = (inr (result_of x), w').
Proof.
  unfold run_generation. unfold bind at 1. cbn [now_ms].
  destruct (resolve_dimensions _ _ _ _ _) as [width height].
  unfold bind at 1.
  assert (Hseed : exists s w2,
            resolve_seed E params
              (mk_world (calls w) (S (clock_reads w)) (uuid_draws w)
                        (rand_draws w) (files w) (trace w)) = (inr s, w2)).
  { unfold resolve_seed. destruct (Models.seed params); cbn; eauto. }
  destruct Hseed as (s & w2 & ->).
  unfold bind at 1. unfold try.
  destruct (batch_items _ _ _ _ _ _ _ _ _ _ _ w2) as [x w3].
  cbn [ret]. eauto.
Qed.

(** C8: a request that passes the validation of a REST handler is
    answered with status 200 when the generation fails.  On the image
    surface, when the batch of [run_generation] raises (backend
    unavailable, job failure, timeout or any other exception), the answer
    has status 200 and the body [success = false], no image, a count of
    zero and the error message: the message of the exception for the two
    errors of the client, the name of the class and the text for another
    exception.  On the audio surface an exception of [generate_audio] is
    answered with status 200, [success = false] and the text of the
    exception. *)
Theorem generation_failure_is_answered_200
    (E : env) (settings : Settings) (request_json : option json)
    (params : GenerateImageInput) (w wa w0 w' : world)
    (start_ms seed width height : Z) (failure : exn)
    (A : aenv) (audio_settings : AudioConfig.Settings)
    (audio_json : option json) (body : json) (text : string)
    (j : AudioRest.job) (aw aw1 aw2 : aworld) (e : exn) :
  ImagesRest.parse_request E request_json = inr (inr params) ->
  resolve_dimensions (aspect_ratio params) (Models.width params)
    (Models.height params) (default_width settings)
    (default_height settings) = (width, height) ->
  now_ms E w = (inr start_ms, wa) ->
  resolve_seed E params wa = (inr seed, w0) ->
  batch_items E settings (ComfyUI.get_comfyui_client settings) params
              width height seed start_ms (Z.to_nat (batch_size params)) 0 []
              w0 = (inl failure, w') ->
  AudioRest.parse_text audio_json = inr (inr (body, text)) ->
  AudioRest.prepare A audio_settings body text aw = (inr j, aw1) ->
  generate_audio A audio_settings (AudioRest.job_text j)
    (Some (AudioRest.job_output_path j)) (AudioRest.job_audio_prompt_path j)
    (AudioRest.job_language_id j) (AudioRest.job_voice j)
    (AudioRest.job_speed j) aw1 = (inl e, aw2) ->
  ImagesRest.generate E settings request_json w
  = (inr (ImagesRest.mk_json_response
            (JDict [("success", JBool false);
                    ("images", JList []);
                    ("total_generated", JInt 0);
                    ("error",
                     JStr match failure with
                          | ComfyUIUnavailableError msg
                          | ComfyUIGenerationError msg => msg
                          | OtherError cls msg => cls +:+ ": " +:+ msg
                          end)])
            200), w')
  /\ AudioRest.generate A audio_settings audio_json aw
     = (inr (AudioRest.mk_json_response
               (JDict [("success", JBool false); ("filename", JNull);
                       ("audio_path", JNull);
                       ("error",
                        JStr match e with
                             | ComfyUIUnavailableError msg
                             | ComfyUIGenerationError msg
                             | OtherError _ msg => msg
                             end)])
               200), aw2).
Proof.
  intros Hparse Hdims Hnow Hseed Hbatch Htext Hprep Hgen. split.
  - unfold ImagesRest.generate. unfold bind at 1. rewrite Hparse.
    cbn [lift]. unfold bind at 1. unfold run_generation.
    unfold bind at 1. rewrite Hnow, Hdims.
    unfold bind at 1. rewrite Hseed.
    unfold bind at 1. unfold try. rewrite Hbatch. cbn [ret].
    destruct failure; reflexivity.
  - unfold AudioRest.generate. unfold bind at 1. rewrite Htext. cbn [lift].
    unfold bind at 1. rewrite Hprep. unfold bind, try. rewrite Hgen.
    destruct e; reflexivity.
Qed.

End GenerationFailures.

Section GenerationFailuresExamples.
Import Generate Chatterbox Samples.

Lemma generation_failure_is_answered_200_witness :
  let E := env_of unreachable in
  let A := audio_env loads_fine (inl (OtherError "RuntimeError" "CUDA out of memory")) in
  ImagesRest.generate E default_settings (Some apple_body) world0
  = (inr (ImagesRest.mk_json_response
            (JDict [("success", JBool false);
                    ("images", JList []);
                    ("total_generated", JInt 0);
                    ("error",
                     JStr ("ComfyUI no responde en http://127.0.0.1:8188. "
                           +:+ "Aseg" +:+ String (ascii_of_nat 250) ""
                           +:+ "rate de iniciar ComfyUI con GPU: ejecuta "
                           +:+ "scripts/run_comfyui_gpu.ps1 "
                           +:+ "(ver COMFYUI_SETUP.md)."))])
            200),
     snd (ImagesRest.generate E default_settings (Some apple_body) world0))
  /\ AudioRest.generate A audio_settings (Some hola_body) aworld0
     = (inr (AudioRest.mk_json_response
               (JDict [("success", JBool false); ("filename", JNull);
                       ("audio_path", JNull);
                       ("error", JStr "CUDA out of memory")])
               200),
        snd (AudioRest.generate A audio_settings (Some hola_body) aworld0)).
Proof.
  intros E A.
  apply (generation_failure_is_answered_200
           E default_settings (Some apple_body)
           (mk_input "A red apple on a white table" default_negative_prompt
                     SQUARE None None 8 4 None PNG 1 JSON)
           world0
           (snd (now_ms E world0))
           (snd (draw_randint E (snd (now_ms E world0))))
           (snd (ImagesRest.generate E default_settings (Some apple_body)
                                     world0))
           1000 42 2048 2048
           (ComfyUIUnavailableError
              (ComfyUI.unavailable_message
                 (ComfyUI.get_comfyui_client default_settings)))
           A audio_settings (Some hola_body) hola_body "Hola mundo"
           (AudioRest.mk_job "Hola mundo" "./outputs/audio/chatterbox_1000.wav"
              None (JStr "en")
              (mk_voice (4 # 10) (5 # 10) (6 # 10) 2 (5 # 100) 1) 1)
           aworld0
           (snd (AudioRest.prepare A audio_settings hola_body "Hola mundo"
                                   aworld0))
           (snd (AudioRest.generate A audio_settings (Some hola_body) aworld0))
           (OtherError "RuntimeError" "CUDA out of memory")).
  - vm_compute. reflexivity.
  - reflexivity.
  - reflexivity.
  - reflexivity.
  - vm_compute. reflexivity.
  - vm_compute. reflexivity.
  - vm_compute. reflexivity.
  - vm_compute. reflexivity.
Defined.

End GenerationFailuresExamples.

(** ** The model of the audio service *)

Section ModelLoading.
Import Chatterbox.

Variable A : aenv.
Variable settings : AudioConfig.Settings.

(** Once the global holds a model, [get_model] returns it and loads
    nothing. *)
Lemma get_model_cached (w : aworld) (m : TTSModel) :
  _model w = Some m -> get_model A settings w = (inr (Some m), w).
Proof. intros Hm. unfold get_model. rewrite Hm. reflexivity. Qed.

(** A first call that succeeds loads once and leaves the model in the
    global. *)
Lemma get_model_first_call (w : aworld) (langs : list (string * string))
    (m : TTSModel) :
  _model w = None ->
  chatterbox_import A = Some langs ->
  from_pretrained A (load_calls w) (pick_device A settings) = inr m ->
  exists w',
    get_model A settings w = (inr (Some m), w')
    /\ _model w' = Some m
    /\ load_calls w' = S (load_calls w)
    /\ torch_load_wrappers w' = torch_load_wrappers w.
Proof.
  intros Hnone Himport Hload. unfold get_model. rewrite Hnone, Himport.
  destruct (String.eqb (pick_device A settings) "cpu");
    cbn [set_languages set_torch_load load_calls count_load
         torch_load_wrappers _model set_model SUPPORTED_LANGUAGES
         audio_clock_reads audio_files];
    rewrite Hload; cbn; eauto.
Qed.

(** X21: calls that do not overlap load the model once: the second call
    returns the model of the first and the count of loads stays at one. *)
Lemma get_model_twice_in_turn (langs : list (string * string))
    (m : TTSModel) :
  chatterbox_import A = Some langs ->
  from_pretrained A 0 (pick_device A settings) = inr m ->
  exists w1,
    get_model A settings aworld0 = (inr (Some m), w1)
    /\ get_model A settings w1 = (inr (Some m), w1)
    /\ load_calls w1 = 1%nat.
Proof.
  intros Himport Hload.
  destruct (get_model_first_call aworld0 langs m eq_refl Himport Hload)
    as (w1 & Hfirst & Hm & Hcalls & _).
  exists w1. split; [exact Hfirst |]. split; [| exact Hcalls].
  apply get_model_cached. exact Hm.
Qed.

(** A thread that runs alone goes through [get_model] in seven steps. *)
Lemma run_alone_get_model (w : aworld) :
  run_alone A settings 7 AtCheck w
  = (Finished (fst (get_model A settings w)), snd (get_model A settings w)).
Proof.
  unfold get_model. cbn [run_alone step].
  destruct (_model w) as [m |] eqn:Hm; cbn [run_alone step fst snd];
    [reflexivity |].
  destruct (chatterbox_import A) as [langs |]; cbn [run_alone step fst snd];
    [| reflexivity].
  destruct (String.eqb (pick_device A settings) "cpu") eqn:Hcpu;
    cbn [set_languages set_torch_load load_calls count_load
         torch_load_wrappers _model set_model SUPPORTED_LANGUAGES
         audio_clock_reads audio_files];
    destruct (from_pretrained A (load_calls w) (pick_device A settings))
      as [e | m];
    cbn [run_alone step fst snd]; rewrite ?Hcpu; reflexivity.
Qed.

(** C9 at the input where the code departs from it: two threads enter
    [get_model] for the first time.  Each tests the global before the
    other has stored a model, so each calls the loader: the model is
    loaded twice, and the two calls return different models whenever the
    two loads give different ones. *)
Theorem concurrent_first_calls_load_twice (langs : list (string * string))
    (m1 m2 : TTSModel) :
  chatterbox_import A = Some langs ->
  from_pretrained A 0 (pick_device A settings) = inr m1 ->
  from_pretrained A 1 (pick_device A settings) = inr m2 ->
  exists w,
    run_threads A settings
      ([true; false] ++ repeat true 6 ++ repeat false 6)
      AtCheck AtCheck aworld0
    = (Finished (inr (Some m1)), Finished (inr (Some m2)), w)
    /\ load_calls w = 2%nat
    /\ _model w = Some m2.
Proof.
  intros Himport Hload1 Hload2. unfold aworld0.
  destruct (String.eqb (pick_device A settings) "cpu") eqn:Hcpu;
    simpl; rewrite Himport; simpl; rewrite ?Hcpu; simpl;
    rewrite Hload1; simpl; rewrite ?Hcpu; simpl;
    rewrite Hload2; simpl; rewrite ?Hcpu; simpl;
    eexists; repeat split.
Qed.

End ModelLoading.

Section ModelLoadingExamples.
Import Chatterbox Samples.

Lemma concurrent_first_calls_load_twice_witness :
  exists w,
    run_threads (audio_env loads_fine (inr [])) audio_settings
      ([true; false] ++ repeat true 6 ++ repeat false 6)
      AtCheck AtCheck aworld0
    = (Finished (inr (Some (mk_model 0 24000))),
       Finished (inr (Some (mk_model 1 24000))), w)
    /\ load_calls w = 2%nat
    /\ _model w = Some (mk_model 1 24000).
Proof.
  apply (concurrent_first_calls_load_twice
           (audio_env loads_fine (inr [])) audio_settings
           [("en", "English"); ("es", "Spanish")]
           (mk_model 0 24000) (mk_model 1 24000));
    reflexivity.
Defined.

End ModelLoadingExamples.

(** ** More on the polling loop *)

Section PollingBounds.
Import ComfyUI Outcome Shapes.

Variable E : env.
Variable c : ComfyUIClient.
Variable prompt_id : string.

Lemma pure_ret {W A} (a : A) : pure (@ret W A a).
Proof. intros w r w' [= _ <-]. reflexivity. Qed.

Lemma pure_raise {W A} (e : exn) : pure (@raise W A e).
Proof. intros w r w' [= _ <-]. reflexivity. Qed.

Lemma pure_lift {W A} (x : exn + A) : pure (@lift W A x).
Proof. intros w r w' [= _ <-]. reflexivity. Qed.

Lemma pure_received (o : outcome) : pure (received o).
Proof. destruct o; intros w x w' [= _ <-]; reflexivity. Qed.

Lemma pure_json_of (r : response) : pure (json_of r).
Proof.
  unfold json_of. destruct (decoded r); intros w x w' [= _ <-]; reflexivity.
Qed.

Lemma ends_or_ret {W A} (next : st W A) (a : A) : ends_or next (ret a).
Proof. intros w r w' H. left. exact (pure_ret a _ _ _ H). Qed.

Lemma ends_or_raise {W A} (next : st W A) (e : exn) : ends_or next (raise e).
Proof. intros w r w' H. left. exact (pure_raise e _ _ _ H). Qed.

Lemma ends_or_next {W A} (next : st W A) : ends_or next next.
Proof. intros w r w' H. right. exact H. Qed.

Lemma ends_or_bind {W A B} (next : st W B) (m : st W A) (k : A -> st W B) :
  pure m -> (forall a, ends_or next (k a)) -> ends_or next (bind m k).
Proof.
  intros Hm Hk w r w'. unfold bind.
  destruct (m w) as [[e | a] w1] eqn:Hmw.
  - intros [= _ <-]. left. exact (Hm _ _ _ Hmw).
  - rewrite (Hm _ _ _ Hmw). apply Hk.
Qed.

(** What follows the request of one turn of the loop either ends where
    it is or is the rest of the loop. *)
Lemma poll_attempts_turn (n : nat) (w w' : world)
    (r : exn + option (list json)) :
  poll_attempts E c (JStr prompt_id) (S n) w = (r, w') ->
  w' = after_polls c prompt_id 1 w
  \/ poll_attempts E c (JStr prompt_id) n (after_polls c prompt_id 1 w) = (r, w').
Proof.
  cbn [poll_attempts]. unfold bind at 1. unfold sleep at 1.
  unfold bind at 1. unfold send at 1.
  cbn [log calls clock_reads uuid_draws rand_draws files trace].
  cbn [str_]. fold (history_request c prompt_id). rewrite after_polls_one.
  generalize (after_polls c prompt_id 1 w). intros w1. revert w1 r w'.
  change (ends_or (poll_attempts E c (JStr prompt_id) n)
    (history_resp <- received (backend E (calls w) (history_request c prompt_id)) ;;
     if negb (is_success history_resp)
     then raise (ComfyUIGenerationError
                   (history_error_message (status_code history_resp)))
     else
       history <- json_of history_resp ;;
       present <- lift (contains_value (JStr prompt_id) history) ;;
       if negb present then poll_attempts E c (JStr prompt_id) n
       else
         job_data <- lift (subscript_value E history (JStr prompt_id)) ;;
         status <- lift (get_or "status" (JDict []) job_data) ;;
         has_error <- lift (contains "error" status) ;;
         if has_error
         then
           status' <- lift (subscript job_data "status") ;;
           error_detail <-
             lift (get_or "error" (JStr "Error desconocido") status') ;;
           raise (ComfyUIGenerationError (job_error_message E error_detail))
         else
           filenames <- lift (_extract_output_filenames job_data) ;;
           match filenames with
           | [] => poll_attempts E c (JStr prompt_id) n
           | _ => ret (Some filenames)
           end)).
  repeat first
    [ apply ends_or_bind; [first [apply pure_received | apply pure_json_of
                                 | apply pure_lift] | intros ?]
    | apply ends_or_raise
    | apply ends_or_ret
    | apply ends_or_next
    | match goal with
      | |- ends_or _ (match ?x with _ => _ end) => destruct x
      | |- ends_or _ (if ?b then _ else _) => destruct b
      end ].
Qed.

(** The loop makes at most as many polls as it has attempts, at least
    one when it has any, and does nothing else. *)
Lemma poll_attempts_bounded (n : nat) :
  forall w r w',
    poll_attempts E c (JStr prompt_id) n w = (r, w') ->
    exists k, (k <= n)%nat /\ (0 < n -> 0 < k)%nat
              /\ w' = after_polls c prompt_id k w.
Proof.
  induction n as [| n IH]; intros w r w' Hrun.
  - injection Hrun as _ <-. exists 0%nat.
    rewrite after_polls_zero. repeat split; lia.
  - apply poll_attempts_turn in Hrun. destruct Hrun as [-> | Hrun].
    + exists 1%nat. repeat split; lia.
    + apply IH in Hrun. destruct Hrun as (k & Hk & _ & ->).
      exists (S k). rewrite after_polls_succ. repeat split; lia.
Qed.

Lemma max_attempts_positive (attempts : Z) :
  max_attempts c = inr attempts -> 1 <= attempts.
Proof.
  unfold max_attempts. destruct (int_of_div_by_one (_timeout c)); cbn;
    [discriminate |]. intros [= <-]. lia.
Qed.

(** X1: whatever the backend answers, a wait polls at least once and at
    most [max_attempts] times, sleeps the interval before each poll, and
    does nothing else: it ends in the world of its start after [k] turns
    of sleep and poll, so it writes no file and submits nothing. *)
Theorem poll_until_done_polls_bounded (w w' : world) (r : exn + list json)
    (attempts : Z) :
  max_attempts c = inr attempts ->
  _poll_until_done E c (JStr prompt_id) w = (r, w') ->
  exists k : nat,
    1 <= Z.of_nat k <= attempts
    /\ w' = after_polls c prompt_id k w
    /\ files w' = files w
    /\ calls w' = (calls w + k)%nat.
Proof.
  intros Hmax Hrun. pose proof (max_attempts_positive _ Hmax) as Hpos.
  unfold _poll_until_done in Hrun. unfold bind at 1 in Hrun.
  rewrite Hmax in Hrun. cbn [lift] in Hrun. unfold bind in Hrun.
  destruct (poll_attempts E c (JStr prompt_id) (Z.to_nat attempts) w)
    as [[e | found] w1] eqn:Hloop.
  - injection Hrun as _ <-. apply poll_attempts_bounded in Hloop.
    destruct Hloop as (k & Hk & Hk0 & ->). exists k.
    repeat split; lia.
  - apply poll_attempts_bounded in Hloop.
    destruct Hloop as (k & Hk & Hk0 & ->).
    assert (Hw : w' = after_polls c prompt_id k w)
      by (destruct found; injection Hrun as _ <-; reflexivity).
    subst w'. exists k. repeat split; lia.
Qed.

End PollingBounds.

(** ** More on the client of the backend *)

Section ClientMore.
Import ComfyUI Outcome Effects.

Variable E : env.
Variable c : ComfyUIClient.

(** One turn of the loop on a reply that is not 2xx. *)
Lemma poll_attempts_bad_status (prompt_id : string) (n : nat) (w : world)
    (r : response) :
  poll_reply E c prompt_id w 0 = Reply r ->
  is_success r = false ->
  poll_attempts E c (JStr prompt_id) (S n) w
  = (inl (ComfyUIGenerationError (history_error_message (status_code r))),
     after_polls c prompt_id 1 w).
Proof.
  unfold poll_reply. rewrite Nat.add_0_r. intros Hreply Hbad.
  cbn [poll_attempts]. unfold bind at 1. unfold sleep at 1.
  unfold bind at 1. unfold send at 1.
  cbn [log calls clock_reads uuid_draws rand_draws files trace].
  cbn [str_]. fold (history_request c prompt_id).
  rewrite after_polls_one, Hreply.
  unfold bind. cbn [received ret]. rewrite Hbad. reflexivity.
Qed.

(** X2: when the history endpoint answers a poll with a status outside
    2xx, the polls before it having shown no terminal state, the wait
    raises the generation error right after that poll and polls no more;
    the message of the error ends with the status, in decimal. *)
Theorem poll_raises_on_http_error (prompt_id : string) (N : nat) (w : world)
    (r : response) (attempts : Z) :
  (forall k, (k < N)%nat ->
     pending (observe prompt_id (poll_reply E c prompt_id w k))) ->
  poll_reply E c prompt_id w N = Reply r ->
  is_success r = false ->
  max_attempts c = inr attempts ->
  Z.of_nat N + 1 <= attempts ->
  _poll_until_done E c (JStr prompt_id) w
  = (inl (ComfyUIGenerationError
            ("Error consultando historial de ComfyUI: HTTP "
             +:+ pretty (status_code r))),
     after_polls c prompt_id (N + 1) w).
Proof.
  intros Hpend Hreply Hbad Hmax Hle.
  change (ComfyUIGenerationError _)
    with (ComfyUIGenerationError (history_error_message (status_code r))).
  unfold _poll_until_done. unfold bind at 1. rewrite Hmax. cbn [lift].
  replace (Z.to_nat attempts) with (N + S (Z.to_nat attempts - N - 1))%nat
    by lia.
  unfold bind at 1. rewrite poll_attempts_pending by exact Hpend.
  assert (Hreply' : poll_reply E c prompt_id (after_polls c prompt_id N w) 0
                    = Reply r).
  { rewrite <- Hreply. unfold poll_reply, after_polls. cbn. f_equal. lia. }
  rewrite (poll_attempts_bad_status _ _ _ _ Hreply' Hbad), after_polls_add.
  reflexivity.
Qed.

(** X3: from the entry of a job whose outputs are well formed (every
    node output an object, its images a list of objects with a filename
    and a type), the extraction returns the filenames of the images
    tagged "output", node by node and image by image, in order, and
    leaves the others out. *)
Theorem extract_keeps_output_tagged_in_order (fields : list (string * json))
    (arts : list artifact) :
  job_artifacts fields = Some arts ->
  _extract_output_filenames (JDict fields)
  = inr (map (fun a => JStr (art_filename a))
             (List.filter (fun a => String.eqb (art_type a) "output") arts)).
Proof. intros Harts. exact (extract_output_filenames_retained fields arts Harts). Qed.

Lemma image_filenames_missing_filename (pre post : list json)
    (d : list (string * json)) (arts : list artifact) (acc : list json) :
  artifacts_of pre = Some arts ->
  assoc "type" d = Some (JStr "output") ->
  assoc "filename" d = None ->
  image_filenames (pre ++ JDict d :: post) acc
  = inl (OtherError "KeyError" "'filename'").
Proof.
  revert arts acc. induction pre as [| img rest IH]; intros arts acc Harts Ht Hf.
  - cbn [app image_filenames and_then get_or]. rewrite Ht.
    cbn [default from_option id eq_str]. cbn [String.eqb and_then subscript].
    rewrite Hf. reflexivity.
  - cbn in Harts.
    destruct (artifact_of img) as [a |] eqn:Ha; [| discriminate].
    destruct (artifacts_of rest) as [l |] eqn:Hl; [| discriminate].
    destruct img as [| | | | | | di]; try discriminate. cbn in Ha.
    destruct (assoc "filename" di) as [[| | | | f | |] |] eqn:Hfi;
      try discriminate.
    destruct (assoc "type" di) as [[| | | | t | |] |] eqn:Hti;
      try discriminate.
    cbn [app image_filenames and_then get_or subscript]. rewrite Hti, Hfi.
    cbn [default from_option id eq_str and_then].
    destruct (String.eqb t "output"); apply (IH l); auto.
Qed.

(** X4: an image tagged "output" that has no filename makes the
    extraction raise [KeyError], whose text is the key between quotes,
    even when every image before it is well formed: the filenames found
    so far are lost. *)
Theorem extract_raises_on_missing_filename (node_id : string)
    (pre post : list json) (d : list (string * json))
    (arts : list artifact) :
  artifacts_of pre = Some arts ->
  assoc "type" d = Some (JStr "output") ->
  assoc "filename" d = None ->
  _extract_output_filenames
    (JDict [("outputs",
             JDict [(node_id,
                     JDict [("images", JList (pre ++ JDict d :: post))])])])
  = inl (OtherError "KeyError" "'filename'").
Proof.
  intros Harts Ht Hf. unfold _extract_output_filenames.
  cbn [get_or and_then assoc String.eqb Ascii.eqb Bool.eqb default
       from_option id values map snd node_filenames iterate].
  cbn. rewrite (image_filenames_missing_filename pre post d arts [] Harts Ht Hf).
  reflexivity.
Qed.

(** The reply to the liveness probe in the world [w]. *)
Lemma is_available_not_200 (w : world) :
  (match backend E (calls w) (get c "/system_stats" [] 5) with
   | Reply r => status_code r =? 200
   | ConnectError _ | TimeoutException _ _ => false
   | TransportError _ _ => true
   end) = false ->
  is_available E c w
  = (inr false, mk_world (S (calls w)) (clock_reads w) (uuid_draws w)
                         (rand_draws w) (files w)
                         (trace w ++ [EvHttp (get c "/system_stats" [] 5)])).
Proof.
  intros Hprobe. unfold is_available. unfold bind, send.
  cbn [log calls clock_reads uuid_draws rand_draws files trace].
  destruct (backend E (calls w) (get c "/system_stats" [] 5))
    as [m | cls m | cls m | r]; try discriminate; cbn [ret];
    rewrite ?Hprobe; reflexivity.
Qed.

(** X5: when the liveness probe is answered with a status other than
    200, or fails to connect, or times out, [generate] raises the
    unavailable error after that single call: it draws no client id,
    submits no job and polls nothing. *)
Theorem generate_unavailable_submits_nothing (workflow : json)
    (client_id : option string) (w : world) :
  (match backend E (calls w) (get c "/system_stats" [] 5) with
   | Reply r => status_code r =? 200
   | ConnectError _ | TimeoutException _ _ => false
   | TransportError _ _ => true
   end) = false ->
  exists w',
    generate E c workflow client_id w
    = (inl (ComfyUIUnavailableError (unavailable_message c)), w')
    /\ calls w' = S (calls w)
    /\ trace w' = trace w ++ [EvHttp (get c "/system_stats" [] 5)]
    /\ submitted (trace w') = submitted (trace w)
    /\ uuid_draws w' = uuid_draws w
    /\ files w' = files w.
Proof.
  intros Hprobe. eexists. split.
  - unfold generate, assert_available. unfold bind at 1. unfold bind at 1.
    rewrite (is_available_not_200 w Hprobe). cbn [raise]. reflexivity.
  - cbn [calls trace uuid_draws files]. repeat split.
    rewrite submitted_app. cbn. apply app_nil_r.
Qed.

Lemma is_available_200 (w : world) (r : response) :
  backend E (calls w) (get c "/system_stats" [] 5) = Reply r ->
  status_code r = 200 ->
  assert_available E c w
  = (inr tt, mk_world (S (calls w)) (clock_reads w) (uuid_draws w)
                      (rand_draws w) (files w)
                      (trace w ++ [EvHttp (get c "/system_stats" [] 5)])).
Proof.
  intros Hprobe Hok. unfold assert_available, is_available.
  unfold bind, send.
  cbn [log calls clock_reads uuid_draws rand_draws files trace].
  rewrite Hprobe. cbn [ret]. rewrite Hok. reflexivity.
Qed.

(** The request that enqueues [workflow] for the client id [cid]. *)
Lemma enqueue_request_is_post (workflow : json) (cid : string) :
  posted_workflow
    (EvHttp (mk_request POST (_base_url c +:+ "/prompt") []
               (Some (JDict [("prompt", workflow); ("client_id", JStr cid)]))
               (_timeout c)))
  = Some workflow.
Proof. reflexivity. Qed.

(** X6: when the backend is alive and answers the enqueue call with a
    status outside 2xx, [generate] raises the generation error with that
    status and at most the first 200 characters of the body, after two
    calls: it does not poll. *)
Theorem generate_enqueue_rejected (workflow : json) (w : world)
    (alive rejected : response) :
  backend E (calls w) (get c "/system_stats" [] 5) = Reply alive ->
  status_code alive = 200 ->
  backend E (S (calls w))
    (mk_request POST (_base_url c +:+ "/prompt") []
       (Some (JDict [("prompt", workflow);
                     ("client_id", JStr (uuid4 E (uuid_draws w)))]))
       (_timeout c)) = Reply rejected ->
  is_success rejected = false ->
  exists w',
    generate E c workflow None w
    = (inl (ComfyUIGenerationError
              ("Error al encolar workflow en ComfyUI (HTTP "
               +:+ pretty (status_code rejected) +:+ "): "
               +:+ prefix 200 (content rejected))), w')
    /\ calls w' = S (S (calls w))
    /\ len (prefix 200 (content rejected)) <= 200
    /\ files w' = files w.
Proof.
  intros Hprobe Hok Hpost Hbad. eexists. split; [| split; [| split]].
  - unfold generate. unfold bind at 1. rewrite (is_available_200 w alive Hprobe Hok).
    unfold bind at 1. cbn [draw_uuid uuid_draws calls clock_reads rand_draws files trace].
    unfold bind at 1. unfold send at 1.
    cbn [log calls clock_reads uuid_draws rand_draws files trace].
    rewrite Hpost. unfold bind at 1. cbn [received ret]. rewrite Hbad.
    cbn [negb raise]. reflexivity.
  - reflexivity.
  - rewrite prefix_length. lia.
  - reflexivity.
Qed.

(** X7: when the backend is alive and accepts the job under the
    identifier [prompt_id], a string or any other value, [generate] is the
    wait for that identifier in the world after the two calls: it returns
    or raises what the wait does, and the job graph has been submitted
    once. *)
Theorem generate_is_probe_enqueue_wait (workflow : json) (w : world)
    (alive accepted : response) (body : list (string * json))
    (prompt_id : json) :
  backend E (calls w) (get c "/system_stats" [] 5) = Reply alive ->
  status_code alive = 200 ->
  backend E (S (calls w))
    (mk_request POST (_base_url c +:+ "/prompt") []
       (Some (JDict [("prompt", workflow);
                     ("client_id", JStr (uuid4 E (uuid_draws w)))]))
       (_timeout c)) = Reply accepted ->
  is_success accepted = true ->
  decoded accepted = Some (JDict body) ->
  assoc "prompt_id" body = Some prompt_id ->
  exists w2,
    generate E c workflow None w = _poll_until_done E c prompt_id w2
    /\ calls w2 = S (S (calls w))
    /\ submitted (trace w2) = submitted (trace w) ++ [workflow]
    /\ files w2 = files w.
Proof.
  intros Hprobe Hok Hpost Hgood Hjson Hid. eexists. split; [| split; [| split]].
  - unfold generate. unfold bind at 1. rewrite (is_available_200 w alive Hprobe Hok).
    unfold bind at 1. cbn [draw_uuid uuid_draws calls clock_reads rand_draws files trace].
    unfold bind at 1. unfold send at 1.
    cbn [log calls clock_reads uuid_draws rand_draws files trace].
    rewrite Hpost. unfold bind at 1. cbn [received ret]. rewrite Hgood.
    cbn [negb]. unfold bind at 1. unfold json_of. rewrite Hjson. cbn [ret].
    unfold bind at 1. cbn [lift subscript]. rewrite Hid. reflexivity.
  - reflexivity.
  - cbn [trace]. rewrite !submitted_app. cbn. rewrite app_nil_r. reflexivity.
  - reflexivity.
Qed.

End ClientMore.

(** ** Downloads, the inventory and the health endpoint *)

Section DownloadsAndHealth.
Import ComfyUI Effects Shapes Inventory.

Variable E : env.
Variable c : ComfyUIClient.

(** The request that fetches the image [name]. *)
Lemma download_request (name : string) :
  get c "/view" [("filename", name); ("subfolder", ""); ("type", "output")]
        (_timeout c)
  = mk_request GET (_base_url c +:+ "/view")
      [("filename", name); ("subfolder", ""); ("type", "output")] None
      (_timeout c).
Proof. reflexivity. Qed.

(** X8: a download that the backend answers with a 2xx status makes one
    call and then writes the body of the reply to the file
    [dest_dir / filename].  When the file system takes the write, the
    download returns that path, the file holds the body, every other file
    is as it was, and the size read back from the file is the length of
    the body.  When the file system refuses the write (the name is empty,
    or names a directory that is not there), the download raises that
    error and no file changes. *)
Theorem download_image_stores_reply (name dest_dir fmt : string) (w : world)
    (r : response) :
  backend E (calls w)
    (get c "/view" [("filename", name); ("subfolder", ""); ("type", "output")]
         (_timeout c)) = Reply r ->
  is_success r = true ->
  exists w',
    calls w' = S (calls w)
    /\ match write_error E (path_join E dest_dir name) with
       | None =>
           download_image E c (JStr name) dest_dir fmt w
           = (inr (path_join E dest_dir name), w')
           /\ files w' = <[path_join E dest_dir name := content r]> (files w)
           /\ (forall other, other <> path_join E dest_dir name ->
                 files w' !! other = files w !! other)
           /\ st_size (path_join E dest_dir name) w'
              = (inr (len (content r)), w')
       | Some (cls, msg) =>
           download_image E c (JStr name) dest_dir fmt w
           = (inl (OtherError cls msg), w')
           /\ files w' = files w
       end.
Proof.
  intros Hreply Hok.
  assert (Hrun : download_image E c (JStr name) dest_dir fmt w
                 = (x <- write_bytes E (path_join E dest_dir name) (content r) ;;
                    ret (path_join E dest_dir name))
                     (mk_world (S (calls w)) (clock_reads w) (uuid_draws w)
                        (rand_draws w) (files w)
                        ((trace w ++ [EvMkdir dest_dir])
                           ++ [EvHttp (get c "/view"
                                         [("filename", name); ("subfolder", "");
                                          ("type", "output")] (_timeout c))]))).
  { unfold download_image. unfold bind at 1. cbn [mkdir].
    unfold bind at 1. cbn [lift].
    unfold bind at 1. unfold send at 1.
    cbn [log calls clock_reads uuid_draws rand_draws files trace].
    rewrite Hreply. unfold bind at 1. cbn [received ret]. rewrite Hok.
    reflexivity. }
  rewrite Hrun. unfold bind, write_bytes.
  destruct (write_error E (path_join E dest_dir name)) as [[cls msg] |].
  - eexists. split; cycle 1.
    + split; reflexivity.
    + reflexivity.
  - eexists. split; cycle 1.
    + split; [reflexivity |]. split; [reflexivity |]. split.
      * intros other Hother. cbn [files log].
        rewrite lookup_insert_ne by congruence. reflexivity.
      * unfold st_size. cbn [files log]. rewrite lookup_insert_eq.
        reflexivity.
    + reflexivity.
Qed.

(** X9: a download that the backend answers with a status outside 2xx
    raises the generation error that names the file and the status, and
    writes nothing. *)
Theorem download_image_failure_writes_nothing (name dest_dir fmt : string)
    (w : world) (r : response) :
  backend E (calls w)
    (get c "/view" [("filename", name); ("subfolder", ""); ("type", "output")]
         (_timeout c)) = Reply r ->
  is_success r = false ->
  exists w',
    download_image E c (JStr name) dest_dir fmt w
    = (inl (ComfyUIGenerationError
              ("No se pudo descargar la imagen '" +:+ name +:+ "': HTTP "
               +:+ pretty (status_code r))), w')
    /\ files w' = files w
    /\ Forall (fun ev => match ev with EvWrite _ _ => False | _ => True end)
              (drop (length (trace w)) (trace w')).
Proof.
  intros Hreply Hbad. eexists. split; [| split].
  - unfold download_image. unfold bind at 1. cbn [mkdir].
    unfold bind at 1. cbn [lift].
    unfold bind at 1. unfold send at 1.
    cbn [log calls clock_reads uuid_draws rand_draws files trace].
    rewrite Hreply. unfold bind at 1. cbn [received ret]. rewrite Hbad.
    cbn [negb raise]. reflexivity.
  - reflexivity.
  - cbn [trace log]. rewrite <- app_assoc, drop_app_length.
    repeat constructor.
Qed.

(** The inventory call always returns. *)
Lemma get_available_checkpoints_returns (w : world) :
  exists names w',
    get_available_checkpoints E c w = (inr names, w')
    /\ calls w' = S (calls w)
    /\ files w' = files w
    /\ ((match backend E (calls w)
                 (get c "/object_info/CheckpointLoaderSimple" [] (_timeout c))
         with
         | Reply r => is_success r
         | _ => false
         end) = false -> names = JList []).
Proof.
  unfold get_available_checkpoints. unfold bind at 1. unfold try.
  unfold bind at 1. unfold send at 1.
  cbn [log calls clock_reads uuid_draws rand_draws files trace].
  set (o := backend E (calls w)
              (get c "/object_info/CheckpointLoaderSimple" [] (_timeout c))).
  set (w1 := mk_world (S (calls w)) (clock_reads w) (uuid_draws w)
               (rand_draws w) (files w) _).
  destruct o as [m | cls m | cls m | r]; cbn [received bind raise ret];
    try (unfold bind; cbn; eexists _, _; repeat split; reflexivity).
  unfold bind at 1. cbn [received ret].
  destruct (is_success r) eqn:Hok; cbn [negb raise ret].
  - unfold bind. unfold json_of.
    destruct (decoded r) as [data |]; cbn [ret raise lift].
    + destruct (checkpoint_names data) as [e | names]; cbn [ret];
        eexists _, _; repeat split; try reflexivity; discriminate.
    + eexists _, _; repeat split; try reflexivity; discriminate.
  - eexists _, _; repeat split; reflexivity.
Qed.

(** X10: [get_available_checkpoints] never raises, whatever the backend
    answers: it makes one call and returns; the reply of a backend that
    fails to connect or answers outside 2xx gives the empty list. *)
Theorem get_available_checkpoints_never_raises (w : world) :
  exists names w',
    get_available_checkpoints E c w = (inr names, w')
    /\ calls w' = S (calls w)
    /\ files w' = files w
    /\ ((match backend E (calls w)
                 (get c "/object_info/CheckpointLoaderSimple" [] (_timeout c))
         with
         | Reply r => is_success r
         | _ => false
         end) = false -> names = JList []).
Proof. exact (get_available_checkpoints_returns w). Qed.

End DownloadsAndHealth.

Section ImagesHealth.
Import ComfyUI Effects Shapes Inventory.

Variable E : env.
Variable settings : Settings.

(** X11: the health endpoint of the image service never raises.  It
    answers 200 with [ok = true] only when the liveness probe was
    answered with status 200; in every other case, an exception
    included, it answers 503 with [ok = false].  It writes no file. *)
Theorem images_health_answers (w : world) :
  exists resp w',
    health E settings w = (inr resp, w')
    /\ files w' = files w
    /\ ((resp = not_ready settings
         /\ ImagesRest.resp_status resp = 503
         /\ json_field "ok" (ImagesRest.resp_body resp) = JBool false)
        \/ (exists sample r,
              resp = ready settings sample
              /\ ImagesRest.resp_status resp = 200
              /\ json_field "ok" (ImagesRest.resp_body resp) = JBool true
              /\ backend E (calls w)
                   (get (new_client (comfyui_url settings)
                                    (comfyui_timeout settings))
                        "/system_stats" [] 5) = Reply r
              /\ status_code r = 200)).
Proof.
  unfold health. unfold bind at 1. unfold try.
  set (client := new_client (comfyui_url settings) (comfyui_timeout settings)).
  unfold bind at 1. unfold is_available. unfold bind at 1. unfold send at 1.
  cbn [log calls clock_reads uuid_draws rand_draws files trace].
  destruct (backend E (calls w) (get client "/system_stats" [] 5))
    as [m | cls m | cls m | r] eqn:Hprobe; cbn [ret raise];
    try (eexists _, _; split; [reflexivity |]; split; [reflexivity |];
         left; repeat split; reflexivity).
  destruct (Z.eqb_spec (status_code r) 200) as [H200 | Hnot].
  - unfold bind at 1.
    match goal with
    | |- context [get_available_checkpoints E client ?w1] =>
        destruct (get_available_checkpoints_returns E client w1)
          as (names & w2 & Hnames & _ & Hfiles & _)
    end.
    rewrite Hnames. unfold bind at 1. cbn [lift].
    destruct (if truthy names then first_five names else inr (JList []))
      as [e | sample]; cbn [ret].
    + eexists _, _. split; [reflexivity |]. split; [exact Hfiles |].
      left. repeat split; reflexivity.
    + eexists _, _. split; [reflexivity |]. split; [exact Hfiles |].
      right. exists sample, r. repeat split; try reflexivity. exact H200.
  - cbn [ret]. eexists _, _. split; [reflexivity |]. split; [reflexivity |].
    left. repeat split; reflexivity.
Qed.

End ImagesHealth.

(** ** More on [run_generation] *)

Section RunGenerationMore.
Import ComfyUI Generate Effects.

Variable E : env.
Variable settings : Settings.
Variable params : GenerateImageInput.

Lemma draw_randint_keeps_files : preserves keeps_files (draw_randint E).
Proof. intros w r w' [= _ <-] path H. exact H. Qed.

Lemma run_generation_keeps_files :
  preserves keeps_files (run_generation E settings params).
Proof.
  unfold run_generation.
  apply (preserves_bind _ keeps_files_trans);
    [apply now_ms_keeps_files | intros start_ms].
  destruct (resolve_dimensions _ _ _ _ _) as [width height].
  apply (preserves_bind _ keeps_files_trans).
  - unfold resolve_seed. destruct (Models.seed params).
    + apply (preserves_ret _ keeps_files_refl).
    + apply draw_randint_keeps_files.
  - intros seed. apply (preserves_bind _ keeps_files_trans).
    + apply preserves_try. apply batch_items_keeps_files.
    + intros r. apply (preserves_ret _ keeps_files_refl).
Qed.

(** X12: [run_generation] never raises.  Its result counts its records
    ([total_generated] is their number), carries an error exactly when
    [success] is false, and holds no record when [success] is false; and
    no file that was on disk before the run is missing after it. *)
Theorem run_generation_result_is_consistent (w : world) :
  exists r w',
    run_generation E settings params w = (inr r, w')
    /\ total_generated r = Z.of_nat (length (images r))
    /\ (success r = true <-> error r = None)
    /\ (success r = false -> images r = [])
    /\ (forall path, is_Some (files w !! path) -> is_Some (files w' !! path)).
Proof.
  destruct (run_generation_result E settings params w) as (x & w' & Hrun).
  exists (result_of x), w'. split; [exact Hrun |].
  split; [| split; [| split]].
  - destruct x as [[m | m | cls m] | imgs]; reflexivity.
  - destruct x as [[m | m | cls m] | imgs]; cbn; split; congruence.
  - destruct x as [[m | m | cls m] | imgs]; cbn; congruence.
  - exact (run_generation_keeps_files _ _ _ Hrun).
Qed.

(** The fields that every record of a run shares. *)
Lemma download_all_fields (c : ComfyUIClient)
    (P : GeneratedImage.t -> Prop) (width height batch_seed start_ms : Z)
    (filenames : list json) :
  (forall path name size elapsed,
      P (GeneratedImage.make path name width height
           (ImageFormat_value (output_format params)) batch_seed
           (prompt params) (steps params) (guidance_scale params)
           size elapsed)) ->
  forall generated_images w imgs w',
    Forall P generated_images ->
    download_all E settings c params width height batch_seed start_ms
                 filenames generated_images w = (inr imgs, w') ->
    Forall P imgs.
Proof.
  intros HP. induction filenames as [| filename rest IH];
    intros acc w imgs w' Hacc Hrun; cbn [download_all] in Hrun.
  - injection Hrun as <- _. exact Hacc.
  - apply bind_returns in Hrun. destruct Hrun as (local_path & w1 & _ & Hrun).
    apply bind_returns in Hrun. destruct Hrun as (size & w2 & _ & Hrun).
    apply bind_returns in Hrun. destruct Hrun as (now & w3 & _ & Hrun).
    apply IH in Hrun; [exact Hrun |].
    apply Forall_app. split; [exact Hacc |]. repeat constructor. apply HP.
Qed.

Lemma batch_items_fields (c : ComfyUIClient)
    (P : GeneratedImage.t -> Prop) (width height seed start_ms : Z) (n : nat) :
  (forall path name batch_seed size elapsed,
      P (GeneratedImage.make path name width height
           (ImageFormat_value (output_format params)) batch_seed
           (prompt params) (steps params) (guidance_scale params)
           size elapsed)) ->
  forall i generated_images w imgs w',
    Forall P generated_images ->
    batch_items E settings c params width height seed start_ms
                n i generated_images w = (inr imgs, w') ->
    Forall P imgs.
Proof.
  intros HP. induction n as [| n IH]; intros i acc w imgs w' Hacc Hrun;
    cbn [batch_items] in Hrun.
  - injection Hrun as <- _. exact Hacc.
  - apply bind_returns in Hrun. destruct Hrun as (fns & w1 & _ & Hrun).
    apply bind_returns in Hrun. destruct Hrun as (acc' & w2 & Hdl & Hrun).
    apply (IH _ _ _ _ _) in Hrun; [exact Hrun |].
    apply (download_all_fields c P width height (seed + i) start_ms fns)
      in Hdl; [exact Hdl | | exact Hacc].
    intros path name size elapsed. apply HP.
Qed.

(** X13: every record of a result carries the resolved width and height,
    the prompt, the step count and the guidance scale of the request, not
    what the backend produced. *)
Theorem run_generation_records_echo_request (w w' : world)
    (r : GenerationResult) (width height : Z) :
  resolve_dimensions (aspect_ratio params) (Models.width params)
    (Models.height params) (default_width settings)
    (default_height settings) = (width, height) ->
  run_generation E settings params w = (inr r, w') ->
  Forall (fun img =>
            GeneratedImage.width img = width
            /\ GeneratedImage.height img = height
            /\ GeneratedImage.prompt img = prompt params
            /\ GeneratedImage.steps img = steps params
            /\ GeneratedImage.guidance_scale img = guidance_scale params)
         (images r).
Proof.
  intros Hdims Hrun. unfold run_generation in Hrun.
  apply bind_returns in Hrun. destruct Hrun as (start_ms & w1 & _ & Hrun).
  rewrite Hdims in Hrun.
  apply bind_returns in Hrun. destruct Hrun as (s & w2 & _ & Hrun).
  apply bind_returns in Hrun. destruct Hrun as (x & w3 & Htry & Hrun).
  injection Hrun as <- _. apply try_returns in Htry.
  destruct x as [[m | m | cls m] | imgs]; cbn [images result_of];
    try constructor.
  eapply batch_items_fields in Htry; [exact Htry | | constructor].
  intros. cbn. repeat split.
Qed.

End RunGenerationMore.

(** ** More on the models *)

Section ModelsMore.

Lemma floor64_within (n : Z) : n / 64 * 64 <= n < n / 64 * 64 + 64.
Proof.
  pose proof (Z.div_mod n 64 ltac:(lia)) as Hdm.
  pose proof (Z.mod_pos_bound n 64 ltac:(lia)) as Hmod. lia.
Qed.

(** X14: for the custom ratio with an explicit width and height of at
    least 64, each resolved value is the largest multiple of 64 that does
    not exceed the input: it is a multiple of 64, at most the input and
    less than 64 below it, and no multiple of 64 lies between it and the
    input. *)
Theorem resolve_dimensions_within_64 (w0 h0 default_width default_height
    w h : Z) :
  64 <= w0 -> 64 <= h0 ->
  resolve_dimensions CUSTOM (Some w0) (Some h0) default_width default_height
    = (w, h) ->
  ((64 | w) /\ w <= w0 < w + 64
   /\ forall m, (64 | m) -> m <= w0 -> m <= w)
  /\ ((64 | h) /\ h <= h0 < h + 64
      /\ forall m, (64 | m) -> m <= h0 -> m <= h).
Proof.
  intros Hw Hh Hres. cbv [resolve_dimensions AspectRatio_eqb] in Hres.
  rewrite !int_or_explicit in Hres by lia. injection Hres as <- <-.
  pose proof (floor64_within w0). pose proof (floor64_within h0).
  assert (64 <= w0 / 64 * 64)
    by (assert (1 <= w0 / 64) by (apply Z.div_le_lower_bound; lia); lia).
  assert (64 <= h0 / 64 * 64)
    by (assert (1 <= h0 / 64) by (apply Z.div_le_lower_bound; lia); lia).
  rewrite !Z.max_l by lia.
  split; (split; [apply floor64_divide |]; split; [lia |]);
    intros m [k ->] Hm.
  - assert (k <= w0 / 64) by (apply Z.div_le_lower_bound; lia). lia.
  - assert (k <= h0 / 64) by (apply Z.div_le_lower_bound; lia). lia.
Qed.

(** X15: resolved dimensions are stable: asking for them again as custom
    dimensions gives them back, whatever the defaults. *)
Theorem resolve_dimensions_stable (aspect_ratio : AspectRatio)
    (width height : option Z) (dw dh dw' dh' w h : Z) :
  resolve_dimensions aspect_ratio width height dw dh = (w, h) ->
  resolve_dimensions CUSTOM (Some w) (Some h) dw' dh' = (w, h).
Proof.
  unfold resolve_dimensions at 1. intros Hres.
  destruct (if AspectRatio_eqb aspect_ratio CUSTOM then _ else _) as [w1 h1].
  injection Hres as <- <-.
  cbv [resolve_dimensions AspectRatio_eqb].
  pose proof (max64_divide _ (floor64_divide w1)) as Dw.
  pose proof (max64_divide _ (floor64_divide h1)) as Dh.
  rewrite !int_or_explicit by lia.
  rewrite (floor64_fixed _ Dw), (floor64_fixed _ Dh).
  f_equal; lia.
Qed.

(** X16: the values of the aspect ratios identify them: reading the
    value of a ratio gives the ratio back, and a string is read as a
    ratio only when it is the value of that ratio. *)
Theorem AspectRatio_round_trip (a : AspectRatio) (s : string) :
  AspectRatio_of_value (AspectRatio_value a) = Some a
  /\ (AspectRatio_of_value s = Some a -> AspectRatio_value a = s).
Proof.
  split; [destruct a; reflexivity |].
  unfold AspectRatio_of_value. cbn [find].
  repeat match goal with
  | |- context [String.eqb ?x s] => destruct (String.eqb_spec x s)
  end; intros [= <-]; try assumption; discriminate.
Qed.

End ModelsMore.

(** ** More on the image REST handler *)

Section ImagesRestMore.
Import Generate.

Variable E : env.

Lemma and_then_returns {A B} (r : exn + A) (k : A -> exn + B) (b : B) :
  and_then r k = inr b -> exists a, r = inr a /\ k a = inr b.
Proof. destruct r as [e | a]; [discriminate |]. cbn. eauto. Qed.

Lemma validate_int_returns (field : string) (ge le n v : Z) :
  validate_int field ge le n = inr v -> v = n /\ ge <= v <= le.
Proof.
  unfold validate_int.
  destruct (Z.ltb_spec n ge); [discriminate |].
  destruct (Z.ltb_spec le n); [discriminate |].
  cbn. intros [= <-]. lia.
Qed.

Lemma validate_optional_int_returns (field : string) (ge le : Z) (v : json)
    (o : option Z) :
  validate_optional_int (lax_int E) field ge le v = inr o ->
  match o with
  | Some n => ge <= n <= le
  | None => v = JNull
  end.
Proof.
  unfold validate_optional_int, option_map_ok.
  destruct v; try (destruct (lax_int E _) as [n0 |]; [| discriminate]);
    try (intros [= <-]; reflexivity);
    match goal with
    | |- context [validate_int field ge le ?n] =>
        destruct (validate_int field ge le n) as [e | n'] eqn:Hv;
          [discriminate |]; intros [= <-];
          apply validate_int_returns in Hv; lia
    end.
Qed.

(** X17: whatever the body, the parameters with which the image REST
    handler calls [run_generation] satisfy the declared bounds: a prompt
    of 3 to 2000 characters, 1 to 50 steps, a guidance scale from 0 to
    20, a width and a height that are absent or from 256 to 4096; and
    they always ask for one image, a random seed, the PNG format and the
    JSON answer. *)
Theorem rest_request_is_within_bounds (request_json : option json)
    (p : GenerateImageInput) :
  ImagesRest.parse_request E request_json = inr (inr p) ->
  3 <= len (prompt p) <= 2000
  /\ 1 <= steps p <= 50
  /\ (0 <= guidance_scale p /\ guidance_scale p <= 20)%Q
  /\ match Models.width p with Some n => 256 <= n <= 4096 | None => True end
  /\ match Models.height p with Some n => 256 <= n <= 4096 | None => True end
  /\ batch_size p = 1
  /\ Models.seed p = None
  /\ output_format p = PNG
  /\ response_format p = JSON
  /\ negative_prompt p = default_negative_prompt.
Proof.
  unfold ImagesRest.parse_request. destruct request_json as [parsed |];
    [| discriminate].
  intros H.
  apply and_then_returns in H. destruct H as (description & _ & H).
  apply and_then_returns in H. destruct H as (text & _ & H).
  apply and_then_returns in H. destruct H as (prompt0 & _ & H).
  destruct (len prompt0 <? 3); [discriminate |].
  apply and_then_returns in H. destruct H as (ar & _ & H).
  apply and_then_returns in H. destruct H as (ar_str & _ & H).
  apply and_then_returns in H. destruct H as (params & Hparams & H).
  injection H as <-. unfold ImagesRest.request_params in Hparams.
  apply and_then_returns in Hparams. destruct Hparams as (wj & _ & H).
  apply and_then_returns in H. destruct H as (hj & _ & H).
  apply and_then_returns in H. destruct H as (sf & _ & H).
  apply and_then_returns in H. destruct H as (st0 & _ & H).
  apply and_then_returns in H. destruct H as (gf & _ & H).
  apply and_then_returns in H. destruct H as (g0 & _ & H).
  unfold new_GenerateImageInput in H.
  apply and_then_returns in H. destruct H as (prompt' & Hp & H).
  apply and_then_returns in H. destruct H as (width' & Hw & H).
  apply and_then_returns in H. destruct H as (height' & Hh & H).
  apply and_then_returns in H. destruct H as (steps' & Hs & H).
  apply and_then_returns in H. destruct H as (guidance' & Hg & H).
  injection H as <-. cbn.
  apply validate_int_returns in Hs.
  apply validate_optional_int_returns in Hw, Hh.
  unfold validate_str in Hp.
  destruct (Z.ltb_spec (len (trim (prefix 2000 prompt0))) 3);
    [discriminate |].
  destruct (Z.ltb_spec 2000 (len (trim (prefix 2000 prompt0))));
    [discriminate |].
  cbn in Hp. injection Hp as <-.
  unfold validate_float in Hg.
  destruct (Qle_bool 0 g0) eqn:Hg0; [| discriminate].
  destruct (Qle_bool g0 20) eqn:Hg20; [| discriminate].
  cbn in Hg. injection Hg as <-.
  apply Qle_bool_iff in Hg0, Hg20.
  repeat split; try lia; try assumption.
  - destruct width'; [lia | exact I].
  - destruct height'; [lia | exact I].
Qed.

(** X18: a request that the image REST handler rejects is answered with
    status 400 and [success = false] and reaches nothing: no call to the
    backend, no clock reading, no file. *)
Theorem rejected_image_request_touches_nothing (settings : Settings)
    (request_json : option json) (early : ImagesRest.JSONResponse)
    (w : world) :
  ImagesRest.parse_request E request_json = inr (inl early) ->
  ImagesRest.generate E settings request_json w = (inr early, w)
  /\ ImagesRest.resp_status early = 400
  /\ json_field "success" (ImagesRest.resp_body early) = JBool false.
Proof.
  intros Hparse. split.
  - unfold ImagesRest.generate. unfold bind. rewrite Hparse. reflexivity.
  - revert Hparse. unfold ImagesRest.parse_request.
    destruct request_json as [parsed |];
      [| intros [= <-]; split; reflexivity].
    intros H.
    apply and_then_returns in H. destruct H as (description & _ & H).
    apply and_then_returns in H. destruct H as (text & _ & H).
    apply and_then_returns in H. destruct H as (prompt0 & _ & H).
    destruct (len prompt0 <? 3); [injection H as <-; split; reflexivity |].
    apply and_then_returns in H. destruct H as (ar & _ & H).
    apply and_then_returns in H. destruct H as (ar_str & _ & H).
    apply and_then_returns in H. destruct H as (params & _ & H).
    discriminate.
Qed.

End ImagesRestMore.

(** ** More on the audio service *)

Section AudioMoreProperties.
Import Chatterbox Adapter Shapes.

Variable A : aenv.
Variable settings : AudioConfig.Settings.

Lemma Qmin_bounds (a b : Q) :
  (AudioRest.Qmin_ a b <= a /\ AudioRest.Qmin_ a b <= b)%Q.
Proof.
  unfold AudioRest.Qmin_. destruct (Qle_bool a b) eqn:H.
  - apply Qle_bool_iff in H. split; [apply Qle_refl | exact H].
  - assert (Hlt : (b < a)%Q).
    { apply Qnot_le_lt. intros Hle. apply Qle_bool_iff in Hle. congruence. }
    split; [apply Qlt_le_weak; exact Hlt | apply Qle_refl].
Qed.

Lemma clamp_bounds (lo hi f : Q) :
  (lo <= hi)%Q ->
  (lo <= AudioRest.Qmax_ lo (AudioRest.Qmin_ hi f)
   /\ AudioRest.Qmax_ lo (AudioRest.Qmin_ hi f) <= hi)%Q.
Proof.
  intros Hle. unfold AudioRest.Qmax_.
  destruct (Qmin_bounds hi f) as [Hhi _].
  destruct (Qle_bool lo (AudioRest.Qmin_ hi f)) eqn:H.
  - apply Qle_bool_iff in H. split; assumption.
  - split; [apply Qle_refl | exact Hle].
Qed.

Lemma clamp_inside (lo hi f : Q) :
  (lo <= f)%Q -> (f <= hi)%Q ->
  (AudioRest.Qmax_ lo (AudioRest.Qmin_ hi f) == f)%Q.
Proof.
  intros Hlo Hhi. unfold AudioRest.Qmax_, AudioRest.Qmin_.
  assert (Hlohi : Qle_bool lo hi = true)
    by (apply Qle_bool_iff; apply Qle_trans with f; assumption).
  destruct (Qle_bool hi f) eqn:H1.
  - apply Qle_bool_iff in H1. rewrite Hlohi.
    apply Qle_antisym; assumption.
  - apply Qle_bool_iff in Hlo. rewrite Hlo. apply Qeq_refl.
Qed.

(** X19: a voice parameter read from the body is the default when the
    key is missing or null and when the value cannot be converted
    ([TypeError], [ValueError]); any other value that is returned lies
    between the bounds of the parameter, and a number inside the bounds
    is returned as it is. *)
Theorem float_param_is_default_or_clamped (d : list (string * json))
    (key : string) (dflt lo hi x : Q) :
  (lo <= hi)%Q ->
  AudioRest._float_param A (JDict d) key dflt lo hi = inr x ->
  (x = dflt \/ (lo <= x /\ x <= hi)%Q)
  /\ (dict_get key d = JNull -> x = dflt)
  /\ (forall f, dict_get key d = JFloat f -> (lo <= f)%Q -> (f <= hi)%Q ->
        (x == f)%Q).
Proof.
  intros Hle. unfold AudioRest._float_param, dict_get.
  cbn [get_or and_then default from_option id].
  destruct (assoc key d) as [v |]; [| intros [= <-]; repeat split; auto;
                                       discriminate].
  destruct v as [| b | n | f | s | l | dd];
    try (intros [= <-]; repeat split; auto; discriminate);
    try (destruct (audio_py_float A _) as [[m | m | cls m] | f0];
         try discriminate;
         [destruct (String.eqb cls "TypeError" || String.eqb cls "ValueError");
            [| discriminate]
         |]; intros [= <-]; repeat split; auto; try discriminate;
         right; apply clamp_bounds; exact Hle).
  intros [= <-]. split; [right; apply clamp_bounds; exact Hle |].
  split; [discriminate |].
  intros f0 [= <-] Hlo Hhi. exact (clamp_inside lo hi f Hlo Hhi).
Qed.

Lemma drop_space_last (ch : ascii) (l : list ascii) :
  is_space ch = false ->
  exists x, drop_space (l ++ [ch]) = x ++ [ch].
Proof.
  intros Hch. induction l as [| a l IH]; cbn.
  - rewrite Hch. exists []. reflexivity.
  - destruct (is_space a); [exact IH |]. exists (a :: l). reflexivity.
Qed.

Lemma drop_space_head (l : list ascii) :
  drop_space l = []
  \/ exists ch rest, drop_space l = ch :: rest /\ is_space ch = false.
Proof.
  induction l as [| a l IH]; cbn; [left; reflexivity |].
  destruct (is_space a) eqn:Ha; [exact IH |]. right. eauto.
Qed.

(** A stripped string is empty or starts with a character that is not
    white space. *)
Lemma strip_head (s : string) :
  strip s = ""
  \/ exists ch rest, strip s = String ch rest /\ is_space ch = false.
Proof.
  unfold strip.
  destruct (drop_space_head (list_ascii_of_string s))
    as [-> | (ch & rest & -> & Hch)]; [left; reflexivity |].
  right. cbn [rev]. rewrite <- rev_alt || idtac.
  destruct (drop_space_last ch (rev rest) Hch) as (x & Hx).
  change (rev (ch :: rest)) with (rev rest ++ [ch]). rewrite Hx.
  rewrite rev_app_distr || rewrite rev_app. cbn. eauto.
Qed.

Lemma strip_of_head (ch : ascii) (rest : string) :
  is_space ch = false -> strip (String ch rest) <> "".
Proof.
  intros Hch. unfold strip. cbn [list_ascii_of_string drop_space].
  rewrite Hch. change (rev (ch :: list_ascii_of_string rest))
    with (rev (list_ascii_of_string rest) ++ [ch]).
  destruct (drop_space_last ch (rev (list_ascii_of_string rest)) Hch)
    as (x & ->).
  rewrite rev_app_distr || rewrite rev_app. cbn. discriminate.
Qed.

(** X20: the text that the audio REST handler passes on has from 1 to
    5000 characters and is not blank, so the check of [generate_audio]
    for an empty text never fires on a request of the handler. *)
Theorem accepted_audio_text_is_bounded (request_json : option json)
    (body : json) (text : string) :
  AudioRest.parse_text request_json = inr (inr (body, text)) ->
  1 <= len text <= 5000
  /\ String.eqb text "" || String.eqb (strip text) "" = false.
Proof.
  unfold AudioRest.parse_text. destruct request_json as [parsed |];
    [| discriminate].
  intros H.
  apply and_then_returns in H. destruct H as (t & _ & H).
  apply and_then_returns in H. destruct H as (v & _ & H).
  apply and_then_returns in H. destruct H as (text0 & Hstrip & H).
  destruct (Z.ltb_spec (len text0) 1) as [| Hlen]; [discriminate |].
  injection H as _ <-.
  unfold AudioRest.stripped in Hstrip.
  destruct v as [| | | | s | |]; try discriminate. injection Hstrip as <-.
  destruct (strip_head s) as [Hempty | (ch & rest & Hs & Hch)].
  - rewrite Hempty in Hlen. exfalso. apply Hlen. reflexivity.
  - assert (Htext : exists rest',
              (if 5000 <? len (strip s) then prefix 5000 (strip s)
               else strip s) = String ch rest').
    { destruct (5000 <? len (strip s)); rewrite Hs; [| eauto].
      unfold prefix. cbn. eauto. }
    destruct Htext as (rest' & Htext). split.
    + destruct (Z.ltb_spec 5000 (len (strip s))) as [Hlong | Hshort].
      * rewrite prefix_length. unfold len in Hlong. lia.
      * lia.
    + rewrite Htext. apply orb_false_iff. split.
      * reflexivity.
      * apply String.eqb_neq. apply strip_of_head. exact Hch.
Qed.

(** X22: a first call whose load fails raises what the loader raised and
    caches nothing: the global stays empty, [torch.load] is as it was, and
    the next call loads again. *)
Theorem get_model_failed_load_is_not_cached (w : aworld)
    (langs : list (string * string)) (e : exn) :
  _model w = None ->
  chatterbox_import A = Some langs ->
  from_pretrained A (load_calls w) (pick_device A settings) = inl e ->
  exists w',
    get_model A settings w = (inl e, w')
    /\ _model w' = None
    /\ torch_load_wrappers w' = torch_load_wrappers w
    /\ load_calls w' = S (load_calls w)
    /\ SUPPORTED_LANGUAGES w' = Some langs.
Proof.
  intros Hnone Himport Hload. unfold get_model. rewrite Hnone, Himport.
  destruct (String.eqb (pick_device A settings) "cpu");
    cbn [set_languages set_torch_load load_calls count_load
         torch_load_wrappers _model set_model SUPPORTED_LANGUAGES
         audio_clock_reads audio_files];
    rewrite Hload; cbn; eexists; repeat split; assumption.
Qed.

(** What a call of [get_model] that runs alone may change. *)
Lemma get_model_effects (w w' : aworld) (r : exn + option TTSModel) :
  get_model A settings w = (r, w') ->
  torch_load_wrappers w' = torch_load_wrappers w
  /\ audio_files w' = audio_files w
  /\ (load_calls w <= load_calls w' <= S (load_calls w))%nat
  /\ (forall v, r = inr v -> v = _model w' /\ v <> None)
  /\ (_model w <> None -> w' = w /\ r = inr (_model w)).
Proof.
  unfold get_model. destruct (_model w) as [m |] eqn:Hm.
  - intros [= <- <-]. rewrite Hm.
    split; [| split; [| split; [| split]]]; try reflexivity; try lia.
    + intros v [= <-]. split; [reflexivity | discriminate].
    + intros _. split; reflexivity.
  - destruct (chatterbox_import A) as [langs |].
    + destruct (String.eqb (pick_device A settings) "cpu");
        cbn [set_languages set_torch_load load_calls count_load
             torch_load_wrappers _model set_model SUPPORTED_LANGUAGES
             audio_clock_reads audio_files];
        destruct (from_pretrained A (load_calls w) (pick_device A settings))
          as [e | m]; cbn; intros [= <- <-]; cbn;
        (split; [| split; [| split; [| split]]]);
        try reflexivity; try lia; try congruence;
        try (intros v [= <-]; split; [reflexivity | discriminate]);
        try (intros v [=]).
    + intros [= <- <-]. rewrite Hm.
      split; [| split; [| split; [| split]]]; try reflexivity; try lia;
        try congruence; try (intros v [=]).
Qed.

(** X23: whatever happens, a call of [get_model] that runs alone leaves
    [torch.load] as it found it and the files untouched and calls the
    loader at most once; when it returns, it returns the model that the
    global holds afterwards; and when the global held a model before, it
    changes nothing. *)
Theorem get_model_frame (w w' : aworld) (r : exn + option TTSModel) :
  get_model A settings w = (r, w') ->
  torch_load_wrappers w' = torch_load_wrappers w
  /\ audio_files w' = audio_files w
  /\ (load_calls w <= load_calls w' <= S (load_calls w))%nat
  /\ (forall v, r = inr v -> v = _model w' /\ v <> None)
  /\ (_model w <> None -> w' = w /\ r = inr (_model w)).
Proof. exact (get_model_effects w w' r). Qed.

Lemma abind_returns {B C} (m : aio B) (k : B -> aio C) (w w' : aworld)
    (x : C) :
  bind m k w = (inr x, w') ->
  exists a w1, m w = (inr a, w1) /\ k a w1 = (inr x, w').
Proof.
  unfold bind. destruct (m w) as [[e | a] w1]; [discriminate |].
  intros H. exists a, w1. split; [reflexivity | exact H].
Qed.


(** X25: a call of [generate_audio] that returns has written the file at
    the path it was given, returns the bytes of that file, the resolved
    path and the sample rate of the model that the global holds. *)
Theorem generate_audio_returns_what_it_wrote (text out : string)
    (audio_prompt_path : option string) (language_id : json)
    (v : voice) (speed : Q) (w w' : aworld) (wav_bytes path : string)
    (rate : Z) :
  generate_audio A settings text (Some out) audio_prompt_path language_id
                 v speed w = (inr (wav_bytes, rate, path), w') ->
  audio_files w' !! out = Some wav_bytes
  /\ path = audio_path_resolve A out
  /\ exists m, _model w' = Some m /\ rate = sr m.
Proof.
  unfold generate_audio. intros H.
  apply abind_returns in H. destruct H as ([] & w0 & Himport & H).
  assert (Hw0 : w0 = w)
    by (unfold import_module in Himport;
        destruct (import_error A "torchaudio"); [discriminate |];
        injection Himport as <-; reflexivity).
  subst w0.
  apply abind_returns in H. destruct H as (loaded & w1 & Hmodel & H).
  destruct (String.eqb text "" || String.eqb (strip text) "");
    [discriminate |].
  apply abind_returns in H. destruct H as (lang & w2 & Hlang & H).
  injection Hlang as _ <-.
  apply abind_returns in H. destruct H as (m & w3 & Hm & H).
  destruct loaded as [m0 |]; [| discriminate]. injection Hm as <- <-.
  apply abind_returns in H. destruct H as (wav & w4 & Hwav & H).
  injection Hwav as _ <-.
  apply abind_returns in H. destruct H as (wav' & w5 & Hstretch & H).
  assert (Hw5 : w5 = w1).
  { destruct (speed_changes speed);
      [| injection Hstretch as _ <-; reflexivity].
    apply abind_returns in Hstretch.
    destruct Hstretch as ([] & wl & Hlib & Hstretch).
    unfold import_module in Hlib.
    destruct (import_error A "librosa"); [discriminate |].
    injection Hlib as <-. injection Hstretch as _ <-. reflexivity. }
  subst w5.
  apply abind_returns in H. destruct H as ([] & wn & Hnumpy & H).
  assert (Hwn : wn = w1)
    by (unfold import_module in Hnumpy;
        destruct (import_error A "numpy"); [discriminate |];
        injection Hnumpy as <-; reflexivity).
  subst wn.
  apply abind_returns in H. destruct H as (out' & w6 & Hout & H).
  injection Hout as <- <-.
  apply abind_returns in H. destruct H as (data & w7 & Hdata & H).
  injection Hdata as _ <-.
  apply abind_returns in H. destruct H as ([] & w8 & Hwrite & H).
  injection Hwrite as <-.
  apply abind_returns in H. destruct H as (bytes & w9 & Hread & H).
  unfold read_file in Hread. cbn [audio_files] in Hread.
  rewrite lookup_insert_eq in Hread. injection Hread as <- <-.
  injection H as <- <- <- <-. cbn [audio_files _model].
  rewrite lookup_insert_eq. split; [reflexivity |]. split; [reflexivity |].
  apply get_model_effects in Hmodel.
  destruct Hmodel as (_ & _ & _ & Hret & _).
  destruct (Hret (Some m0) eq_refl) as [Hm _]. eauto.
Qed.

(** X26: the health endpoint of the audio service never raises; it
    answers 200 exactly when [get_model] returns, and then the model is
    loaded: a health check on a fresh process loads the model.  When
    [get_model] raises it answers 503 with the text of the exception. *)
Theorem audio_health_loads_the_model (w : aworld) :
  exists resp w',
    AudioMore.health A settings w = (inr resp, w')
    /\ ((AudioRest.resp_status resp = 200
         /\ json_field "ok" (AudioRest.resp_body resp) = JBool true
         /\ _model w' <> None
         /\ exists v, get_model A settings w = (inr v, w'))
        \/ (AudioRest.resp_status resp = 503
            /\ json_field "ok" (AudioRest.resp_body resp) = JBool false
            /\ exists e, get_model A settings w = (inl e, w')
                         /\ json_field "error" (AudioRest.resp_body resp)
                            = JStr (AudioRest.message_of e))).
Proof.
  unfold AudioMore.health. unfold bind, try.
  destruct (get_model A settings w) as [[e | v] w1] eqn:Hmodel; cbn [ret].
  - eexists _, _. split; [reflexivity |]. right. repeat split. eauto.
  - eexists _, _. split; [reflexivity |]. left. repeat split.
    + apply get_model_effects in Hmodel.
      destruct Hmodel as (_ & _ & _ & Hret & _).
      destruct (Hret v eq_refl) as [<- Hsome]. exact Hsome.
    + eauto.
Qed.

(** X27: once [get_model] has got past its import, the languages that
    the service lists are those of the package; without the package a
    fresh process lists English alone. *)
Theorem supported_languages_follow_import (w w' : aworld)
    (r : exn + option TTSModel) :
  SUPPORTED_LANGUAGES w = None ->
  _model w = None ->
  get_model A settings w = (r, w') ->
  AudioMore.get_supported_languages A w'
  = default [("en", "English")] (chatterbox_import A).
Proof.
  intros Hlangs Hnone. unfold get_model, AudioMore.get_supported_languages.
  rewrite Hnone. destruct (chatterbox_import A) as [langs |].
  - destruct (String.eqb (pick_device A settings) "cpu");
      cbn [set_languages set_torch_load load_calls count_load
           torch_load_wrappers _model set_model SUPPORTED_LANGUAGES
           audio_clock_reads audio_files];
      destruct (from_pretrained A (load_calls w) (pick_device A settings));
      cbn; intros [= _ <-]; reflexivity.
  - intros [= _ <-]. rewrite Hlangs. reflexivity.
Qed.

End AudioMoreProperties.

(** ** The listing of the generated images *)

Section Listing.
Import Info.

(** Newest first. *)
Lemma insert_newest_first_perm (f : file_entry) (l : list file_entry) :
  Permutation (insert_newest_first f l) (f :: l).
Proof.
  induction l as [| g l IH]; cbn; [reflexivity |].
  destruct (Qle_bool (fe_mtime g) (fe_mtime f)); [reflexivity |].
  rewrite IH. apply perm_swap.
Qed.

Lemma sort_newest_first_perm (l : list file_entry) :
  Permutation (sort_newest_first l) l.
Proof.
  induction l as [| f l IH]; cbn; [reflexivity |].
  rewrite insert_newest_first_perm, IH. reflexivity.
Qed.

Lemma insert_newest_first_sorted (f : file_entry) (l : list file_entry) :
  StronglySorted (fun a b => (fe_mtime b <= fe_mtime a)%Q) l ->
  StronglySorted (fun a b => (fe_mtime b <= fe_mtime a)%Q)
                 (insert_newest_first f l).
Proof.
  induction l as [| g l IH]; intros Hs; cbn.
  - repeat constructor.
  - apply StronglySorted_inv in Hs. destruct Hs as [Hl Hg].
    destruct (Qle_bool (fe_mtime g) (fe_mtime f)) eqn:Hle.
    + apply Qle_bool_iff in Hle. constructor; [constructor; assumption |].
      constructor; [exact Hle |].
      apply List.Forall_forall. intros x Hx.
      rewrite List.Forall_forall in Hg.
      apply Qle_trans with (fe_mtime g); [apply Hg; exact Hx | exact Hle].
    + assert (Hlt : (fe_mtime f < fe_mtime g)%Q).
      { apply Qnot_le_lt. intros H. apply Qle_bool_iff in H. congruence. }
      constructor; [apply IH; exact Hl |].
      apply List.Forall_forall. intros x Hx.
      apply (Permutation_in _ (insert_newest_first_perm f l)) in Hx.
      destruct Hx as [<- | Hx]; [apply Qlt_le_weak; exact Hlt |].
      rewrite List.Forall_forall in Hg. apply Hg. exact Hx.
Qed.

Lemma sort_newest_first_sorted (l : list file_entry) :
  StronglySorted (fun a b => (fe_mtime b <= fe_mtime a)%Q)
                 (sort_newest_first l).
Proof.
  induction l as [| f l IH]; cbn;
    [constructor | apply insert_newest_first_sorted; exact IH].
Qed.

Lemma slice_forward {T} (a b : Z) (l : list T) :
  0 <= a <= b ->
  slice a b l = take (Z.to_nat (b - a)) (drop (Z.to_nat a) l).
Proof.
  intros Hab. unfold slice.
  destruct (Z.ltb_spec a 0) as [| _]; [lia |].
  destruct (Z.ltb_spec b 0) as [| _]; [lia |].
  set (n := Z.of_nat (length l)).
  destruct (Z.le_gt_cases n a) as [Hna | Hna].
  - rewrite (Z.min_r a n), (Z.min_r b n) by lia.
    rewrite !drop_ge by lia. rewrite !take_nil. reflexivity.
  - rewrite (Z.min_l a n) by lia.
    destruct (Z.le_gt_cases b n) as [Hbn | Hbn].
    + rewrite (Z.min_l b n) by lia. reflexivity.
    + rewrite (Z.min_r b n) by lia.
      rewrite !take_ge; [reflexivity | |]; rewrite length_drop; lia.
Qed.

(** X28: a page that starts at 0 with a limit of at least the number of
    entries of the directory holds the whole listing: exactly the entries
    whose suffix, in lower case, is [.png], [.jpg], [.jpeg] or [.webp],
    each once, ordered from the most recently modified to the oldest; its
    total is their number and it announces no further page. *)
Theorem listing_is_sorted_selection (entries : list file_entry) (limit : Z) :
  Z.of_nat (length entries) <= limit ->
  let p := list_page entries 0 limit in
  Permutation (pg_items p)
    (List.filter
       (fun f => existsb (String.eqb (Chatterbox.lower (suffix (fe_name f))))
                         [".png"; ".jpg"; ".jpeg"; ".webp"])
       entries)
  /\ StronglySorted (fun a b => (fe_mtime b <= fe_mtime a)%Q) (pg_items p)
  /\ pg_total p = Z.of_nat (length (pg_items p))
  /\ pg_has_more p = false
  /\ pg_next_offset p = None.
Proof.
  intros Hlimit p. subst p. unfold list_page.
  cbn [pg_total pg_items pg_has_more pg_next_offset].
  set (files := sort_newest_first (List.filter is_image entries)).
  assert (Hlen : (length files <= length entries)%nat).
  { unfold files. rewrite (Permutation_length (sort_newest_first_perm _)).
    apply List.filter_length_le. }
  assert (Hall : slice 0 (0 + limit) files = files).
  { rewrite slice_forward by lia. cbn [Z.to_nat drop].
    apply take_ge. lia. }
  rewrite Hall.
  assert (Hmore : (0 + Z.of_nat (length files) <? Z.of_nat (length files))
                  = false) by (apply Z.ltb_ge; lia).
  rewrite Hmore.
  split; [apply sort_newest_first_perm |].
  split; [apply sort_newest_first_sorted | repeat split].
Qed.

(** The page of the listing for an offset and a limit. *)
Lemma list_page_items (entries : list file_entry) (offset limit : Z) :
  0 <= offset -> 1 <= limit ->
  let files := sort_newest_first (List.filter is_image entries) in
  let p := list_page entries offset limit in
  pg_total p = Z.of_nat (length files)
  /\ pg_items p = take (Z.to_nat limit) (drop (Z.to_nat offset) files)
  /\ Z.of_nat (length (pg_items p))
     = Z.min limit (Z.max 0 (pg_total p - offset))
  /\ (pg_has_more p = true <-> offset + limit < pg_total p)
  /\ pg_next_offset p
     = (if pg_has_more p then Some (offset + limit) else None).
Proof.
  intros Hoff Hlim files p. subst p. unfold list_page. fold files.
  cbn [pg_total pg_items pg_has_more pg_next_offset].
  rewrite slice_forward by lia.
  replace (offset + limit - offset) with limit by lia.
  assert (Hlen : Z.of_nat (length (take (Z.to_nat limit)
                                        (drop (Z.to_nat offset) files)))
                 = Z.min limit (Z.max 0 (Z.of_nat (length files) - offset))).
  { rewrite length_take, length_drop. lia. }
  split; [reflexivity |]. split; [reflexivity |]. split; [exact Hlen |].
  rewrite Hlen. split.
  - split; intros H.
    + apply Z.ltb_lt in H. lia.
    + apply Z.ltb_lt. lia.
  - destruct (Z.ltb_spec
                (offset + Z.min limit (Z.max 0 (Z.of_nat (length files) - offset)))
                (Z.of_nat (length files))); [f_equal; lia | reflexivity].
Qed.

(** X29: for an offset of at least 0 and a limit of at least 1, a page
    holds the files from position [offset] on, at most [limit] of them;
    [has_more] holds exactly when files are left after the page, and
    [next_offset] is then the position after the page, else absent. *)
Theorem list_page_window (entries : list file_entry) (offset limit : Z) :
  0 <= offset -> 1 <= limit ->
  let files := sort_newest_first (List.filter is_image entries) in
  let p := list_page entries offset limit in
  pg_total p = Z.of_nat (length files)
  /\ pg_items p = take (Z.to_nat limit) (drop (Z.to_nat offset) files)
  /\ Z.of_nat (length (pg_items p))
     = Z.min limit (Z.max 0 (pg_total p - offset))
  /\ (pg_has_more p = true <-> offset + limit < pg_total p)
  /\ pg_next_offset p
     = (if pg_has_more p then Some (offset + limit) else None).
Proof. exact (list_page_items entries offset limit). Qed.

Lemma follow_pages_from (entries : list file_entry) (limit : Z) :
  1 <= limit ->
  forall (fuel o : nat),
    (length (sort_newest_first (List.filter is_image entries)) < o + fuel)%nat ->
    concat (follow_pages entries limit fuel (Z.of_nat o))
    = drop o (sort_newest_first (List.filter is_image entries)).
Proof.
  intros Hlim. set (files := sort_newest_first (List.filter is_image entries)).
  induction fuel as [| fuel IH]; intros o Hfuel.
  - rewrite drop_ge by lia. reflexivity.
  - cbn [follow_pages concat].
    destruct (list_page_items entries (Z.of_nat o) limit ltac:(lia) Hlim)
      as (Htotal & Hitems & Hcount & Hmore & Hnext).
    fold files in Htotal, Hitems.
    rewrite Hnext, Hitems. rewrite Nat2Z.id.
    destruct (pg_has_more (list_page entries (Z.of_nat o) limit)) eqn:Hm.
    + assert (Hlt : Z.of_nat o + limit < Z.of_nat (length files))
        by (rewrite <- Htotal; apply Hmore; reflexivity).
      replace (Z.of_nat o + limit) with (Z.of_nat (o + Z.to_nat limit)) by lia.
      rewrite IH by lia.
      rewrite <- drop_drop. apply take_drop.
    + assert (Hge : ~ Z.of_nat o + limit < Z.of_nat (length files))
        by (rewrite <- Htotal; intros H; apply Hmore in H; congruence).
      cbn [concat]. rewrite app_nil_r. apply take_ge.
      rewrite length_drop. lia.
Qed.

(** X30: a caller who starts at offset 0 and follows [next_offset] page
    after page gets every listed file exactly once and in order: the
    pages put end to end are the whole listing. *)
Theorem following_pages_lists_everything (entries : list file_entry)
    (limit : Z) (fuel : nat) :
  1 <= limit ->
  (length (List.filter is_image entries) < fuel)%nat ->
  concat (follow_pages entries limit fuel 0)
  = sort_newest_first (List.filter is_image entries).
Proof.
  intros Hlim Hfuel.
  change 0 with (Z.of_nat 0).
  rewrite (follow_pages_from entries limit Hlim fuel 0); [reflexivity |].
  rewrite (Permutation_length (sort_newest_first_perm _)). lia.
Qed.

End Listing.

(** ** The further properties on simulated surroundings *)

Section MoreExamples.
Import ComfyUI Outcome Effects Generate Chatterbox Info Inventory.
Import Samples MoreSamples.

Lemma poll_until_done_polls_bounded_witness :
  exists k : nat,
    1 <= Z.of_nat k <= 10
    /\ snd (_poll_until_done (env_of never_done) client (JStr "job-1") world0)
       = after_polls client "job-1" k world0
    /\ files (snd (_poll_until_done (env_of never_done) client (JStr "job-1") world0))
       = files world0
    /\ calls (snd (_poll_until_done (env_of never_done) client (JStr "job-1") world0))
       = (calls world0 + k)%nat.
Proof.
  apply (poll_until_done_polls_bounded (env_of never_done) client "job-1"
           world0
           (snd (_poll_until_done (env_of never_done) client (JStr "job-1") world0))
           (fst (_poll_until_done (env_of never_done) client (JStr "job-1") world0))
           10).
  - reflexivity.
  - apply surjective_pairing.
Defined.

Lemma poll_raises_on_http_error_witness :
  _poll_until_done (env_of absent_then_500) client (JStr "job-1") world0
  = (inl (ComfyUIGenerationError
            "Error consultando historial de ComfyUI: HTTP 500"),
     after_polls client "job-1" 2 world0).
Proof.
  apply (poll_raises_on_http_error (env_of absent_then_500) client "job-1"
           1 world0 (mk_response 500 "Internal Server Error" None) 10).
  - intros [| k] Hk; [left; reflexivity | lia].
  - reflexivity.
  - reflexivity.
  - reflexivity.
  - lia.
Defined.

Lemma extract_keeps_output_tagged_in_order_witness :
  _extract_output_filenames (JDict mixed_fields)
  = inr (map (fun a => JStr (art_filename a))
             (List.filter (fun a => String.eqb (art_type a) "output")
                [mk_artifact "flux_mcp_00001_.png" "output";
                 mk_artifact "preview.png" "temp"])).
Proof.
  apply (extract_keeps_output_tagged_in_order mixed_fields
           [mk_artifact "flux_mcp_00001_.png" "output";
            mk_artifact "preview.png" "temp"]).
  reflexivity.
Defined.

Lemma extract_raises_on_missing_filename_witness :
  _extract_output_filenames
    (JDict [("outputs",
             JDict [("8",
                     JDict [("images",
                             JList ([image "flux_mcp_00001_.png" "output"]
                                    ++ JDict [("type", JStr "output")]
                                       :: []))])])])
  = inl (OtherError "KeyError" "'filename'").
Proof.
  apply (extract_raises_on_missing_filename "8"
           [image "flux_mcp_00001_.png" "output"] []
           [("type", JStr "output")]
           [mk_artifact "flux_mcp_00001_.png" "output"]);
    reflexivity.
Defined.

Lemma generate_unavailable_submits_nothing_witness :
  exists w',
    generate (env_of unreachable) client (JDict []) None world0
    = (inl (ComfyUIUnavailableError (unavailable_message client)), w')
    /\ calls w' = S (calls world0)
    /\ trace w' = trace world0 ++ [EvHttp (get client "/system_stats" [] 5)]
    /\ submitted (trace w') = submitted (trace world0)
    /\ uuid_draws w' = uuid_draws world0
    /\ files w' = files world0.
Proof.
  apply (generate_unavailable_submits_nothing (env_of unreachable) client
           (JDict []) None world0).
  reflexivity.
Defined.

Lemma generate_enqueue_rejected_witness :
  exists w',
    generate (env_of rejecting) client (JDict []) None world0
    = (inl (ComfyUIGenerationError
              ("Error al encolar workflow en ComfyUI (HTTP "
               +:+ pretty 400 +:+ "): "
               +:+ prefix 200 "invalid prompt: node 6 has no input")), w')
    /\ calls w' = S (S (calls world0))
    /\ len (prefix 200 "invalid prompt: node 6 has no input") <= 200
    /\ files w' = files world0.
Proof.
  apply (generate_enqueue_rejected (env_of rejecting) client (JDict [])
           world0 (mk_response 200 "" (Some (JDict [])))
           (mk_response 400 "invalid prompt: node 6 has no input" None));
    reflexivity.
Defined.

Lemma generate_is_probe_enqueue_wait_witness :
  exists w2,
    generate (env_of (serving one_image)) client (JDict []) None world0
    = _poll_until_done (env_of (serving one_image)) client (JStr "job-1") w2
    /\ calls w2 = S (S (calls world0))
    /\ submitted (trace w2) = submitted (trace world0) ++ [JDict []]
    /\ files w2 = files world0.
Proof.
  apply (generate_is_probe_enqueue_wait (env_of (serving one_image)) client
           (JDict []) world0 (mk_response 200 "" (Some (JDict [])))
           (mk_response 200 "" (Some (JDict [("prompt_id", JStr "job-1")])))
           [("prompt_id", JStr "job-1")] (JStr "job-1"));
    reflexivity.
Defined.

Lemma download_image_stores_reply_witness :
  (exists w',
     calls w' = 1%nat
     /\ download_image (env_of always_bytes) client (JStr "a.png") "out" "png"
                       world0
        = (inr "out/a.png", w')
     /\ files w' = <["out/a.png" := "PNG-DATA"]> (files world0)
     /\ (forall other, other <> "out/a.png" ->
           files w' !! other = files world0 !! other)
     /\ st_size "out/a.png" w' = (inr 8, w'))
  /\ (exists w',
        calls w' = 1%nat
        /\ download_image (without_subdirectory (env_of always_bytes)) client
                          (JStr "sub/a.png") "out" "png" world0
           = (inl (OtherError "FileNotFoundError"
                     "[Errno 2] No such file or directory: 'out/sub/a.png'"),
              w')
        /\ files w' = files world0).
Proof.
  split.
  - apply (download_image_stores_reply (env_of always_bytes) client "a.png"
             "out" "png" world0 (mk_response 200 "PNG-DATA" None));
      reflexivity.
  - apply (download_image_stores_reply
             (without_subdirectory (env_of always_bytes)) client "sub/a.png"
             "out" "png" world0 (mk_response 200 "PNG-DATA" None));
      reflexivity.
Defined.

Lemma download_image_failure_writes_nothing_witness :
  exists w',
    download_image (env_of always_404) client (JStr "a.png") "out" "png"
                   world0
    = (inl (ComfyUIGenerationError
              ("No se pudo descargar la imagen '" +:+ "a.png" +:+ "': HTTP "
               +:+ pretty 404)), w')
    /\ files w' = files world0
    /\ Forall (fun ev => match ev with EvWrite _ _ => False | _ => True end)
              (drop (length (trace world0)) (trace w')).
Proof.
  apply (download_image_failure_writes_nothing (env_of always_404) client
           "a.png" "out" "png" world0 (mk_response 404 "not found" None));
    reflexivity.
Defined.

Lemma run_generation_records_echo_request_witness :
  Forall (fun img =>
            GeneratedImage.width img = 2048
            /\ GeneratedImage.height img = 2048
            /\ GeneratedImage.prompt img = prompt (request_for 2 (Some 5))
            /\ GeneratedImage.steps img = steps (request_for 2 (Some 5))
            /\ GeneratedImage.guidance_scale img
               = guidance_scale (request_for 2 (Some 5)))
         (images (default (result_of (inr []))
                    (result_of_run (run (serving one_image)
                                        (request_for 2 (Some 5)))))).
Proof.
  apply (run_generation_records_echo_request
           (env_of (serving one_image)) default_settings
           (request_for 2 (Some 5)) world0
           (snd (run (serving one_image) (request_for 2 (Some 5))))
           (default (result_of (inr []))
              (result_of_run (run (serving one_image) (request_for 2 (Some 5)))))
           2048 2048).
  - reflexivity.
  - vm_compute. reflexivity.
Defined.

Lemma resolve_dimensions_within_64_witness :
  ((64 | 960) /\ 960 <= 1000 < 960 + 64
   /\ forall m, (64 | m) -> m <= 1000 -> m <= 960)
  /\ ((64 | 640) /\ 640 <= 700 < 640 + 64
      /\ forall m, (64 | m) -> m <= 700 -> m <= 640).
Proof.
  apply (resolve_dimensions_within_64 1000 700 3840 2160 960 640);
    [lia | lia | reflexivity].
Defined.

Lemma resolve_dimensions_stable_witness :
  resolve_dimensions CUSTOM (Some 3840) (Some 2112) 1024 1024 = (3840, 2112).
Proof.
  apply (resolve_dimensions_stable LANDSCAPE None None 3840 2160 1024 1024
           3840 2112).
  reflexivity.
Defined.

Lemma rest_request_is_within_bounds_witness :
  3 <= len (prompt apple_request) <= 2000
  /\ 1 <= steps apple_request <= 50
  /\ (0 <= guidance_scale apple_request
      /\ guidance_scale apple_request <= 20)%Q
  /\ match Models.width apple_request with
     | Some n => 256 <= n <= 4096 | None => True end
  /\ match Models.height apple_request with
     | Some n => 256 <= n <= 4096 | None => True end
  /\ batch_size apple_request = 1
  /\ Models.seed apple_request = None
  /\ output_format apple_request = PNG
  /\ response_format apple_request = JSON
  /\ negative_prompt apple_request = default_negative_prompt.
Proof.
  apply (rest_request_is_within_bounds (env_of unreachable)
           (Some apple_body) apple_request).
  vm_compute. reflexivity.
Defined.

Lemma rejected_image_request_touches_nothing_witness :
  ImagesRest.generate (env_of unreachable) default_settings
    (Some (JDict [("prompt", JStr " a ")])) world0
  = (inr ImagesRest.short_prompt_response, world0)
  /\ ImagesRest.resp_status ImagesRest.short_prompt_response = 400
  /\ json_field "success"
       (ImagesRest.resp_body ImagesRest.short_prompt_response) = JBool false.
Proof.
  apply (rejected_image_request_touches_nothing (env_of unreachable)
           default_settings (Some (JDict [("prompt", JStr " a ")]))
           ImagesRest.short_prompt_response world0).
  reflexivity.
Defined.

Lemma float_param_is_default_or_clamped_witness :
  ((15 # 10) = 1%Q \/ ((5 # 10) <= 15 # 10 /\ (15 # 10) <= 15 # 10)%Q)
  /\ (dict_get "speed" [("speed", JFloat 3)] = JNull -> (15 # 10) = 1%Q)
  /\ (forall f, dict_get "speed" [("speed", JFloat 3)] = JFloat f ->
        ((5 # 10) <= f)%Q -> (f <= 15 # 10)%Q -> (15 # 10 == f)%Q).
Proof.
  apply (float_param_is_default_or_clamped
           (audio_env loads_fine (inr [])) [("speed", JFloat 3)] "speed"
           1 (5 # 10) (15 # 10) (15 # 10)).
  - unfold Qle. cbn. lia.
  - reflexivity.
Defined.

Lemma accepted_audio_text_is_bounded_witness :
  1 <= len "Hola mundo" <= 5000
  /\ String.eqb "Hola mundo" "" || String.eqb (strip "Hola mundo") "" = false.
Proof.
  apply (accepted_audio_text_is_bounded (Some hola_body) hola_body
                                        "Hola mundo").
  reflexivity.
Defined.

Lemma get_model_twice_in_turn_witness :
  exists w1,
    get_model (audio_env loads_fine (inr [])) audio_settings aworld0
    = (inr (Some (mk_model 0 24000)), w1)
    /\ get_model (audio_env loads_fine (inr [])) audio_settings w1
       = (inr (Some (mk_model 0 24000)), w1)
    /\ load_calls w1 = 1%nat.
Proof.
  apply (get_model_twice_in_turn (audio_env loads_fine (inr []))
           audio_settings [("en", "English"); ("es", "Spanish")]
           (mk_model 0 24000));
    reflexivity.
Defined.

Lemma get_model_failed_load_is_not_cached_witness :
  exists w',
    get_model (audio_env loads_fail (inr [])) audio_settings aworld0
    = (inl (OtherError "RuntimeError" "weights not found"), w')
    /\ _model w' = None
    /\ torch_load_wrappers w' = torch_load_wrappers aworld0
    /\ load_calls w' = S (load_calls aworld0)
    /\ SUPPORTED_LANGUAGES w' = Some [("en", "English"); ("es", "Spanish")].
Proof.
  apply (get_model_failed_load_is_not_cached
           (audio_env loads_fail (inr [])) audio_settings aworld0
           [("en", "English"); ("es", "Spanish")]
           (OtherError "RuntimeError" "weights not found"));
    reflexivity.
Defined.

Lemma get_model_frame_witness :
  let x := get_model (audio_env loads_fine (inr [])) audio_settings aworld0 in
  torch_load_wrappers (snd x) = torch_load_wrappers aworld0
  /\ audio_files (snd x) = audio_files aworld0
  /\ (load_calls aworld0 <= load_calls (snd x) <= S (load_calls aworld0))%nat
  /\ (forall v, fst x = inr v -> v = _model (snd x) /\ v <> None)
  /\ (_model aworld0 <> None -> snd x = aworld0 /\ fst x = inr (_model aworld0)).
Proof.
  intros x.
  apply (get_model_frame (audio_env loads_fine (inr [])) audio_settings
           aworld0 (snd x) (fst x)).
  apply surjective_pairing.
Defined.


Lemma generate_audio_returns_what_it_wrote_witness :
  let x := generate_audio (audio_env loads_fine (inr [])) audio_settings
             "Hola mundo" (Some "out.wav") None (JStr "es")
             (mk_voice (4 # 10) (5 # 10) (6 # 10) 2 (5 # 100) 1) 1 aworld0 in
  audio_files (snd x) !! "out.wav" = Some "RIFF-DATA"
  /\ "out.wav" = audio_path_resolve (audio_env loads_fine (inr [])) "out.wav"
  /\ exists m, _model (snd x) = Some m /\ 24000 = sr m.
Proof.
  intros x.
  apply (generate_audio_returns_what_it_wrote
           (audio_env loads_fine (inr [])) audio_settings "Hola mundo"
           "out.wav" None (JStr "es")
           (mk_voice (4 # 10) (5 # 10) (6 # 10) 2 (5 # 100) 1) 1 aworld0
           (snd x) "RIFF-DATA" "out.wav" 24000).
  vm_compute. reflexivity.
Defined.

Lemma supported_languages_follow_import_witness :
  AudioMore.get_supported_languages (audio_env loads_fail (inr []))
    (snd (get_model (audio_env loads_fail (inr [])) audio_settings aworld0))
  = default [("en", "English")]
            (chatterbox_import (audio_env loads_fail (inr []))).
Proof.
  apply (supported_languages_follow_import
           (audio_env loads_fail (inr [])) audio_settings aworld0
           (snd (get_model (audio_env loads_fail (inr [])) audio_settings
                           aworld0))
           (fst (get_model (audio_env loads_fail (inr [])) audio_settings
                           aworld0))).
  - reflexivity.
  - reflexivity.
  - apply surjective_pairing.
Defined.

Lemma listing_is_sorted_selection_witness :
  let listed := [mk_entry "flux_mcp_00002_.JPG" 30 200;
                 mk_entry "flux_mcp_00003_.webp" 20 300;
                 mk_entry "flux_mcp_00001_.png" 10 100] in
  Permutation listed
    [mk_entry "flux_mcp_00001_.png" 10 100;
     mk_entry "flux_mcp_00002_.JPG" 30 200;
     mk_entry "flux_mcp_00003_.webp" 20 300]
  /\ StronglySorted (fun a b => (fe_mtime b <= fe_mtime a)%Q) listed
  /\ pg_total (list_page directory 0 10) = 3
  /\ pg_has_more (list_page directory 0 10) = false
  /\ pg_next_offset (list_page directory 0 10) = None.
Proof.
  intros listed.
  apply (listing_is_sorted_selection directory 10).
  vm_compute. discriminate.
Defined.

Lemma list_page_window_witness :
  let files := sort_newest_first (List.filter is_image directory) in
  let p := list_page directory 2 2 in
  pg_total p = Z.of_nat (length files)
  /\ pg_items p = take (Z.to_nat 2) (drop (Z.to_nat 2) files)
  /\ Z.of_nat (length (pg_items p)) = Z.min 2 (Z.max 0 (pg_total p - 2))
  /\ (pg_has_more p = true <-> 2 + 2 < pg_total p)
  /\ pg_next_offset p = (if pg_has_more p then Some (2 + 2) else None).
Proof.
  apply (list_page_window directory 2 2); lia.
Defined.

Lemma following_pages_lists_everything_witness :
  concat (follow_pages directory 2 5 0)
  = sort_newest_first (List.filter is_image directory).
Proof.
  apply (following_pages_lists_everything directory 2 5).
  - lia.
  - vm_compute. lia.
Defined.

End MoreExamples.
